(** * Sia: wallet seed scanner, host weighting, renter negotiation and the
      host's contract manager

    A shallow embedding of

    - [modules/wallet/scan.go]            (module [Wallet]),
    - the [hostdb] weight function         (module [Hostdb]),
    - [modules/renter/negotiate.go]        (module [Renter]),
    - [modules/host/contractmanager/contractmanager.go]
                                           (module [ContractManager]),

    followed by the properties proved about them.  Go's [uint64] is a [Z]
    reduced modulo [2^64]; Go maps are stdpp [gmap]s; an [error] is an
    [option] whose [None] is Go's [nil]; a method that mutates its receiver
    returns the new receiver. *)

From Stdlib Require Import ZArith String List.
From stdpp Require Import base gmap list strings.

#[local] Open Scope Z_scope.

(** ** Shared conventions *)

(** A [crypto.Hash] (32 bytes), read as a number. *)
Definition Hash : Type := N.

(** Reduction of an integer to Go's [uint64]. *)
Definition u64 (z : Z) : Z := z mod 2 ^ 64.

(** [build.Release] is a string constant fixed at build time; any value
    other than these three makes the package initialisers panic. *)
Module Build.
Inductive Release : Type := dev | standard | testing.
End Build.

(** ** modules/wallet/scan.go *)
Module Wallet.

(** [types.Currency]: a non-negative big integer. *)
Definition Currency : Type := N.

(** [Currency.Cmp]: -1, 0 or 1. *)
Definition Cmp (x y : Currency) : Z :=
  match N.compare x y with
  | Lt => -1
  | Eq => 0
  | Gt => 1
  end.

Definition Seed : Type := N.

Inductive DiffDirection : Type := DiffApply | DiffRevert.

Record SiacoinOutput : Type := {
  Value : Currency;
  UnlockHash : Hash
}.

Record SiacoinOutputDiff : Type := {
  Direction : DiffDirection;
  ID : Hash;
  SiacoinOutput_ : SiacoinOutput
}.

Record SiafundOutput : Type := {
  sfValue : Currency;
  sfUnlockHash : Hash
}.

Record SiafundOutputDiff : Type := {
  sfDirection : DiffDirection;
  sfID : Hash;
  SiafundOutput_ : SiafundOutput
}.

(** The two fields of [modules.ConsensusChange] the scanner reads. *)
Record ConsensusChange : Type := {
  SiacoinOutputDiffs : list SiacoinOutputDiff;
  SiafundOutputDiffs : list SiafundOutputDiff
}.

Record scannedOutput : Type := {
  id : Hash;
  value : Currency;
  seedIndex : Z
}.

Record seedScanner : Type := {
  dustThreshold : Currency;
  keys : gmap Hash Z;
  largestIndexSeen : Z;
  seed : Seed;
  siacoinOutputs : gmap Hash scannedOutput
}.

Definition with_keys (s : seedScanner) (k : gmap Hash Z) : seedScanner :=
  {| dustThreshold := dustThreshold s; keys := k;
     largestIndexSeen := largestIndexSeen s; seed := seed s;
     siacoinOutputs := siacoinOutputs s |}.

Definition with_siacoinOutputs (s : seedScanner)
    (o : gmap Hash scannedOutput) : seedScanner :=
  {| dustThreshold := dustThreshold s; keys := keys s;
     largestIndexSeen := largestIndexSeen s; seed := seed s;
     siacoinOutputs := o |}.

Definition with_largestIndexSeen (s : seedScanner) (i : Z) : seedScanner :=
  {| dustThreshold := dustThreshold s; keys := keys s;
     largestIndexSeen := i; seed := seed s;
     siacoinOutputs := siacoinOutputs s |}.

Definition numKeys (s : seedScanner) : Z :=
  u64 (Z.of_nat (size (keys s))).

(** The outcome of [scan]: Go's [nil], the error of the subscription, or
    the package's own [errMaxKeys]. *)
Inductive scanError : Type :=
| errMaxKeys
| errSubscribe (msg : string).

(** [modules.ConsensusSet], as [scan] uses it: the [n]-th call of
    [ConsensusSetSubscribe] feeds these changes to the subscriber's
    [ProcessConsensusChange] and then returns this error.  [Unsubscribe]
    does not touch the scanner. *)
Definition ConsensusSet : Type := nat -> list ConsensusChange * option string.

(** One pass through the body of [scan]'s loop, kept as a record of the
    run: the batch size asked of [generateKeys], the scanner on entry, the
    scanner after the subscription, and the subscription's error. *)
Record iteration : Type := {
  batch : Z;
  before : seedScanner;
  after : seedScanner;
  subscribeErr : option string
}.

Section Scanner.

Variable release : Build.Release.

(** The unlock hash of the key at a seed index:
    [generateSpendableKey(seed, index).UnlockConditions.UnlockHash()].
    Key derivation lives in seed.go, which is not embedded here. *)
Variable keyUnlockHash : Seed -> Z -> Hash.

Definition numInitialKeys : Z :=
  match release with
  | Build.dev => 10000
  | Build.standard => 1000000
  | Build.testing => 1000
  end.

Definition maxScanKeys : Z :=
  match release with
  | Build.dev => 1000000
  | Build.standard => 100000000
  | Build.testing => 100000
  end.

(** The package-level [generateKeys(seed, start, n)]: the unlock hashes
    of the keys at indices [start], ..., [start + n - 1]. *)
Definition generateKeys (sd : Seed) (start n : Z) : list Hash :=
  map (fun i : nat => keyUnlockHash sd (u64 (start + Z.of_nat i)))
      (seq 0 (Z.to_nat n)).

(** [for i, k := range ... { s.keys[k...] = initialProgress + uint64(i) }] *)
Definition insertKeys (initialProgress : Z) (ks : list Hash)
    (m : gmap Hash Z) : gmap Hash Z :=
  fold_left
    (fun (acc : gmap Hash Z) (ik : nat * Hash) =>
       <[ik.2 := u64 (initialProgress + Z.of_nat ik.1)]> acc)
    (combine (seq 0 (length ks)) ks) m.

(** The method [seedScanner.generateKeys]. *)
Definition seedScanner_generateKeys (s : seedScanner) (n : Z) : seedScanner :=
  let initialProgress := numKeys s in
  with_keys s
    (insertKeys initialProgress (generateKeys (seed s) initialProgress n)
                (keys s)).

(** First loop of [ProcessConsensusChange], one diff. *)
Definition updateOutput (s : seedScanner) (diff : SiacoinOutputDiff)
    : seedScanner :=
  match Direction diff with
  | DiffApply =>
      match keys s !! UnlockHash (SiacoinOutput_ diff) with
      | Some index =>
          if decide (Cmp (Value (SiacoinOutput_ diff)) (dustThreshold s) > 0)
          then with_siacoinOutputs s
                 (<[ID diff := {| id := ID diff;
                                  value := Value (SiacoinOutput_ diff);
                                  seedIndex := index |}]>
                    (siacoinOutputs s))
          else s
      | None => s
      end
  | DiffRevert =>
      match keys s !! UnlockHash (SiacoinOutput_ diff) with
      | Some _ => with_siacoinOutputs s (delete (ID diff) (siacoinOutputs s))
      | None => s
      end
  end.

(** Second and third loops, one unlock hash. *)
Definition updateLargest (s : seedScanner) (h : Hash) : seedScanner :=
  match keys s !! h with
  | Some index =>
      if decide (index > largestIndexSeen s)
      then with_largestIndexSeen s index
      else s
  | None => s
  end.

Definition ProcessConsensusChange (s : seedScanner) (cc : ConsensusChange)
    : seedScanner :=
  let s1 := fold_left updateOutput (SiacoinOutputDiffs cc) s in
  let s2 := fold_left updateLargest
              (map (fun d => UnlockHash (SiacoinOutput_ d))
                   (SiacoinOutputDiffs cc)) s1 in
  fold_left updateLargest
    (map (fun d => sfUnlockHash (SiafundOutput_ d))
         (SiafundOutputDiffs cc)) s2.

(** The loop of [scan].  [fuel] bounds the number of passes and [None]
    means it ran out; [call] counts the subscriptions made so far and
    [n] is the local variable [numKeys].  Besides the returned error and
    the scanner, the passes made are listed, oldest first. *)
Fixpoint scanLoop (fuel : nat) (cs : ConsensusSet) (call : nat) (n : Z)
    (s : seedScanner)
    : option (option scanError * seedScanner * list iteration) :=
  match fuel with
  | O => None
  | S fuel' =>
      if decide (numKeys s < maxScanKeys) then
        let s1 := seedScanner_generateKeys s n in
        let s2 := fold_left ProcessConsensusChange (cs call).1 s1 in
        let it := {| batch := n; before := s; after := s2;
                     subscribeErr := (cs call).2 |} in
        match (cs call).2 with
        | Some e => Some (Some (errSubscribe e), s2, [it])
        | None =>
            if decide (largestIndexSeen s2 < numKeys s2 / 2) then
              Some (None, s2, [it])
            else
              let n4 := u64 (n * 4) in
              let n' := if decide (n4 > u64 (maxScanKeys - numKeys s2))
                        then u64 (maxScanKeys - numKeys s2) else n4 in
              match scanLoop fuel' cs (S call) n' s2 with
              | Some (r, s', its) => Some (r, s', it :: its)
              | None => None
              end
        end
      else Some (Some errMaxKeys, s, [])
  end.

Definition scan (fuel : nat) (s : seedScanner) (cs : ConsensusSet)
    : option (option scanError * seedScanner * list iteration) :=
  scanLoop fuel cs 0%nat numInitialKeys s.

Definition newSeedScanner (sd : Seed) : seedScanner :=
  {| dustThreshold := 0%N; keys := ∅; largestIndexSeen := 0;
     seed := sd; siacoinOutputs := ∅ |}.

(** *** Notions used to state the properties of the scanner *)

(** Processing consensus changes never touches the key table or the seed. *)
Definition same_keys (s s' : seedScanner) : Prop :=
  keys s' = keys s /\ seed s' = seed s /\ dustThreshold s' = dustThreshold s.

(** The key table holds exactly the keys of the seed indices below [k]. *)
Definition generated (sd : Seed) (m : gmap Hash Z) (k : nat) : Prop :=
  size m = k /\
  forall h i, m !! h = Some i <->
              0 <= i < Z.of_nat k /\ h = keyUnlockHash sd i.

(** No two seed indices below [bound] share an unlock hash. *)
Definition collision_free (sd : Seed) (bound : Z) : Prop :=
  forall i j, 0 <= i < bound -> 0 <= j < bound ->
              keyUnlockHash sd i = keyUnlockHash sd j -> i = j.

(** What holds of every pass of the loop: the batch is not empty, the
    table grows by exactly the batch, and stays within [maxScanKeys]. *)
Definition pass_ok (it : iteration) : Prop :=
  0 < batch it /\
  numKeys (after it) = numKeys (before it) + batch it /\
  numKeys (after it) <= maxScanKeys.

(** A pass that neither fails to subscribe nor takes the early exit. *)
Definition pass_continues (it : iteration) : Prop :=
  subscribeErr it = None /\
  ~ largestIndexSeen (after it) < numKeys (after it) / 2.

(** The batches of a run and the scanners they start from: the first pass
    generates [n] keys from [s]; each next pass starts from the scanner
    the one before left and generates four times the batch before, or
    what is left up to [maxScanKeys] when that is less; the last pass
    leaves [s']. *)
Fixpoint scheduled (n : Z) (s : seedScanner) (its : list iteration)
    (s' : seedScanner) : Prop :=
  match its with
  | [] => s' = s
  | it :: rest =>
      batch it = n /\ before it = s /\
      scheduled (Z.min (4 * n) (maxScanKeys - numKeys (after it)))
                (after it) rest s'
  end.

Definition scan_post (r : option scanError) (s' : seedScanner)
    (its : list iteration) : Prop :=
  Forall pass_ok its /\
  numKeys s' <= maxScanKeys /\
  (r = Some errMaxKeys <->
   numKeys s' = maxScanKeys /\ Forall pass_continues its).

End Scanner.

End Wallet.

(** ** hostdb: the weight of a host entry *)
Module Hostdb.

(** [consensus.Currency] wraps a [math/big] integer; the package itself is
    not among the sources, so its operations are written here as [big.Int]
    defines them.  [Sign] is -1, 0 or 1. *)
Definition Currency : Type := Z.

Definition NewCurrency64 (x : Z) : Currency := u64 x.

Definition Sign (c : Currency) : Z := Z.sgn c.

Definition Mul (x y : Currency) : Currency := x * y.

(** [big.Int.Div]: Euclidean division; a zero divisor panics ([None]). *)
Definition Div (x y : Currency) : option Currency :=
  if decide (y = 0) then None
  else if decide (0 < y) then Some (x / y)
  else Some (- (x / - y)).

(** [Currency.Sqrt]: the integer part of the square root. *)
Definition Sqrt (c : Currency) : Currency := Z.sqrt c.

(** The fields of [modules.HostEntry] that [entryWeight] reads. *)
Record HostEntry : Type := {
  Price : Currency;
  Collateral : Currency;
  Freeze : Currency
}.

(** The three guards of [entryWeight], in the order of the source; [entry]
    is a copy, as the Go parameter is passed by value. *)
Definition floorPrice (entry : HostEntry) : HostEntry :=
  if decide (Sign (Price entry) <= 0)
  then {| Price := NewCurrency64 1; Collateral := Collateral entry;
          Freeze := Freeze entry |}
  else entry.

Definition floorCollateral (entry : HostEntry) : HostEntry :=
  if decide (Sign (Collateral entry) <= 0)
  then {| Price := Price entry; Collateral := NewCurrency64 1;
          Freeze := Freeze entry |}
  else entry.

Definition floorFreeze (entry : HostEntry) : HostEntry :=
  if decide (Sign (Freeze entry) <= 0)
  then {| Price := Price entry; Collateral := Collateral entry;
          Freeze := NewCurrency64 1 |}
  else entry.

Definition entryWeight (entry : HostEntry) : option Currency :=
  let entry := floorFreeze (floorCollateral (floorPrice entry)) in
  Div (Mul (Freeze entry) (Collateral entry)) (Sqrt (Price entry)).

End Hostdb.

(** ** modules/renter/negotiate.go *)
Module Renter.

Definition Currency : Type := N.

(** A Go [error]: [None] is [nil], [Some msg] an error with that message. *)
Definition error : Type := option string.

Record SiaPublicKey : Type := {
  Algorithm : string;
  Key : N
}.

Record UnlockConditions : Type := {
  PublicKeys : list SiaPublicKey;
  SignaturesRequired : Z
}.

Record SiacoinOutput : Type := {
  Value : Currency;
  UnlockHash : Hash
}.

Record FileContract : Type := {
  FileSize : Z;
  FileMerkleRoot : Hash;
  WindowStart : Z;
  WindowEnd : Z;
  Payout : Currency;
  ValidProofOutputs : list SiacoinOutput;
  MissedProofOutputs : list SiacoinOutput;
  fcUnlockHash : Hash;
  RevisionNumber : Z
}.

(** [types.Transaction]: the file contracts are kept as a list, in the
    order they were added; inputs, revisions and signatures are kept by
    their ids only. *)
Record Transaction : Type := {
  SiacoinInputs : list Hash;
  FileContracts : list FileContract;
  FileContractRevisions : list Hash;
  TransactionSignatures : list Hash
}.

(** [types.Transaction{}] *)
Definition emptyTransaction : Transaction :=
  {| SiacoinInputs := []; FileContracts := [];
     FileContractRevisions := []; TransactionSignatures := [] |}.

Record HostSettings : Type := {
  IPAddress : string;
  Price : Currency;
  WindowSize : Z;
  hostUnlockHash : Hash
}.

(** The renter's own record of a contract ([fileContract]). *)
Record fileContract : Type := {
  ID : Hash;
  IP : string;
  contractWindowStart : Z
}.

Record Renter : Type := {
  blockHeight : Z;
  entropy : Hash;
  contracts : gmap Hash FileContract
}.

Record hostUploader : Type := {
  settings : HostSettings;
  unlockConditions : UnlockConditions;
  secretKey : N;
  contract : fileContract;
  lastTxn : Transaction
}.

(** What goes over the connection. *)
Inductive object : Type :=
| ObjRPC (rpcID : string)
| ObjPublicKey (pk : SiaPublicKey)
| ObjTransaction (t : Transaction)
| ObjTransactionSet (ts : list Transaction).

(** Effects on the outside world, in the order they happen. *)
Inductive event : Type :=
| EvWriteObject (o : object)
| EvConnClose
| EvAcceptTransactionSet (ts : list Transaction)
| EvDrop.

(** The outside world of one call: the peer at the other end of the
    connection, scripted by what each read returns and whether each write
    fails, and the transaction pool. *)
Record world : Type := {
  dial : error;
  writeObject : object -> error;
  connClose : error;
  readHostPublicKey : string + SiaPublicKey;
  readResponse : string + string;
  readHostTxnSet : string + list Transaction;
  readSignedHostTxnSet : string + list Transaction;
  AcceptTransactionSet : list Transaction -> error
}.

(** [hostUploader.Close] *)
Definition Close (w : world) (hu : hostUploader) : error * list event :=
  (* send an empty revision to indicate that we are finished *)
  let _ := writeObject w (ObjTransaction emptyTransaction) in
  let _ := connClose w in
  (* submit the most recent revision to the blockchain *)
  let err := AcceptTransactionSet w [lastTxn hu] in
  let _ := match err with Some _ => tt | None => tt end in
  (err, [EvWriteObject (ObjTransaction emptyTransaction); EvConnClose;
         EvAcceptTransactionSet [lastTxn hu]]).

Definition RPCUpload : string := "Upload".
Definition AcceptResponse : string := "accept".
Definition SignatureEd25519 : string := "ed25519".
Definition ErrDuplicateTransactionSet : string :=
  "transaction set contains only duplicate transactions".

(** The state a call of [negotiateContract] works on. *)
Record state : Type := {
  st_hu : hostUploader;
  st_renter : Renter;
  st_events : list event
}.

(** A computation that may return early with an error. *)
Definition M (A : Type) : Type := state -> (string + A) * state.

Definition ret {A : Type} (a : A) : M A := fun st => (inr a, st).

Definition fail {A : Type} (msg : string) : M A := fun st => (inl msg, st).

Definition bind {A B : Type} (m : M A) (k : A -> M B) : M B :=
  fun st =>
    match m st with
    | (inl msg, st') => (inl msg, st')
    | (inr a, st') => k a st'
    end.

Notation "x <- m ;; k" := (bind m (fun x => k))
  (at level 100, m at next level, right associativity).
Notation "m ;;; k" := (bind m (fun _ => k))
  (at level 100, right associativity).

Definition get : M state := fun st => (inr st, st).

Definition emit (e : event) : M unit :=
  fun st => (inr tt, {| st_hu := st_hu st; st_renter := st_renter st;
                        st_events := st_events st ++ [e] |}).

Definition modify_hu (f : hostUploader -> hostUploader) : M unit :=
  fun st => (inr tt, {| st_hu := f (st_hu st); st_renter := st_renter st;
                        st_events := st_events st |}).

Definition modify_renter (f : Renter -> Renter) : M unit :=
  fun st => (inr tt, {| st_hu := st_hu st; st_renter := f (st_renter st);
                        st_events := st_events st |}).

(** [if err != nil { return errors.New(prefix + err.Error()) }]; an empty
    prefix stands for [return err]. *)
Definition check (prefix : string) (err : error) : M unit :=
  match err with
  | Some msg => fail (prefix +:+ msg)
  | None => ret tt
  end.

(** [encoding.WriteObject(conn, o)] *)
Definition WriteObject (w : world) (o : object) : M error :=
  emit (EvWriteObject o) ;;; ret (writeObject w o).

(** [encoding.ReadObject(conn, &x, max)] *)
Definition ReadObject {A : Type} (r : string + A) (prefix : string)
    (onError : M unit) : M A :=
  match r with
  | inl msg => onError ;;; fail (prefix +:+ msg)
  | inr a => ret a
  end.

Section Negotiate.

(** Functions of the [crypto] and [types] packages, which are not
    embedded here. *)
Variable HashAll : Hash -> SiaPublicKey -> Hash.
Variable GenerateDeterministic : Hash -> N * N.
Variable UnlockConditionsHash : UnlockConditions -> Hash.
Variable Tax : Z -> Currency -> Currency.
Variable MulFloat105 : Currency -> Currency.
Variable Sub : Currency -> Currency -> Currency.
Variable TransactionID : Transaction -> Hash.
Variable FileContractID : Transaction -> Z -> Hash.

(** [modules.TransactionBuilder], an interface implemented by the
    wallet; [B] is the builder's state. *)
Variable B : Type.
Variable StartTransaction : B.
Variable FundSiacoins : B -> Currency -> error * B.
Variable AddFileContract : B -> FileContract -> B.
Variable View : B -> Transaction * list Transaction.
Variable Sign : B -> bool -> string + list Transaction.

Definition NewCurrency64 (x : Z) : Currency := Z.to_N (u64 x).

(** Lines 80-82: the renter's cost, which is also the payout. *)
Definition renterCost (hu : hostUploader) (filesize duration : Z)
    : Currency :=
  MulFloat105
    (Price (settings hu) * NewCurrency64 filesize
     * NewCurrency64 (u64 duration))%N.

(** Lines 96-114: the renter's key pair and the unlock conditions. *)
Definition ourKeys (r : Renter) (hostPublicKey : SiaPublicKey) : N * N :=
  GenerateDeterministic (HashAll (entropy r) hostPublicKey).

Definition ourPublicKey (r : Renter) (hostPublicKey : SiaPublicKey)
    : SiaPublicKey :=
  {| Algorithm := SignatureEd25519; Key := (ourKeys r hostPublicKey).2 |}.

Definition newUnlockConditions (r : Renter) (hostPublicKey : SiaPublicKey)
    : UnlockConditions :=
  {| PublicKeys := [ourPublicKey r hostPublicKey; hostPublicKey];
     SignaturesRequired := 2 |}.

(** Lines 116-136: the file contract. *)
Definition newFileContract (hu : hostUploader) (r : Renter)
    (filesize duration : Z) (renterAddress : Hash)
    (hostPublicKey : SiaPublicKey) : FileContract :=
  let height := blockHeight r in
  let cost := renterCost hu filesize duration in
  let payout := cost in
  let valid :=
    [ {| Value := Sub cost (Tax (blockHeight r) payout);
         UnlockHash := renterAddress |};
      {| Value := 0%N; UnlockHash := hostUnlockHash (settings hu) |} ] in
  {| FileSize := 0;
     FileMerkleRoot := 0%N;
     WindowStart := u64 (height + duration);
     WindowEnd := u64 (u64 (height + duration) + WindowSize (settings hu));
     Payout := payout;
     ValidProofOutputs := valid;
     MissedProofOutputs :=
       [ {| Value := Sub cost (Tax (blockHeight r) payout);
            UnlockHash := renterAddress |};
         {| Value := 0%N; UnlockHash := 0%N |} ];
     fcUnlockHash := UnlockConditionsHash (newUnlockConditions r hostPublicKey);
     RevisionNumber := 0 |}.

(** Lines 138-146: the transaction holding the contract, as the builder
    shows it after funding and [AddFileContract]. *)
Definition buildTransaction (fc : FileContract)
    : string + B * Transaction * list Transaction :=
  let txnBuilder := StartTransaction in
  match FundSiacoins txnBuilder (Payout fc) with
  | (Some msg, _) => inl msg
  | (None, txnBuilder) =>
      let txnBuilder := AddFileContract txnBuilder fc in
      let '(txn, parents) := View txnBuilder in
      inr (txnBuilder, txn, parents)
  end.

(** Lines 175-186: the host must send back the transactions it got. *)
Definition sameTransactionSets (hostTxnSet txnSet : list Transaction)
    : bool :=
  bool_decide (length hostTxnSet = length txnSet) &&
  forallb (fun p : Transaction * Transaction =>
             bool_decide (TransactionID p.1 = TransactionID p.2))
          (combine hostTxnSet txnSet).

Definition negotiateContract (w : world) (filesize duration : Z)
    (renterAddress : Hash) : M unit :=
  check "" (dial w) ;;;
  (* initial calculations before connecting to host *)
  st <- get ;;
  let hu := st_hu st in
  let r := st_renter st in
  (* write rpcID *)
  err <- WriteObject w (ObjRPC RPCUpload) ;;
  check "couldn't initiate RPC: " err ;;;
  (* read host key *)
  hostPublicKey <- ReadObject (readHostPublicKey w)
                     "couldn't read host's public key: " (ret tt) ;;
  (* create our own key by combining the renter entropy with the host key *)
  modify_hu (fun hu =>
    {| settings := settings hu; unlockConditions := unlockConditions hu;
       secretKey := (ourKeys r hostPublicKey).1;
       contract := contract hu; lastTxn := lastTxn hu |}) ;;;
  (* send our public key *)
  err <- WriteObject w (ObjPublicKey (ourPublicKey r hostPublicKey)) ;;
  check "couldn't send our public key: " err ;;;
  (* create unlock conditions *)
  modify_hu (fun hu =>
    {| settings := settings hu;
       unlockConditions := newUnlockConditions r hostPublicKey;
       secretKey := secretKey hu;
       contract := contract hu; lastTxn := lastTxn hu |}) ;;;
  (* create file contract *)
  let fc := newFileContract hu r filesize duration renterAddress
              hostPublicKey in
  (* build transaction containing fc *)
  match buildTransaction fc with
  | inl msg => fail msg
  | inr (txnBuilder, txn, parents) =>
      let txnSet := parents ++ [txn] in
      (* calculate contract ID *)
      let fcid := FileContractID txn 0 in
      (* send txn *)
      err <- WriteObject w (ObjTransactionSet txnSet) ;;
      match err with
      | Some msg =>
          emit EvDrop ;;;
          fail ("couldn't send our proposed contract: " +:+ msg)
      | None =>
      (* read back acceptance *)
      response <- ReadObject (readResponse w)
        "couldn't read the host's response to our proposed contract: "
        (emit EvDrop) ;;
      if negb (String.eqb response AcceptResponse) then
        emit EvDrop ;;;
        fail ("host rejected proposed contract: " +:+ response)
      else
      (* read back txn with host collateral *)
      hostTxnSet <- ReadObject (readHostTxnSet w)
        "couldn't read the host's updated contract: " (emit EvDrop) ;;
      (* check that txn is okay *)
      if negb (sameTransactionSets hostTxnSet txnSet) then
        emit EvDrop ;;;
        fail "host sent bad collateral transaction"
      else
      (* sign the txn and resend *)
      match Sign txnBuilder true with
      | inl msg => emit EvDrop ;;; fail msg
      | inr signedTxnSet =>
      err <- WriteObject w (ObjTransactionSet signedTxnSet) ;;
      match err with
      | Some msg =>
          emit EvDrop ;;;
          fail ("couldn't send the contract signed by us: " +:+ msg)
      | None =>
      (* read signed txn from host *)
      signedHostTxnSet <- ReadObject (readSignedHostTxnSet w)
        "couldn't read the contract signed by the host: " (emit EvDrop) ;;
      (* submit to blockchain *)
      emit (EvAcceptTransactionSet signedHostTxnSet) ;;;
      let err := AcceptTransactionSet w signedHostTxnSet in
      let err := if decide (err = Some ErrDuplicateTransactionSet)
                 then None else err in
      match err with
      | Some msg => emit EvDrop ;;; fail msg
      | None =>
      (* create initial fileContract object *)
      modify_hu (fun hu =>
        {| settings := settings hu;
           unlockConditions := unlockConditions hu;
           secretKey := secretKey hu;
           contract := {| ID := fcid; IP := IPAddress (settings hu);
                          contractWindowStart := WindowStart fc |};
           lastTxn := lastTxn hu |}) ;;;
      modify_renter (fun r =>
        {| blockHeight := blockHeight r; entropy := entropy r;
           contracts := <[fcid := fc]> (contracts r) |}) ;;;
      ret tt
      end end end end
  end.

(** [negotiateContract] as a function of the uploader and the renter;
    the deferred [conn.Close()] runs on every return after a successful
    dial. *)
Definition runNegotiateContract (w : world) (hu : hostUploader)
    (r : Renter) (filesize duration : Z) (renterAddress : Hash)
    : error * state :=
  let st0 := {| st_hu := hu; st_renter := r; st_events := [] |} in
  let '(res, st) := negotiateContract w filesize duration renterAddress st0 in
  let st := match dial w with
            | None => {| st_hu := st_hu st; st_renter := st_renter st;
                         st_events := st_events st ++ [EvConnClose] |}
            | Some _ => st
            end in
  (match res with inl msg => Some msg | inr _ => None end, st).

End Negotiate.

End Renter.

(** ** modules/host/contractmanager/contractmanager.go *)
Module ContractManager.

Definition error : Type := option string.

(** [build.ExtendErr] and [build.ComposeErrors] belong to a package that is
    not embedded here.  They are written as that package
    documents them: [ExtendErr] returns [nil] for a [nil] error and
    otherwise prefixes the message; [ComposeErrors] drops the [nil]
    errors and joins the messages of the others. *)
Definition ExtendErr (s : string) (err : error) : error :=
  match err with
  | None => None
  | Some e => Some (s +:+ ": " +:+ e)
  end.

Definition ComposeErrors (errs : list error) : error :=
  match omap id errs with
  | [] => None
  | strs => Some ("[" +:+ String.concat "; " strs +:+ "]")
  end.

(** [errors.New] *)
Definition errors_New (msg : string) : error := Some msg.

Definition sectorID : Type := N.

(** Modelled from the spec: the type [sectorLocation] is declared in a file
    that is not among the sources; section 3 gives it as the tuple
    {folderID: u16, index: u32, count: u16}. *)
Record sectorLocation : Type := {
  folderID : Z;
  index : nat;
  count : Z
}.

(** Modelled from the spec: the type [storageFolder] is declared in a file
    that is not among the sources; section 3 gives it a path, a capacity
    in slots with a usage bitmap over them, a metadata file handle, a
    sector file handle and an availability flag.  The capacity is the
    length of the bitmap; [sectors] is the content of the sector file,
    [capacity * sectorSize] bytes. *)
Record storageFolder : Type := {
  path : string;
  usage : list bool;
  sectors : list Byte.byte;
  available : bool;
  metadataFile : N;
  sectorFile : N
}.

(** The closures that [newContractManager] hands to [tg.AfterStop], named
    by what they do. *)
Inductive afterStopFn : Type :=
| fnDestruct      (* dependencies.destruct() *)
| fnCloseLogger   (* err = build.ComposeErrors(cm.log.Close(), err) *)
| fnUnloadFiles.  (* close the file handles of every storage folder *)

(** Modelled from the spec: [siasync.ThreadGroup] is not among the
    sources; section 4.1 gives [afterStop(fn)], which registers a cleanup
    closure, and [stop()], which transitions to stopped and then invokes
    the afterStop closures in reverse registration order. *)
Record ThreadGroup : Type := {
  stopped : bool;
  afterStopFns : list afterStopFn
}.

(** The fields of the Go struct.  The embedded [dependencies] and the
    [wal], which only points back to the manager, are arguments of the
    functions below. *)
Record ContractManager : Type := {
  sectorSalt : Hash;
  sectorLocations : gmap sectorID sectorLocation;
  storageFolders : gmap Z storageFolder;
  lockedSectors : gmap sectorID nat;
  log : option string;
  persistDir : string;
  tg : ThreadGroup
}.

Definition with_tg (cm : ContractManager) (g : ThreadGroup) : ContractManager :=
  {| sectorSalt := sectorSalt cm; sectorLocations := sectorLocations cm;
     storageFolders := storageFolders cm; lockedSectors := lockedSectors cm;
     log := log cm; persistDir := persistDir cm; tg := g |}.

Definition with_log (cm : ContractManager) (l : option string) : ContractManager :=
  {| sectorSalt := sectorSalt cm; sectorLocations := sectorLocations cm;
     storageFolders := storageFolders cm; lockedSectors := lockedSectors cm;
     log := l; persistDir := persistDir cm; tg := tg cm |}.

Definition with_sectorSalt (cm : ContractManager) (salt : Hash) : ContractManager :=
  {| sectorSalt := salt; sectorLocations := sectorLocations cm;
     storageFolders := storageFolders cm; lockedSectors := lockedSectors cm;
     log := log cm; persistDir := persistDir cm; tg := tg cm |}.

Definition with_storageFolders (cm : ContractManager)
    (sfs : gmap Z storageFolder) : ContractManager :=
  {| sectorSalt := sectorSalt cm; sectorLocations := sectorLocations cm;
     storageFolders := sfs; lockedSectors := lockedSectors cm;
     log := log cm; persistDir := persistDir cm; tg := tg cm |}.

Definition with_sectorLocations (cm : ContractManager)
    (locs : gmap sectorID sectorLocation) : ContractManager :=
  {| sectorSalt := sectorSalt cm; sectorLocations := locs;
     storageFolders := storageFolders cm; lockedSectors := lockedSectors cm;
     log := log cm; persistDir := persistDir cm; tg := tg cm |}.

(** What the run does to the outside, in order. *)
Inductive event : Type :=
| EvInit
| EvDestruct
| EvMkdirAll (dir : string) (perm : Z)
| EvNewLogger (file : string)
| EvLogPrintln (msg : string) (cause : string)
| EvLogClose
| EvLoadSettings
| EvWalLoad
| EvLoadSectorLocations
| EvSpawnSyncLoop
| EvDisrupt (name : string)
| EvWalLock
| EvWalUnlock
| EvCloseFile (handle : N)
| EvAfterStop (fn : afterStopFn)   (* AfterStop is called with fn *)
| EvStop                           (* the thread group stops *)
| EvRun (fn : afterStopFn).        (* stop() invokes fn *)

(** The [dependencies] interface, as far as this file calls it. *)
Record dependencies : Type := {
  mkdirAll : string -> Z -> error;
  newLogger : string -> error;
  disrupt : string -> bool
}.

(** The methods of the manager and of its WAL that this file calls and
    other files of the package define, by their outcome on the files of
    the persist directory: the settings found there (salt and folders),
    the folders after the WAL has been replayed, the index built from
    the folders, whether the sync loop could be spawned, and what closing
    the logger and a file handle answers. *)
Record persistence : Type := {
  loadSettings : error * Hash * gmap Z storageFolder;
  wal_load : gmap Z storageFolder -> error * gmap Z storageFolder;
  loadSectorLocations : gmap Z storageFolder -> gmap sectorID sectorLocation;
  wal_spawnSyncLoop : error;
  log_Close : error;
  file_Close : N -> error
}.

(** The manager under construction together with the local variable [err]
    of [newContractManager], which the closures capture, and the events
    so far. *)
Record machine : Type := {
  cm : ContractManager;
  err : error;
  trace : list event
}.

Definition emit (m : machine) (e : event) : machine :=
  {| cm := cm m; err := err m; trace := trace m ++ [e] |}.

Definition set_err (m : machine) (e : error) : machine :=
  {| cm := cm m; err := e; trace := trace m |}.

Definition set_cm (m : machine) (c : ContractManager) : machine :=
  {| cm := c; err := err m; trace := trace m |}.

(** [cm.tg.AfterStop(fn)] *)
Definition AfterStop (m : machine) (fn : afterStopFn) : machine :=
  let g := tg (cm m) in
  emit (set_cm m (with_tg (cm m)
                    {| stopped := stopped g;
                       afterStopFns := afterStopFns g ++ [fn] |}))
       (EvAfterStop fn).

(** [cm.log.Println(msg, err)] *)
Definition log_Println (m : machine) (msg : string) : machine :=
  match err m with
  | Some cause => emit m (EvLogPrintln msg cause)
  | None => emit m (EvLogPrintln msg "<nil>")
  end.

Section Run.

Variable deps : dependencies.
Variable ps : persistence.

(** The body of the third closure, for one storage folder. *)
Definition closeFolder (m : machine) (sf : storageFolder) : machine :=
  let m := set_err (emit m (EvCloseFile (metadataFile sf)))
                   (file_Close ps (metadataFile sf)) in
  let m := match err m with
           | Some _ => log_Println m "Error closing the storage folder file handle"
           | None => m
           end in
  let m := set_err (emit m (EvCloseFile (sectorFile sf)))
                   (file_Close ps (sectorFile sf)) in
  match err m with
  | Some _ => log_Println m "Error closing the storage folder file handle"
  | None => m
  end.

(** What each closure does when it is invoked.  Go ranges over the map
    of storage folders in no fixed order; the order of the map's list
    stands for it. *)
Definition runAfterStopFn (m : machine) (fn : afterStopFn) : machine :=
  let m := emit m (EvRun fn) in
  match fn with
  | fnDestruct => emit m EvDestruct
  | fnCloseLogger =>
      let m := emit m EvLogClose in
      set_err m (ComposeErrors [log_Close ps; err m])
  | fnUnloadFiles =>
      let m := emit m EvWalLock in
      let m := fold_left closeFolder
                 (map snd (map_to_list (storageFolders (cm m)))) m in
      emit m EvWalUnlock
  end.

(** Modelled from the spec: [ThreadGroup.Stop] is not among the sources.
    Section 4.1: [stop()] transitions to stopped, then invokes the
    afterStop closures in reverse registration order; no handle is
    outstanding here.  The spec does not say what a second [stop()]
    answers; here it is an error and runs nothing. *)
Definition Stop (m : machine) : error * machine :=
  let g := tg (cm m) in
  if stopped g then (Some "ThreadGroup already stopped", m)
  else
    let m := emit (set_cm m (with_tg (cm m)
                     {| stopped := true; afterStopFns := afterStopFns g |}))
                  EvStop in
    let m := fold_left runAfterStopFn (rev (afterStopFns g)) m in
    (None, set_cm m (with_tg (cm m) {| stopped := true; afterStopFns := [] |})).

(** [ContractManager.Close] *)
Definition Close (m : machine) : error * machine :=
  let '(e, m) := Stop m in
  (ExtendErr "error while stopping contract manager" e, m).

Definition logFile : string := "contractmanager.log".

(** [filepath.Join] of a directory and a file name. *)
Definition filepath_Join (dir file : string) : string :=
  dir +:+ "/" +:+ file.

(** The deferred function of [newContractManager]. *)
Definition deferred (m : machine) : machine :=
  match err m with
  | Some _ =>
      let err1 := ExtendErr "error during contract manager startup" (err m) in
      let '(stopErr, m) := Stop m in
      let err2 :=
        ExtendErr "error while stopping a partially started contract manager"
                  stopErr in
      set_err m (ComposeErrors [err1; err2])
  | None => m
  end.

(** The body of [newContractManager] up to its [return] statements: the
    operands of the [return] that is taken, and the machine at that
    point. *)
Definition body (dir : string)
    : (option ContractManager * error) * machine :=
  let m := {| cm := {| sectorSalt := 0%N; sectorLocations := ∅;
                       storageFolders := ∅; lockedSectors := ∅;
                       log := None; persistDir := dir;
                       tg := {| stopped := false; afterStopFns := [] |} |};
              err := None; trace := [] |} in
  let m := emit m EvInit in
  let m := AfterStop m fnDestruct in
  (* Create the persist directory if it does not yet exist. *)
  let m := set_err (emit m (EvMkdirAll (persistDir (cm m)) 448))
                   (mkdirAll deps (persistDir (cm m)) 448) in
  match err m with
  | Some _ =>
      (None, ExtendErr "error while creating the persist directory for the contract manager" (err m), m)
  | None =>
  (* Logger is always the first thing initialized. *)
  let file := filepath_Join (persistDir (cm m)) logFile in
  let m := set_err (emit m (EvNewLogger file)) (newLogger deps file) in
  let m := set_cm m (with_log (cm m)
             (match err m with None => Some file | Some _ => None end)) in
  match err m with
  | Some _ =>
      (None, ExtendErr "error while creating the logger for the contract manager" (err m), m)
  | None =>
  (* Set up the clean shutdown of the logger. *)
  let m := AfterStop m fnCloseLogger in
  (* Load the atomic state of the contract manager. *)
  let m := emit m EvLoadSettings in
  let m := set_cm m (with_storageFolders
                       (with_sectorSalt (cm m) (loadSettings ps).1.2)
                       (loadSettings ps).2) in
  let m := set_err m (loadSettings ps).1.1 in
  match err m with
  | Some _ =>
      let m := log_Println m "ERROR: Unable to load contract manager settings:" in
      (None, ExtendErr "error while loading contract manager atomic data" (err m), m)
  | None =>
  (* Load the WAL, repairing any corruption caused by unclean shutdown. *)
  let m := emit m EvWalLoad in
  let loaded := wal_load ps (storageFolders (cm m)) in
  let m := set_err (set_cm m (with_storageFolders (cm m) loaded.2)) loaded.1 in
  match err m with
  | Some _ =>
      let m := log_Println m "ERROR: Unable to load the contract manager write-ahead-log:" in
      (None, ExtendErr "error while loading the WAL at startup" (err m), m)
  | None =>
  (* Upon shutdown, unload all of the files. *)
  let m := AfterStop m fnUnloadFiles in
  (* The sector location data is loaded last. *)
  let m := emit m EvLoadSectorLocations in
  let m := set_cm m (with_sectorLocations (cm m)
                       (loadSectorLocations ps (storageFolders (cm m)))) in
  (* Launch the sync loop. *)
  let m := set_err (emit m EvSpawnSyncLoop) (wal_spawnSyncLoop ps) in
  match err m with
  | Some _ =>
      let m := log_Println m "ERROR: Unable to spawn the contract manager synchronization loop:" in
      (None, ExtendErr "error while spawning contract manager sync loop" (err m), m)
  | None =>
  (* Simulate an error to make sure the cleanup code is triggered correctly. *)
  let m := emit m (EvDisrupt "erroredStartup") in
  if disrupt deps "erroredStartup" then
    let m := set_err m (errors_New "startup disrupted") in
    (None, err m, m)
  else (Some (cm m), None, m)
  end end end end end.

(** [newContractManager]: the result values are unnamed, so they are
    fixed by the [return] statement; the deferred function then runs and
    writes only the local [err]. *)
Definition newContractManager (dir : string)
    : (option ContractManager * error) * machine :=
  let '(results, m) := body dir in
  (results, deferred m).

End Run.

(** The closures handed to [AfterStop] and the closures invoked by
    [stop()], as a trace shows them, in order. *)
Definition registered (tr : list event) : list afterStopFn :=
  omap (fun e => match e with EvAfterStop fn => Some fn | _ => None end) tr.

Definition ran (tr : list event) : list afterStopFn :=
  omap (fun e => match e with EvRun fn => Some fn | _ => None end) tr.

(** The steps of recovery and the spawning of the sync loop. *)
Definition startupStep (e : event) : bool :=
  match e with
  | EvLoadSettings | EvWalLoad | EvLoadSectorLocations | EvSpawnSyncLoop => true
  | _ => false
  end.

(** The events of a manager's whole life: startup and, when startup
    succeeded, one [Close]. *)
Definition lifetime (deps : dependencies) (ps : persistence) (dir : string)
    : list event :=
  let started := newContractManager deps ps dir in
  match started.1.1 with
  | Some _ => trace (Close ps started.2).2
  | None => trace started.2
  end.

(** [e] includes the failure [cause]: the cause is part of its message. *)
Definition includes (e : error) (cause : string) : Prop :=
  exists pre post, e = Some (pre +:+ cause +:+ post).

(** The thread group has stopped and every closure registered during the
    run has been invoked, last registered first. *)
Definition shutdownComplete (m : machine) : Prop :=
  stopped (tg (cm m)) = true /\
  afterStopFns (tg (cm m)) = [] /\
  ran (trace m) = rev (registered (trace m)).

(** [newContractManager] fails, with [cause] as the underlying failure. *)
Definition failsWith (deps : dependencies) (ps : persistence) (dir : string)
    (cause : string) : Prop :=
  (newContractManager deps ps dir).1.1 = None /\
  includes (newContractManager deps ps dir).1.2 cause /\
  shutdownComplete (newContractManager deps ps dir).2.

(** The events of startup. *)
Definition startupTrace (deps : dependencies) (ps : persistence)
    (dir : string) : list event :=
  trace (newContractManager deps ps dir).2.

(** Events of a closing storage folder. *)
Definition fileEvent (e : event) : Prop :=
  match e with
  | EvCloseFile _ | EvLogPrintln _ _ => True
  | _ => False
  end.

(** Events inside a closure other than [dependencies.destruct]. *)
Definition innerEvent (e : event) : Prop :=
  match e with
  | EvCloseFile _ | EvLogPrintln _ _ | EvWalLock | EvWalUnlock
  | EvLogClose => True
  | _ => False
  end.

(** What is known of the events of a [stop()] that finds
    [dependencies.destruct] registered first and [rest] after it. *)
Definition stopEvents (c : ContractManager) (rest : list afterStopFn)
    (evs : list event) : Prop :=
  ran evs = rev rest /\ registered evs = [] /\
  Forall (fun e => startupStep e = false) evs /\
  ~ In EvDestruct evs /\
  (In fnCloseLogger rest -> In EvLogClose evs) /\
  (In fnUnloadFiles rest ->
   forall fid sf, storageFolders c !! fid = Some sf ->
     In (EvCloseFile (metadataFile sf)) evs /\
     In (EvCloseFile (sectorFile sf)) evs).

(** *** The public operations

    The operations of the manager other than [Close] are defined in files
    that are not among the sources; they are written here from sections
    3, 4.3, 4.4 and 4.6 of the specification. *)

Section Facade.

(** The size of a sector, the keyed hash that makes a sector id from the
    salt and a Merkle root, the hash of an id used for placement, the
    granularity of folder capacities and the free space of the device
    behind a path. *)
Variable sectorSize : nat.
Variable managedSectorID : Hash -> Hash -> sectorID.
Variable slotHash : sectorID -> nat.
Variable granularity : nat.
Variable deviceSpace : string -> nat.

(** The Merkle root of a payload, which the caller of [addSector] hands
    over with it. *)
Variable merkleRoot : list Byte.byte -> Hash.

Definition capacity (sf : storageFolder) : nat := length (usage sf).

Definition freeSlots (sf : storageFolder) : nat :=
  length (List.filter negb (usage sf)).

(** Modelled from the spec: writing and reading a sector file at an
    offset.  A write past the end extends the file with zero bytes, and
    a read that would run past the end is a disk error ([None]). *)
Definition writeAt (file : list Byte.byte) (off : nat)
    (data : list Byte.byte) : list Byte.byte :=
  take off file ++ replicate (off - length file) Byte.x00 ++ data
    ++ drop (off + length data) file.

Definition readAt (file : list Byte.byte) (off n : nat)
    : option (list Byte.byte) :=
  if decide (off + n <= length file)%nat
  then Some (take n (drop off file))
  else None.

Definition with_sectors (sf : storageFolder) (bytes : list Byte.byte)
    : storageFolder :=
  {| path := path sf; usage := usage sf; sectors := bytes;
     available := available sf; metadataFile := metadataFile sf;
     sectorFile := sectorFile sf |}.

Definition with_usage (sf : storageFolder) (u : list bool) : storageFolder :=
  {| path := path sf; usage := u; sectors := sectors sf;
     available := available sf; metadataFile := metadataFile sf;
     sectorFile := sectorFile sf |}.

(** Modelled from the spec: "write payload at slot offset" (section 2). *)
Definition writeSlot (sf : storageFolder) (slot : nat)
    (data : list Byte.byte) : storageFolder :=
  with_sectors sf (writeAt (sectors sf) (slot * sectorSize) data).

(** Modelled from the spec: the probe of section 4.3, "starting at
    hash(id) mod capacity, linear-probing over the usage bitmap until an
    unset bit is found", at most one turn around the bitmap. *)
Fixpoint probe (u : list bool) (start steps : nat) : option nat :=
  match steps with
  | O => None
  | S k =>
      let i := (start mod length u)%nat in
      match u !! i with
      | Some false => Some i
      | _ => probe u (S start) k
      end
  end.

Definition findSlot (sf : storageFolder) (id : sectorID) : option nat :=
  if decide (capacity sf = 0)%nat then None
  else probe (usage sf) (slotHash id mod capacity sf)%nat (capacity sf).

(** Modelled from the spec: the folder choice of section 4.3, "weighted
    by each folder's free-slot count", never a folder with zero free
    slots; folders that are unavailable are skipped (section 7).
    [except] leaves out the folder that is being emptied. *)
Definition candidates (cm : ContractManager) (except : option Z)
    : list (Z * storageFolder) :=
  List.filter
    (fun p : Z * storageFolder =>
       available p.2 && (0 <? freeSlots p.2)%nat
       && negb (bool_decide (except = Some p.1)))
    (map_to_list (storageFolders cm)).

Fixpoint pick (r : nat) (cands : list (Z * storageFolder))
    : option (Z * storageFolder) :=
  match cands with
  | [] => None
  | c :: rest =>
      if (r <? freeSlots c.2)%nat then Some c
      else pick (r - freeSlots c.2) rest
  end.

Definition chooseFolder (cm : ContractManager) (except : option Z)
    (id : sectorID) : option (Z * storageFolder) :=
  let cands := candidates cm except in
  let total := list_sum (map (fun c => freeSlots c.2) cands) in
  if decide (total = 0)%nat then None
  else pick (slotHash id mod total)%nat cands.

(** Place a sector that has no slot yet: choose the folder, probe for
    the slot, write the payload, mark the slot and update the index. *)
Definition place (cm : ContractManager) (except : option Z) (id : sectorID)
    (refs : Z) (data : list Byte.byte) : option ContractManager :=
  match chooseFolder cm except id with
  | None => None
  | Some (fid, sf) =>
      match findSlot sf id with
      | None => None
      | Some slot =>
          let sf' := with_usage (writeSlot sf slot data)
                                (<[slot := true]> (usage sf)) in
          Some (with_sectorLocations
                  (with_storageFolders cm (<[fid := sf']> (storageFolders cm)))
                  (<[id := {| folderID := fid; index := slot; count := refs |}]>
                     (sectorLocations cm)))
      end
  end.

(** Modelled from the spec: [addSector(root, data)] of section 4.6.  The
    payload must equal [sectorSize]; a stopped thread group gives
    "stopped" without touching state; content that is already stored
    keeps its one physical slot and gains a reference (section 3,
    scenario S4): the slot is left as it is, a sector being immutable
    (glossary), and only the count of the index entry changes; a folder
    that is unavailable is skipped by writes (section 7), so a sector
    whose folder cannot be written is placed anew, the payload written at
    the slot offset before the index is updated (the write data flow of
    section 2). *)
Definition addSector (cm : ContractManager) (root : Hash)
    (data : list Byte.byte) : (string + sectorID) * ContractManager :=
  if stopped (tg cm) then (inl "stopped", cm)
  else if decide (length data = sectorSize) then
    let id := managedSectorID (sectorSalt cm) root in
    let fresh (refs : Z) :=
      match place cm None id refs data with
      | Some cm' => (inr id, cm')
      | None => (inl "storage full", cm)
      end in
    match sectorLocations cm !! id with
    | Some loc =>
        match storageFolders cm !! folderID loc with
        | Some sf =>
            if available sf then
              (inr id,
               with_sectorLocations cm
                 (<[id := {| folderID := folderID loc; index := index loc;
                             count := count loc + 1 |}]>
                    (sectorLocations cm)))
            else fresh (count loc + 1)
        | None => fresh (count loc + 1)
        end
    | None => fresh 1
    end
  else (inl "size mismatch", cm).

(** Modelled from the spec: [readSector(id)] of section 4.6: index
    lookup, then a read at the slot offset of the folder. *)
Definition readSector (cm : ContractManager) (id : sectorID)
    : string + list Byte.byte :=
  if stopped (tg cm) then inl "stopped"
  else
    match sectorLocations cm !! id with
    | None => inl "unknown sector"
    | Some loc =>
        match storageFolders cm !! folderID loc with
        | Some sf =>
            if available sf then
              match readAt (sectors sf) (index loc * sectorSize) sectorSize with
              | Some data => inr data
              | None => inl "disk error"
              end
            else inl "disk error"
        | None => inl "disk error"
        end
    end.

(** No payload other than [data] is stored under [id]: when [id] is in
    the index and its folder is there and available, the slot of the
    entry holds [data]. *)
Definition noOtherPayload (cm : ContractManager) (id : sectorID)
    (data : list Byte.byte) : Prop :=
  forall loc sf,
    sectorLocations cm !! id = Some loc ->
    storageFolders cm !! folderID loc = Some sf ->
    available sf = true ->
    readAt (sectors sf) (index loc * sectorSize) sectorSize = Some data.

(** The index is content-addressed (section 3): the folder of every
    entry exists, its slot is marked in use and holds a payload of
    [sectorSize] bytes, and the key of the entry is the salted hash of
    the Merkle root of that payload. *)
Definition contentAddressed (cm : ContractManager) : Prop :=
  forall id loc,
    sectorLocations cm !! id = Some loc ->
    exists sf data0,
      storageFolders cm !! folderID loc = Some sf /\
      usage sf !! index loc = Some true /\
      length data0 = sectorSize /\
      id = managedSectorID (sectorSalt cm) (merkleRoot data0) /\
      readAt (sectors sf) (index loc * sectorSize) sectorSize = Some data0.

(** No other payload of [sectorSize] bytes has the sector id of [data]
    under [salt]. *)
Definition collisionFree (salt : Hash) (data : list Byte.byte) : Prop :=
  forall data0,
    length data0 = sectorSize ->
    managedSectorID salt (merkleRoot data0)
      = managedSectorID salt (merkleRoot data) ->
    data0 = data.

(** Modelled from the spec: [addSectorBatch(items)], "per-item success". *)
Definition addSectorBatch (cm : ContractManager)
    (items : list (Hash * list Byte.byte))
    : list (string + sectorID) * ContractManager :=
  fold_left
    (fun (acc : list (string + sectorID) * ContractManager) item =>
       let '(res, cm') := addSector acc.2 item.1 item.2 in
       (acc.1 ++ [res], cm'))
    items ([], cm).

(** Modelled from the spec: [removeSector(id)]: "dec ref; frees slot only
    when count hits zero" (section 3). *)
Definition removeSector (cm : ContractManager) (id : sectorID)
    : option string * ContractManager :=
  if stopped (tg cm) then (Some "stopped", cm)
  else
    match sectorLocations cm !! id with
    | None => (Some "unknown sector", cm)
    | Some loc =>
        if decide (1 < count loc) then
          (None,
           with_sectorLocations cm
             (<[id := {| folderID := folderID loc; index := index loc;
                         count := count loc - 1 |}]> (sectorLocations cm)))
        else
          (None,
           with_sectorLocations
             (with_storageFolders cm
                (alter (fun sf => with_usage sf (<[index loc := false]> (usage sf)))
                       (folderID loc) (storageFolders cm)))
             (delete id (sectorLocations cm)))
    end.

(** The least folder id that is not in use. *)
Definition newFolderID (cm : ContractManager) : option Z :=
  List.find (fun i : Z => bool_decide (storageFolders cm !! i = None))
            (map Z.of_nat (seq 0 (Z.to_nat 65536))).

(** Modelled from the spec: [addStorageFolder(path, capacity)]: both
    files are written and marked all-free (section 3). *)
Definition addStorageFolder (cm : ContractManager) (dir : string)
    (cap : nat) : option string * ContractManager :=
  if stopped (tg cm) then (Some "stopped", cm)
  else if existsb (fun p : Z * storageFolder => String.eqb (path p.2) dir)
                  (map_to_list (storageFolders cm))
  then (Some "path in use", cm)
  else if negb (cap mod granularity =? 0)%nat
  then (Some "capacity not aligned", cm)
  else if (deviceSpace dir <? cap * sectorSize)%nat
  then (Some "insufficient space on device", cm)
  else
    match newFolderID cm with
    | None => (Some "insufficient space on device", cm)
    | Some fid =>
        (None,
         with_storageFolders cm
           (<[fid := {| path := dir;
                        usage := replicate cap false;
                        sectors := replicate (cap * sectorSize) Byte.x00;
                        available := true;
                        metadataFile := Z.to_N (2 * fid);
                        sectorFile := Z.to_N (2 * fid + 1) |}]>
              (storageFolders cm)))
    end.

(** Modelled from the spec: the evacuation of section 4.3.  Every sector
    of folder [fid] at a slot from [newCap] on is read and placed into
    another folder, keeping its reference count; [None] when a sector
    cannot be read or has no destination. *)
Definition evacuate (cm : ContractManager) (fid : Z) (newCap : nat)
    : option ContractManager :=
  fold_left
    (fun (acc : option ContractManager) (e : sectorID * sectorLocation) =>
       match acc with
       | None => None
       | Some cm' =>
           if bool_decide (folderID e.2 = fid) && (newCap <=? index e.2)%nat
           then
             match storageFolders cm' !! fid with
             | Some sf =>
                 match readAt (sectors sf) (index e.2 * sectorSize) sectorSize with
                 | Some data => place cm' (Some fid) e.1 (count e.2) data
                 | None => None
                 end
             | None => None
             end
           else Some cm'
       end)
    (map_to_list (sectorLocations cm)) (Some cm).

(** Modelled from the spec: [resizeStorageFolder(id, newCap)]: growing
    appends zero bytes to the sector file and extends the bitmap;
    shrinking evacuates the departing region first and changes nothing
    when that fails. *)
Definition resizeStorageFolder (cm : ContractManager) (fid : Z)
    (newCap : nat) : option string * ContractManager :=
  if stopped (tg cm) then (Some "stopped", cm)
  else
    match storageFolders cm !! fid with
    | None => (Some "unknown folder", cm)
    | Some sf =>
        if (capacity sf <=? newCap)%nat then
          (None,
           with_storageFolders cm
             (<[fid := with_usage
                         (with_sectors sf
                            (sectors sf ++
                             replicate ((newCap - capacity sf) * sectorSize) Byte.x00))
                         (usage sf ++ replicate (newCap - capacity sf) false)]>
                (storageFolders cm)))
        else
          match evacuate cm fid newCap with
          | None => (Some "shrink impossible", cm)
          | Some cm' =>
              (None,
               with_storageFolders cm'
                 (alter (fun sf => with_usage
                                     (with_sectors sf (take (newCap * sectorSize) (sectors sf)))
                                     (take newCap (usage sf)))
                        fid (storageFolders cm')))
          end
    end.

(** Modelled from the spec: [removeStorageFolder(id, force)]: the folder
    goes once its sectors have been evacuated; with [force] it goes
    even when they cannot be, and their index entries with it. *)
Definition removeStorageFolder (cm : ContractManager) (fid : Z)
    (force : bool) : option string * ContractManager :=
  if stopped (tg cm) then (Some "stopped", cm)
  else
    match storageFolders cm !! fid with
    | None => (Some "unknown folder", cm)
    | Some _ =>
        match evacuate cm fid 0 with
        | Some cm' =>
            (None, with_storageFolders cm' (delete fid (storageFolders cm')))
        | None =>
            if force then
              (None,
               with_sectorLocations
                 (with_storageFolders cm (delete fid (storageFolders cm)))
                 (filter (fun e : sectorID * sectorLocation => folderID e.2 <> fid)
                         (sectorLocations cm)))
            else (Some "shrink impossible", cm)
        end
    end.

(** Modelled from the spec: [storageFolders()]: a snapshot with usage
    statistics: id, capacity and slots in use. *)
Definition storageFolders_snapshot (cm : ContractManager)
    : list (Z * nat * nat) :=
  map (fun p : Z * storageFolder =>
         (p.1, capacity p.2, (capacity p.2 - freeSlots p.2)%nat))
      (map_to_list (storageFolders cm)).

(** A call of a public operation of the running manager. *)
Inductive operation : Type :=
| OpAddSector (root : Hash) (data : list Byte.byte)
| OpAddSectorBatch (items : list (Hash * list Byte.byte))
| OpRemoveSector (id : sectorID)
| OpReadSector (id : sectorID)
| OpAddStorageFolder (dir : string) (cap : nat)
| OpResizeStorageFolder (fid : Z) (newCap : nat)
| OpRemoveStorageFolder (fid : Z) (force : bool)
| OpStorageFolders
| OpClose.

(** The machine after one operation; [Close] is the one of the source. *)
Definition perform (ps : persistence) (m : machine) (op : operation)
    : machine :=
  match op with
  | OpAddSector root data => set_cm m (addSector (cm m) root data).2
  | OpAddSectorBatch items => set_cm m (addSectorBatch (cm m) items).2
  | OpRemoveSector id => set_cm m (removeSector (cm m) id).2
  | OpReadSector _ => m
  | OpAddStorageFolder dir cap => set_cm m (addStorageFolder (cm m) dir cap).2
  | OpResizeStorageFolder fid newCap =>
      set_cm m (resizeStorageFolder (cm m) fid newCap).2
  | OpRemoveStorageFolder fid force =>
      set_cm m (removeStorageFolder (cm m) fid force).2
  | OpStorageFolders => m
  | OpClose => (Close ps m).2
  end.

End Facade.

End ContractManager.

(** ** Concrete inputs used by the examples below *)
Module Examples.

Import Renter.

Definition someSettings : HostSettings :=
  {| IPAddress := "host:9982"; Price := 3%N; WindowSize := 10;
     hostUnlockHash := 77%N |}.

Definition someTransaction : Transaction :=
  {| SiacoinInputs := [5%N]; FileContracts := [];
     FileContractRevisions := [11%N]; TransactionSignatures := [12%N] |}.

Definition someUploader : hostUploader :=
  {| settings := someSettings;
     unlockConditions := {| PublicKeys := []; SignaturesRequired := 0 |};
     secretKey := 0%N;
     contract := {| ID := 0%N; IP := ""; contractWindowStart := 0 |};
     lastTxn := someTransaction |}.

Definition someRenter : Renter :=
  {| blockHeight := 100; entropy := 9%N; contracts := ∅ |}.

(** A transaction builder that starts from a transaction already holding
    a file contract, so that the contract added next sits at index 1. *)
Definition earlierContract : FileContract :=
  {| FileSize := 1; FileMerkleRoot := 1%N; WindowStart := 1; WindowEnd := 2;
     Payout := 1%N; ValidProofOutputs := []; MissedProofOutputs := [];
     fcUnlockHash := 1%N; RevisionNumber := 1 |}.

Definition busyStart : Transaction :=
  {| SiacoinInputs := []; FileContracts := [earlierContract];
     FileContractRevisions := []; TransactionSignatures := [] |}.

Definition busyFund (b : Transaction) (c : Currency) : error * Transaction :=
  (None, {| SiacoinInputs := SiacoinInputs b ++ [c];
            FileContracts := FileContracts b;
            FileContractRevisions := FileContractRevisions b;
            TransactionSignatures := TransactionSignatures b |}).

Definition busyAdd (b : Transaction) (fc : FileContract) : Transaction :=
  {| SiacoinInputs := SiacoinInputs b;
     FileContracts := FileContracts b ++ [fc];
     FileContractRevisions := FileContractRevisions b;
     TransactionSignatures := TransactionSignatures b |}.

Definition busyView (b : Transaction) : Transaction * list Transaction :=
  (b, []).

Definition busySign (b : Transaction) (_ : bool) : string + list Transaction :=
  inr [b].

(** Stand-ins for the hash functions: enough to tell the ids apart. *)
Definition countID (t : Transaction) : Hash :=
  N.of_nat (length (FileContracts t)).

Definition indexID (t : Transaction) (i : Z) : Hash :=
  (1000 * N.of_nat (length (FileContracts t)) + Z.to_N i)%N.

Definition hostKey : SiaPublicKey := {| Algorithm := "ed25519"; Key := 42%N |}.

(** The contract the renter proposes against these stand-ins. *)
Definition proposed : FileContract :=
  newFileContract (fun h _ => h) (fun h => (h, (h + 1)%N))
    (fun _ => 8%N) (fun _ c => (c / 25)%N) (fun c => c) N.sub
    someUploader someRenter 2 5 33%N hostKey.

(** A host that plays the protocol to the end. *)
Definition agreeingHost : world :=
  {| dial := None;
     writeObject := fun _ => None;
     connClose := None;
     readHostPublicKey := inr hostKey;
     readResponse := inr AcceptResponse;
     readHostTxnSet := inr [busyAdd (busyFund busyStart (Payout proposed)).2 proposed];
     readSignedHostTxnSet := inr [busyAdd (busyFund busyStart (Payout proposed)).2 proposed];
     AcceptTransactionSet := fun _ => None |}.

(** A connection on which nothing fails, in front of a transaction pool
    that answers [answer] to every submission. *)
Definition poolAnswering (answer : error) : world :=
  {| dial := None;
     writeObject := fun _ => None;
     connClose := None;
     readHostPublicKey := inl "EOF";
     readResponse := inl "EOF";
     readHostTxnSet := inl "EOF";
     readSignedHostTxnSet := inl "EOF";
     AcceptTransactionSet := fun _ => answer |}.

(** The negotiation of [someUploader] with [agreeingHost] through the
    builder above. *)
Definition busyRun : error * state :=
  runNegotiateContract (fun h _ => h) (fun h => (h, (h + 1)%N))
    (fun _ => 8%N) (fun _ c => (c / 25)%N) (fun c => c) N.sub
    countID indexID Transaction busyStart busyFund busyAdd busyView busySign
    agreeingHost someUploader someRenter 2 5 33%N.

(** A manager with one storage folder of four slots of two bytes, the first
    slot taken, and the stand-ins for its hash functions. *)
Definition idOf (salt root : Hash) : ContractManager.sectorID :=
  ((salt + root) mod 2 ^ 96)%N.

Definition smallFolder : ContractManager.storageFolder :=
  {| ContractManager.path := "/mnt/a";
     ContractManager.usage := [true; false; false; false];
     ContractManager.sectors := replicate 8 Byte.x00;
     ContractManager.available := true;
     ContractManager.metadataFile := 0%N;
     ContractManager.sectorFile := 1%N |}.

Definition smallManager : ContractManager.ContractManager :=
  {| ContractManager.sectorSalt := 11%N;
     ContractManager.sectorLocations := ∅;
     ContractManager.storageFolders := {[ 0 := smallFolder ]};
     ContractManager.lockedSectors := ∅;
     ContractManager.log := Some "dir/contractmanager.log";
     ContractManager.persistDir := "dir";
     ContractManager.tg :=
       {| ContractManager.stopped := false;
          ContractManager.afterStopFns :=
            [ContractManager.fnDestruct; ContractManager.fnCloseLogger;
             ContractManager.fnUnloadFiles] |} |}.

Definition payload : list Byte.byte := [Byte.x2a; Byte.x07].

(** [smallManager] after [payload] was added under the root 5, and
    another payload of the same size. *)
Definition onceAdded : ContractManager.ContractManager :=
  (ContractManager.addSector 2 idOf N.to_nat smallManager 5%N payload).2.

Definition otherPayload : list Byte.byte := [Byte.x07; Byte.x2a].

(** Dependencies under which nothing fails, and a persist directory whose
    WAL cannot be loaded. *)
Definition quietDependencies : ContractManager.dependencies :=
  {| ContractManager.mkdirAll := fun _ _ => None;
     ContractManager.newLogger := fun _ => None;
     ContractManager.disrupt := fun _ => false |}.

Definition brokenWal : ContractManager.persistence :=
  {| ContractManager.loadSettings := (None, 11%N, {[ 0 := smallFolder ]});
     ContractManager.wal_load := fun sfs => (Some "checksum mismatch", sfs);
     ContractManager.loadSectorLocations := fun _ => ∅;
     ContractManager.wal_spawnSyncLoop := None;
     ContractManager.log_Close := None;
     ContractManager.file_Close := fun _ => None |}.

Definition soundDisk : ContractManager.persistence :=
  {| ContractManager.loadSettings := (None, 11%N, {[ 0 := smallFolder ]});
     ContractManager.wal_load := fun sfs => (None, sfs);
     ContractManager.loadSectorLocations := fun _ => ∅;
     ContractManager.wal_spawnSyncLoop := None;
     ContractManager.log_Close := None;
     ContractManager.file_Close := fun _ => None |}.

(** A chain in which the key of seed index 3 receives 50 and the key of
    index 700 receives exactly the dust threshold. *)
Definition someChange : Wallet.ConsensusChange :=
  {| Wallet.SiacoinOutputDiffs :=
       [ {| Wallet.Direction := Wallet.DiffApply; Wallet.ID := 900%N;
            Wallet.SiacoinOutput_ :=
              {| Wallet.Value := 50%N; Wallet.UnlockHash := 3%N |} |};
         {| Wallet.Direction := Wallet.DiffApply; Wallet.ID := 901%N;
            Wallet.SiacoinOutput_ :=
              {| Wallet.Value := 10%N; Wallet.UnlockHash := 700%N |} |} ];
     Wallet.SiafundOutputDiffs := [] |}.

(** A scanner of seed 7 that already holds the first 99999 keys, the key
    of index [i] hashed to [i] itself: one key short of the [maxScanKeys]
    of the testing build. *)
Definition almostFull : Wallet.seedScanner :=
  Wallet.seedScanner_generateKeys (fun _ i => Z.to_N i)
    (Wallet.newSeedScanner 7%N) 99999.

Definition dustyScanner : Wallet.seedScanner :=
  {| Wallet.dustThreshold := 10%N; Wallet.keys := ∅;
     Wallet.largestIndexSeen := 0; Wallet.seed := 7%N;
     Wallet.siacoinOutputs := ∅ |}.

(** A scanner that knows the key of seed index 3 only. *)
Definition oneKeyScanner : Wallet.seedScanner :=
  {| Wallet.dustThreshold := 10%N; Wallet.keys := {[ 3%N := 3 ]};
     Wallet.largestIndexSeen := 0; Wallet.seed := 7%N;
     Wallet.siacoinOutputs := ∅ |}.

End Examples.

(** ** Further notions about the seed scanner *)
Module ScanNotions.

Import Wallet.

(** The keys that [j] passes of [scan]'s loop can add when the first batch
    is [n] and every batch is four times the one before:
    [n + 4n + ... + 4^(j-1) n]. *)
Fixpoint cover (n : Z) (j : nat) : Z :=
  match j with
  | O => 0
  | S j' => n + cover (4 * n) j'
  end.

(** Every recorded output is filed under its own id, is worth more than
    the dust threshold, and carries the seed index of one of the keys. *)
Definition outputs_wf (s : seedScanner) : Prop :=
  forall oid o, siacoinOutputs s !! oid = Some o ->
    id o = oid /\ (dustThreshold s < value o)%N /\
    exists h, keys s !! h = Some (seedIndex o).

(** The passes of a run follow one another: each starts from the scanner
    the one before left, the first from [s] and the last leaves [s']. *)
Fixpoint chained (s : seedScanner) (its : list iteration) (s' : seedScanner)
    : Prop :=
  match its with
  | [] => s' = s
  | it :: rest => before it = s /\ chained (after it) rest s'
  end.

End ScanNotions.

(** ** A scan on concrete inputs *)
Module ScanExamples.

Import Wallet.

(** The scan of an empty chain by a new scanner of the testing build, the
    key of index [i] hashed to [i] itself. *)
Definition testingScan
    : option (option scanError * seedScanner * list iteration) :=
  scan Build.testing (fun _ i => Z.to_N i) 1 (newSeedScanner 7%N)
    (fun _ => ([], None)).

Definition testingRun : option scanError * seedScanner * list iteration :=
  default (None, newSeedScanner 7%N, []) testingScan.

End ScanExamples.

(** ** Further notions about the negotiation *)
Module NegotiateNotions.

Import Renter.

(** The world [w] in front of a transaction pool that answers as [pool]. *)
Definition with_pool (w : world) (pool : list Transaction -> error) : world :=
  {| dial := dial w;
     writeObject := writeObject w;
     connClose := connClose w;
     readHostPublicKey := readHostPublicKey w;
     readResponse := readResponse w;
     readHostTxnSet := readHostTxnSet w;
     readSignedHostTxnSet := readSignedHostTxnSet w;
     AcceptTransactionSet := pool |}.

(** A pool that takes what [pool] refuses as a duplicate. *)
Definition forgiving (pool : list Transaction -> error)
    : list Transaction -> error :=
  fun ts => if decide (pool ts = Some ErrDuplicateTransactionSet)
            then None else pool ts.

(** The writes of a set of transactions: the proposed contract and, later,
    the signed one. *)
Definition isProposal (e : event) : bool :=
  match e with
  | EvWriteObject (ObjTransactionSet _) => true
  | _ => false
  end.

(** A host that reads everything and refuses the proposed contract. *)
Definition refusingHost : world :=
  {| dial := None;
     writeObject := fun _ => None;
     connClose := None;
     readHostPublicKey := inr Examples.hostKey;
     readResponse := inr "price too low";
     readHostTxnSet := inl "EOF";
     readSignedHostTxnSet := inl "EOF";
     AcceptTransactionSet := fun _ => None |}.

(** The negotiation of [Examples.someUploader] with [refusingHost]. *)
Definition refusedRun : error * state :=
  runNegotiateContract (fun h _ => h) (fun h => (h, (h + 1)%N))
    (fun _ => 8%N) (fun _ c => (c / 25)%N) (fun c => c) N.sub
    Examples.countID Examples.indexID Transaction Examples.busyStart
    Examples.busyFund Examples.busyAdd Examples.busyView Examples.busySign
    refusingHost Examples.someUploader Examples.someRenter 2 5 33%N.

End NegotiateNotions.

(** ** modules/renter/negotiate.go: newHostUploader *)
Module Uploader.

Import Renter.

Definition errTooExpensive : string := "host price was too high".
(** The id of the revise RPC, a constant of the [modules] package. *)
Definition RPCRevise : string := "Revise".

(** [types.UnlockHash{}] *)
Definition zeroUnlockHash : Hash := 0%N.

(** What [newHostUploader] writes on the connection it opens for the
    revisions. *)
Inductive reviseObject : Type :=
| RevRPC (rpcID : string)
| RevContractID (id : Hash).

(** The outside world of [newHostUploader] besides the one of the
    negotiation: the wallet's next address, the second dial and the
    writes on the second connection. *)
Record reviseWorld : Type := {
  NextAddress : string + UnlockConditions;
  dialRevise : error;
  writeRevise : reviseObject -> error
}.

(** Effects of [newHostUploader], in the order they happen. *)
Inductive effect : Type :=
| EvNextAddress
| EvNegotiate (evs : list event)
| EvDialRevise
| EvWriteRevise (o : reviseObject).

(** What a call leaves: the result pair of the Go function, the renter
    with its [cachedAddress], and the effects. *)
Record outcome : Type := {
  uploader : option hostUploader;
  err : error;
  renter : Renter;
  cachedAddress : Hash;
  effects : list effect
}.

Section NewHostUploader.

Variable HashAll : Hash -> SiaPublicKey -> Hash.
Variable GenerateDeterministic : Hash -> N * N.
Variable UnlockConditionsHash : UnlockConditions -> Hash.
Variable Tax : Z -> Currency -> Currency.
Variable MulFloat105 : Currency -> Currency.
Variable Sub : Currency -> Currency -> Currency.
Variable TransactionID : Transaction -> Hash.
Variable FileContractID : Transaction -> Z -> Hash.
Variable B : Type.
Variable StartTransaction : B.
Variable FundSiacoins : B -> Currency -> error * B.
Variable AddFileContract : B -> FileContract -> B.
Variable View : B -> Transaction * list Transaction.
Variable Sign : B -> bool -> string + list Transaction.

(** [types.SiacoinPrecision], a constant of a package that is not among
    the sources. *)
Variable SiacoinPrecision : Currency.

(** 500 SC / GB / Month *)
Definition maxPrice : Currency :=
  (SiacoinPrecision / NewCurrency64 4320000000000 * NewCurrency64 500)%N.

(** The uploader as the composite literal builds it: the fields not named
    have their zero values.  ([masterKey] and [tree] are not among the
    fields of the record.) *)
Definition freshUploader (settings : HostSettings) : hostUploader :=
  {| Renter.settings := settings;
     unlockConditions := {| PublicKeys := []; SignaturesRequired := 0 |};
     secretKey := 0%N;
     contract := {| ID := 0%N; IP := EmptyString; contractWindowStart := 0 |};
     lastTxn := emptyTransaction |}.

Definition newHostUploader (w : world) (rw : reviseWorld) (r : Renter)
    (cached : Hash) (settings : HostSettings) (filesize duration : Z)
    : outcome :=
  (* reject hosts that are too expensive *)
  if decide (Wallet.Cmp (Price settings) maxPrice > 0) then
    {| uploader := None; err := Some errTooExpensive; renter := r;
       cachedAddress := cached; effects := [] |}
  else
  let hu := freshUploader settings in
  (* get an address to use for negotiation *)
  let address : string + Hash * list effect :=
    if decide (cached = zeroUnlockHash) then
      match NextAddress rw with
      | inl msg => inl msg
      | inr uc => inr (UnlockConditionsHash uc, [EvNextAddress])
      end
    else inr (cached, []) in
  match address with
  | inl msg =>
      {| uploader := None; err := Some msg; renter := r;
         cachedAddress := cached; effects := [EvNextAddress] |}
  | inr (cached, evs) =>
  let '(res, st) :=
    runNegotiateContract HashAll GenerateDeterministic UnlockConditionsHash
      Tax MulFloat105 Sub TransactionID FileContractID
      B StartTransaction FundSiacoins AddFileContract View Sign
      w hu r filesize duration cached in
  let hu := st_hu st in
  let r := st_renter st in
  let evs := evs ++ [EvNegotiate (st_events st)] in
  match res with
  | Some msg =>
      {| uploader := None; err := Some msg; renter := r;
         cachedAddress := cached; effects := evs |}
  | None =>
  (* if negotiation was sucessful, clear the cached address *)
  let cached := zeroUnlockHash in
  (* initiate the revision loop *)
  let evs := evs ++ [EvDialRevise] in
  match dialRevise rw with
  | Some msg =>
      {| uploader := None; err := Some msg; renter := r;
         cachedAddress := cached; effects := evs |}
  | None =>
  let evs := evs ++ [EvWriteRevise (RevRPC RPCRevise)] in
  match writeRevise rw (RevRPC RPCRevise) with
  | Some msg =>
      {| uploader := None; err := Some msg; renter := r;
         cachedAddress := cached; effects := evs |}
  | None =>
  let evs := evs ++ [EvWriteRevise (RevContractID (ID (contract hu)))] in
  match writeRevise rw (RevContractID (ID (contract hu))) with
  | Some msg =>
      {| uploader := None; err := Some msg; renter := r;
         cachedAddress := cached; effects := evs |}
  | None =>
      {| uploader := Some hu; err := None; renter := r;
         cachedAddress := cached; effects := evs |}
  end end end end end.

End NewHostUploader.

End Uploader.

(** ** A new uploader on concrete inputs *)
Module UploaderExamples.

Import Renter Uploader.

(** A wallet that has an address and a host that can be dialled again. *)
Definition readyWallet : reviseWorld :=
  {| NextAddress := inr {| PublicKeys := []; SignaturesRequired := 1 |};
     dialRevise := None;
     writeRevise := fun _ => None |}.

(** A host that cannot be dialled again. *)
Definition goneHost : reviseWorld :=
  {| NextAddress := inr {| PublicKeys := []; SignaturesRequired := 1 |};
     dialRevise := Some "connection refused";
     writeRevise := fun _ => None |}.

(** [newHostUploader] for [Examples.someSettings], with no address
    cached, in front of [Examples.agreeingHost]. *)
Definition newUploaderWith (rw : reviseWorld) : outcome :=
  newHostUploader (fun h _ => h) (fun h => (h, (h + 1)%N))
    (fun _ => 8%N) (fun _ c => (c / 25)%N) (fun c => c) N.sub
    Examples.countID Examples.indexID Transaction Examples.busyStart
    Examples.busyFund Examples.busyAdd Examples.busyView Examples.busySign
    (10 ^ 24)%N
    Examples.agreeingHost rw Examples.someRenter zeroUnlockHash
    Examples.someSettings 2 5.

End UploaderExamples.

(** ** Further notions about the startup of the contract manager *)
Module StartupNotions.

Import ContractManager.

(** The files of [ps] with other answers to the closing of the logger and
    of the file handles. *)
Definition with_cleanup (ps : persistence) (logClose : error)
    (fileClose : N -> error) : persistence :=
  {| loadSettings := loadSettings ps;
     wal_load := wal_load ps;
     loadSectorLocations := loadSectorLocations ps;
     wal_spawnSyncLoop := wal_spawnSyncLoop ps;
     log_Close := logClose;
     file_Close := fileClose |}.

(** Every stage of startup succeeds. *)
Definition allStagesSucceed (deps : dependencies) (ps : persistence)
    (dir : string) : Prop :=
  mkdirAll deps dir 448 = None /\
  newLogger deps (filepath_Join dir logFile) = None /\
  (loadSettings ps).1.1 = None /\
  (wal_load ps (loadSettings ps).2).1 = None /\
  wal_spawnSyncLoop ps = None /\
  disrupt deps "erroredStartup" = false.

(** Events of the logger and of the file handles. *)
Definition logEvent (e : event) : bool :=
  match e with
  | EvLogPrintln _ _ | EvLogClose => true
  | _ => false
  end.

Definition handleEvent (e : event) : bool :=
  match e with
  | EvCloseFile _ | EvWalLock | EvWalUnlock => true
  | _ => false
  end.

End StartupNotions.

(** ** modules/renter/negotiate.go: addPiece and revise *)
Module Revision.

Definition Currency : Type := N.
Definition error : Type := option string.

(** [types.NewCurrency64] of a [uint64]. *)
Definition NewCurrency64 (x : Z) : Currency := Z.to_N (u64 x).

(** A Go slice is a reference to an array: the copy of a file contract
    that [addPiece] reads from the renter, the copy [revise] receives and
    the revision built from it all share the arrays of outputs of the
    contract on file.  [store] holds these arrays and a [slice] names one
    of them.  (Every slice of this file covers its whole array.) *)
Definition slice : Type := nat.
Definition store : Type := gmap nat (list Renter.SiacoinOutput).

(** [types.FileContract] *)
Record FileContract : Type := {
  FileSize : Z;
  FileMerkleRoot : Hash;
  WindowStart : Z;
  WindowEnd : Z;
  Payout : Currency;
  ValidProofOutputs : slice;
  MissedProofOutputs : slice;
  UnlockHash : Hash;
  RevisionNumber : Z
}.

(** [types.FileContractRevision], as it is encoded: with the outputs its
    slices show at that moment. *)
Record FileContractRevision : Type := {
  ParentID : Hash;
  UnlockConditions : Renter.UnlockConditions;
  NewRevisionNumber : Z;
  NewFileSize : Z;
  NewFileMerkleRoot : Hash;
  NewWindowStart : Z;
  NewWindowEnd : Z;
  NewValidProofOutputs : list Renter.SiacoinOutput;
  NewMissedProofOutputs : list Renter.SiacoinOutput;
  NewUnlockHash : Hash
}.

(** [types.TransactionSignature]; [CoveredFields] by the indices of the
    revisions it covers. *)
Record TransactionSignature : Type := {
  sigParentID : Hash;
  CoveredFields : list Z;
  PublicKeyIndex : Z;
  Signature : N
}.

(** The fields of [types.Transaction] that [revise] sets. *)
Record Transaction : Type := {
  FileContractRevisions : list FileContractRevision;
  TransactionSignatures : list TransactionSignature
}.

Record pieceData : Type := {
  Chunk : Z;
  Piece : Z;
  Offset : Z
}.

Record uploadPiece : Type := {
  data : list Byte.byte;
  chunkIndex : Z;
  pieceIndex : Z
}.

(** The uploader's [fileContract], with its pieces. *)
Record fileContract : Type := {
  ID : Hash;
  IP : string;
  contractWindowStart : Z;
  Pieces : list pieceData
}.

(** The fields of the renter that [addPiece] reads and writes. *)
Record Renter : Type := {
  blockHeight : Z;
  contracts : gmap Hash FileContract
}.

(** The deadline of the connection. *)
Inductive deadline : Type :=
| FiveMinutes
| NoDeadline.

(** Effects, in the order they happen. *)
Inductive event : Type :=
| EvSetDeadline (d : deadline)
| EvWriteObject (t : Transaction)
| EvWrite (piece : list Byte.byte)
| EvSave.

(** The host at the other end of the uploader's connection, by what each
    read returns and whether each write fails. *)
Record world : Type := {
  writeObject : Transaction -> error;
  readResponse : string + string;
  connWrite : list Byte.byte -> error;
  readSignedHostTxn : string + Transaction
}.

Section Revise.

(** [crypto.MerkleTree], by its state [T], and the other functions of the
    [crypto] and [types] packages that are called here; none of them is
    among the sources.  [Sub] stands for [Currency.Sub], which panics
    rather than return a negative currency: [None] is the panic. *)
Variable T : Type.
Variable ReadSegments : T -> list Byte.byte -> error * T.
Variable Root : T -> Hash.
Variable Sub : Currency -> Currency -> option Currency.
Variable SigHash : Transaction -> Z -> Hash.
Variable SignHash : Hash -> N -> string + N.
Variable TransactionID : Transaction -> Hash.
Variable StandaloneValid : Transaction -> Z -> error.
Variable deriveKey : N -> Z -> Z -> N.
Variable EncryptBytes : N -> list Byte.byte -> string + list Byte.byte.

Record hostUploader : Type := {
  settings : Renter.HostSettings;
  masterKey : N;
  unlockConditions : Renter.UnlockConditions;
  secretKey : N;
  contract : fileContract;
  tree : T;
  lastTxn : Transaction
}.

(** What a call works on: the uploader, the renter it points to, the
    arrays of outputs, and the effects so far. *)
Record state : Type := {
  st_hu : hostUploader;
  st_renter : Renter;
  st_store : store;
  st_events : list event
}.

(** A computation that may panic ([None]) or return early with an
    error. *)
Definition M (A : Type) : Type := state -> option ((string + A) * state).

Definition ret {A : Type} (a : A) : M A := fun st => Some (inr a, st).

Definition fail {A : Type} (msg : string) : M A := fun st => Some (inl msg, st).

Definition panic {A : Type} : M A := fun _ => None.

Definition bind {A B : Type} (m : M A) (k : A -> M B) : M B :=
  fun st =>
    match m st with
    | None => None
    | Some (inl msg, st') => Some (inl msg, st')
    | Some (inr a, st') => k a st'
    end.

Notation "x <- m ;; k" := (bind m (fun x => k))
  (at level 100, m at next level, right associativity).
Notation "m ;;; k" := (bind m (fun _ => k))
  (at level 100, right associativity).

Definition get : M state := fun st => Some (inr st, st).

Definition emit (e : event) : M unit :=
  fun st => Some (inr tt, {| st_hu := st_hu st; st_renter := st_renter st;
                             st_store := st_store st;
                             st_events := st_events st ++ [e] |}).

Definition modify_hu (f : hostUploader -> hostUploader) : M unit :=
  fun st => Some (inr tt, {| st_hu := f (st_hu st); st_renter := st_renter st;
                             st_store := st_store st;
                             st_events := st_events st |}).

Definition modify_renter (f : Renter -> Renter) : M unit :=
  fun st => Some (inr tt, {| st_hu := st_hu st; st_renter := f (st_renter st);
                             st_store := st_store st;
                             st_events := st_events st |}).

(** [if err != nil { return err }] *)
Definition check (err : error) : M unit :=
  match err with
  | Some msg => fail msg
  | None => ret tt
  end.

(** [s[i]]: an index out of range panics. *)
Definition index (s : slice) (i : nat) : M Renter.SiacoinOutput :=
  fun st =>
    match st_store st !! s with
    | Some outputs =>
        match outputs !! i with
        | Some o => Some (inr o, st)
        | None => None
        end
    | None => None
    end.

(** [s[i].Value = v] *)
Definition setValue (s : slice) (i : nat) (v : Currency) : M unit :=
  fun st =>
    match st_store st !! s with
    | Some outputs =>
        match outputs !! i with
        | Some o =>
            Some (inr tt,
                  {| st_hu := st_hu st; st_renter := st_renter st;
                     st_store :=
                       <[s := <[i := {| Renter.Value := v;
                                        Renter.UnlockHash := Renter.UnlockHash o |}]>
                                outputs]> (st_store st);
                     st_events := st_events st |})
        | None => None
        end
    | None => None
    end.

(** [s[i].Value = s[i].Value.Sub(x)] and [s[i].Value = s[i].Value.Add(x)] *)
Definition subValue (s : slice) (i : nat) (x : Currency) : M unit :=
  o <- index s i ;;
  match Sub (Renter.Value o) x with
  | Some v => setValue s i v
  | None => panic
  end.

Definition addValue (s : slice) (i : nat) (x : Currency) : M unit :=
  o <- index s i ;;
  setValue s i (Renter.Value o + x)%N.

(** The outputs a slice shows; a slice is encoded as a whole. *)
Definition outputsOf (s : slice) : M (list Renter.SiacoinOutput) :=
  fun st =>
    match st_store st !! s with
    | Some outputs => Some (inr outputs, st)
    | None => None
    end.

(** Lines 308-309: the price of the piece before the cap. *)
Definition safeDuration (fc : FileContract) (height : Z) : Z :=
  u64 (WindowStart fc - height + 20).

Definition fullPrice (hu : hostUploader) (fc : FileContract)
    (piece : list Byte.byte) (height : Z) : Currency :=
  (NewCurrency64 (Z.of_nat (length piece))
   * NewCurrency64 (safeDuration fc height)
   * Renter.Price (settings hu))%N.

(** Lines 310-314: the cap that prevents a negative currency. *)
Definition cappedPrice (price : Currency) (v0 : Renter.SiacoinOutput)
    : Currency :=
  if decide (Wallet.Cmp price (Renter.Value v0) > 0) then Renter.Value v0
  else price.

(** Lines 321-328 and 335: the transaction holding the revision, with the
    signature [sig]. *)
Definition revisionTxn (hu : hostUploader) (rev : FileContractRevision)
    (sig : N) : Transaction :=
  {| FileContractRevisions := [rev];
     TransactionSignatures :=
       [ {| sigParentID := ID (contract hu);
            CoveredFields := [0];
            PublicKeyIndex := 0;
            Signature := sig |} ] |}.

(** Lines 315-318: transfer value of piece from renter to host, through
    the slices of the revision. *)
Definition transfer (valid missed : slice) (piecePrice : Currency) : M unit :=
  subValue valid 0 piecePrice ;;;   (* less returned to renter *)
  addValue valid 1 piecePrice ;;;   (* more given to host *)
  subValue missed 0 piecePrice ;;;  (* less returned to renter *)
  addValue missed 1 piecePrice.     (* more given to void *)

(** Lines 337-368: the exchange with the host, from the sending of the
    signed transaction on. *)
Definition exchange (w : world) (signedTxn : Transaction)
    (piece : list Byte.byte) (height : Z) : M unit :=
  (* send the transaction *)
  emit (EvWriteObject signedTxn) ;;;
  check (writeObject w signedTxn) ;;;
  (* host sends acceptance *)
  match readResponse w with
  | inl msg => fail msg
  | inr response =>
  if negb (String.eqb response Renter.AcceptResponse) then
    fail ("host rejected revision: " +:+ response)
  else
  (* transfer piece *)
  emit (EvWrite piece) ;;;
  check (connWrite w piece) ;;;
  (* read txn signed by host *)
  match readSignedHostTxn w with
  | inl msg => fail msg
  | inr signedHostTxn =>
  if decide (TransactionID signedHostTxn <> TransactionID signedTxn) then
    fail "host sent bad signed transaction"
  else
  check (StandaloneValid signedHostTxn height) ;;;
  modify_hu (fun hu =>
    {| settings := settings hu; masterKey := masterKey hu;
       unlockConditions := unlockConditions hu; secretKey := secretKey hu;
       contract := contract hu; tree := tree hu;
       lastTxn := signedHostTxn |})
  end end.

(** The revision of [fc] for [piece], with the outputs its slices show. *)
Definition newRevision (hu : hostUploader) (fc : FileContract)
    (piece : list Byte.byte)
    (newValid newMissed : list Renter.SiacoinOutput) : FileContractRevision :=
  {| ParentID := ID (contract hu);
     UnlockConditions := unlockConditions hu;
     NewRevisionNumber := u64 (RevisionNumber fc + 1);
     NewFileSize := u64 (FileSize fc + Z.of_nat (length piece));
     NewFileMerkleRoot := Root (tree hu);
     NewWindowStart := WindowStart fc;
     NewWindowEnd := WindowEnd fc;
     NewValidProofOutputs := newValid;
     NewMissedProofOutputs := newMissed;
     NewUnlockHash := UnlockHash fc |}.

(** The body of [revise], between the setting of the deadline and its
    deferred reset. *)
Definition reviseBody (w : world) (fc : FileContract)
    (piece : list Byte.byte) (height : Z) : M unit :=
  (* calculate new merkle root *)
  st <- get ;;
  let read := ReadSegments (tree (st_hu st)) piece in
  modify_hu (fun hu =>
    {| settings := settings hu; masterKey := masterKey hu;
       unlockConditions := unlockConditions hu; secretKey := secretKey hu;
       contract := contract hu; tree := read.2; lastTxn := lastTxn hu |}) ;;;
  check read.1 ;;;
  st <- get ;;
  let hu := st_hu st in
  (* create revision: its slices are those of fc *)
  let valid := ValidProofOutputs fc in
  let missed := MissedProofOutputs fc in
  (* transfer value of piece from renter to host *)
  v0 <- index valid 0 ;;
  let piecePrice := cappedPrice (fullPrice hu fc piece height) v0 in
  transfer valid missed piecePrice ;;;
  (* create transaction containing the revision *)
  newValid <- outputsOf valid ;;
  newMissed <- outputsOf missed ;;
  let rev := newRevision hu fc piece newValid newMissed in
  (* sign the transaction *)
  match SignHash (SigHash (revisionTxn hu rev 0%N) 0) (secretKey hu) with
  | inl msg => fail msg
  | inr encodedSig =>
      exchange w (revisionTxn hu rev encodedSig) piece height
  end.

(** [revise]: the deadline is set first and the deferred call resets it
    on every return. *)
Definition revise (w : world) (fc : FileContract) (piece : list Byte.byte)
    (height : Z) : state -> option (error * state) :=
  fun st =>
    match (emit (EvSetDeadline FiveMinutes) ;;;
           reviseBody w fc piece height) st with
    | None => None
    | Some (res, st) =>
        Some (match res with inl msg => Some msg | inr _ => None end,
              {| st_hu := st_hu st; st_renter := st_renter st;
                 st_store := st_store st;
                 st_events := st_events st ++ [EvSetDeadline NoDeadline] |})
    end.

(** [addPiece]; the revision lock and the renter's mutex are not
    modelled. *)
Definition addPiece (w : world) (p : uploadPiece)
    : state -> option (error * state) :=
  fun st0 =>
    let body : M unit :=
      (* get old file contract from renter *)
      st <- get ;;
      let hu := st_hu st in
      let height := blockHeight (st_renter st) in
      match contracts (st_renter st) !! ID (contract hu) with
      | None => fail "no record of contract to revise"
      | Some fc =>
      (* encrypt piece data *)
      let key := deriveKey (masterKey hu) (chunkIndex p) (pieceIndex p) in
      match EncryptBytes key (data p) with
      | inl msg => fail msg
      | inr encPiece =>
      (* revise the file contract *)
      err <- (fun st => match revise w fc encPiece height st with
                        | None => None
                        | Some (err, st') => Some (inr err, st')
                        end) ;;
      check err ;;;
      (* update fileContract *)
      modify_hu (fun hu =>
        {| settings := settings hu; masterKey := masterKey hu;
           unlockConditions := unlockConditions hu; secretKey := secretKey hu;
           contract :=
             {| ID := ID (contract hu); IP := IP (contract hu);
                contractWindowStart := contractWindowStart (contract hu);
                Pieces := Pieces (contract hu)
                          ++ [ {| Chunk := chunkIndex p;
                                  Piece := pieceIndex p;
                                  Offset := FileSize fc |} ] |};
           tree := tree hu; lastTxn := lastTxn hu |}) ;;;
      (* update file contract in renter *)
      let fc :=
        {| FileSize := u64 (FileSize fc + Z.of_nat (length encPiece));
           FileMerkleRoot := FileMerkleRoot fc;
           WindowStart := WindowStart fc; WindowEnd := WindowEnd fc;
           Payout := Payout fc;
           ValidProofOutputs := ValidProofOutputs fc;
           MissedProofOutputs := MissedProofOutputs fc;
           UnlockHash := UnlockHash fc;
           RevisionNumber := u64 (RevisionNumber fc + 1) |} in
      st <- get ;;
      modify_renter (fun r =>
        {| blockHeight := blockHeight r;
           contracts := <[ID (contract (st_hu st)) := fc]> (contracts r) |}) ;;;
      emit EvSave
      end end in
    match body st0 with
    | None => None
    | Some (res, st) =>
        Some (match res with inl msg => Some msg | inr _ => None end, st)
    end.

End Revise.

End Revision.

(** ** Further notions about the revisions *)
Module RevisionNotions.

Import Revision.

(** The fields of the uploader that neither [revise] nor [addPiece]
    writes. *)
Definition sameKeys {T : Type} (hu hu' : hostUploader T) : Prop :=
  settings T hu' = settings T hu /\
  masterKey T hu' = masterKey T hu /\
  unlockConditions T hu' = unlockConditions T hu /\
  secretKey T hu' = secretKey T hu.

(** An output with another value. *)
Definition withValue (o : Renter.SiacoinOutput) (v : Currency)
    : Renter.SiacoinOutput :=
  {| Renter.Value := v; Renter.UnlockHash := Renter.UnlockHash o |}.

(** A state with other arrays of outputs. *)
Definition withStore {T : Type} (st : state T) (outputs : store) : state T :=
  {| st_hu := st_hu T st; st_renter := st_renter T st;
     st_store := outputs; st_events := st_events T st |}.

(** The arrays after the price [p] has moved from output 0 to output 1 of
    the arrays [valid] and [missed]. *)
Definition moved (outputs : store) (valid missed : slice) (p : Currency)
    (v0 v1 : Renter.SiacoinOutput) (vs : list Renter.SiacoinOutput)
    (m0 m1 : Renter.SiacoinOutput) (ms : list Renter.SiacoinOutput) : store :=
  <[missed := withValue m0 (Renter.Value m0 - p)%N
              :: withValue m1 (Renter.Value m1 + p)%N :: ms]>
    (<[valid := withValue v0 (Renter.Value v0 - p)%N
                :: withValue v1 (Renter.Value v1 + p)%N :: vs]> outputs).

(** The contract on file after a piece of [n] bytes has been added. *)
Definition grown (fc : FileContract) (n : nat) : FileContract :=
  {| FileSize := u64 (FileSize fc + Z.of_nat n);
     FileMerkleRoot := FileMerkleRoot fc;
     WindowStart := WindowStart fc; WindowEnd := WindowEnd fc;
     Payout := Payout fc;
     ValidProofOutputs := ValidProofOutputs fc;
     MissedProofOutputs := MissedProofOutputs fc;
     UnlockHash := UnlockHash fc;
     RevisionNumber := u64 (RevisionNumber fc + 1) |}.

(** [Sub] subtracts where the result is not negative. *)
Definition exactSub (Sub : Currency -> Currency -> option Currency) : Prop :=
  forall x y : Currency, (y <= x)%N -> Sub x y = Some (x - y)%N.

(** [Sub] panics where the result would be negative. *)
Definition panickingSub (Sub : Currency -> Currency -> option Currency) : Prop :=
  forall x y : Currency, (x < y)%N -> Sub x y = None.

(** The arrays [outputs'] differ from [outputs] at most in the arrays of
    outputs of the contract [fc]. *)
Definition sameElsewhere (fc : FileContract) (outputs outputs' : store) : Prop :=
  forall s : slice,
    s <> ValidProofOutputs fc -> s <> MissedProofOutputs fc ->
    outputs' !! s = outputs !! s.

End RevisionNotions.

(** ** Revisions on concrete inputs *)
Module RevisionExamples.

Import Revision.

(** Stand-ins for the functions of the [crypto] and [types] packages: the
    tree counts the bytes read, a transaction is identified by the
    revision number it carries, nothing fails. *)
Definition readSegments (t : nat) (piece : list Byte.byte) : error * nat :=
  (None, (t + length piece)%nat).

Definition root (t : nat) : Hash := N.of_nat t.

Definition sub (x y : Currency) : option Currency :=
  if decide (y <= x)%N then Some (x - y)%N else None.

Definition sigHash (t : Transaction) (i : Z) : Hash := 5%N.

Definition signHash (h : Hash) (key : N) : string + N := inr (h + key)%N.

Definition revisionID (t : Transaction) : Hash :=
  match FileContractRevisions t with
  | rev :: _ => Z.to_N (NewRevisionNumber rev)
  | [] => 0%N
  end.

Definition standaloneValid (t : Transaction) (height : Z) : error := None.

Definition derive (master : N) (chunk piece : Z) : N := master.

Definition encrypt (key : N) (d : list Byte.byte) : string + list Byte.byte :=
  inr d.

(** A contract with 100 for the renter and nothing yet for the host, its
    valid outputs in array 0 and its missed outputs in array 1. *)
Definition onFile : FileContract :=
  {| FileSize := 0; FileMerkleRoot := 0%N; WindowStart := 90;
     WindowEnd := 100; Payout := 100%N;
     ValidProofOutputs := 0%nat; MissedProofOutputs := 1%nat;
     UnlockHash := 8%N; RevisionNumber := 0 |}.

Definition arrays : store :=
  {[ 0%nat := [ {| Renter.Value := 100%N; Renter.UnlockHash := 33%N |};
                {| Renter.Value := 0%N; Renter.UnlockHash := 77%N |} ];
     1%nat := [ {| Renter.Value := 100%N; Renter.UnlockHash := 33%N |};
                {| Renter.Value := 0%N; Renter.UnlockHash := 0%N |} ] ]}.

Definition uploader : hostUploader nat :=
  {| settings := Examples.someSettings; masterKey := 1%N;
     unlockConditions :=
       {| Renter.PublicKeys := []; Renter.SignaturesRequired := 2 |};
     secretKey := 2%N;
     contract := {| ID := 9%N; IP := "host:9982"; contractWindowStart := 90;
                    Pieces := [] |};
     tree := 0%nat;
     lastTxn := {| FileContractRevisions := []; TransactionSignatures := [] |} |}.

Definition start : state nat :=
  {| st_hu := uploader;
     st_renter := {| blockHeight := 100; contracts := {[ 9%N := onFile ]} |};
     st_store := arrays;
     st_events := [] |}.

(** What the host sends back when it signs: a transaction with the next
    revision number. *)
Definition countersigned : Transaction :=
  {| FileContractRevisions :=
       [ {| ParentID := 9%N;
            UnlockConditions :=
              {| Renter.PublicKeys := []; Renter.SignaturesRequired := 2 |};
            NewRevisionNumber := 1; NewFileSize := 2;
            NewFileMerkleRoot := 2%N; NewWindowStart := 90;
            NewWindowEnd := 100;
            NewValidProofOutputs := []; NewMissedProofOutputs := [];
            NewUnlockHash := 8%N |} ];
     TransactionSignatures := [] |}.

(** A host that accepts the revision and signs it, and one that refuses. *)
Definition signingHost : world :=
  {| writeObject := fun _ => None;
     readResponse := inr Renter.AcceptResponse;
     connWrite := fun _ => None;
     readSignedHostTxn := inr countersigned |}.

Definition refusingHost : world :=
  {| writeObject := fun _ => None;
     readResponse := inr "no";
     connWrite := fun _ => None;
     readSignedHostTxn := inl "EOF" |}.

Definition somePiece : uploadPiece :=
  {| data := Examples.payload; chunkIndex := 4; pieceIndex := 1 |}.

(** The runs of [revise] and [addPiece] in front of these hosts. *)
Definition reviseWith (w : world) : option (error * state nat) :=
  revise nat readSegments root sub sigHash signHash revisionID
    standaloneValid w onFile Examples.payload 100 start.

Definition addPieceWith (w : world) : option (error * state nat) :=
  addPiece nat readSegments root sub sigHash signHash revisionID
    standaloneValid derive encrypt w somePiece start.

(** The same start with only 50 for the renter in the missed outputs,
    less than the price of the piece. *)
Definition shortStart : state nat :=
  {| st_hu := uploader;
     st_renter := {| blockHeight := 100; contracts := {[ 9%N := onFile ]} |};
     st_store :=
       <[1%nat := [ {| Renter.Value := 50%N; Renter.UnlockHash := 33%N |};
                    {| Renter.Value := 0%N; Renter.UnlockHash := 0%N |} ]]>
         arrays;
     st_events := [] |}.

Definition ranWith (run : option (error * state nat)) : error * state nat :=
  default (None, start) run.

End RevisionExamples.

(** * Properties *)

(** ** Generic facts about loops written as folds *)

Lemma fold_left_preserves {A B : Type} (f : A -> B -> A) (P : A -> Prop) :
  (forall a b, P a -> P (f a b)) ->
  forall (l : list B) (a : A), P a -> P (fold_left f l a).
Proof.
  intros Hstep l. induction l as [|b l IH]; simpl; intros a Ha.
  - exact Ha.
  - apply IH, Hstep, Ha.
Qed.

Lemma u64_small (z : Z) : 0 <= z < 2 ^ 64 -> u64 z = z.
Proof. intros H. unfold u64. apply Z.mod_small. exact H. Qed.

(** ** The seed scanner *)

Section WalletFacts.

Import Wallet.

Variable release : Build.Release.
Variable keyUnlockHash : Seed -> Z -> Hash.

#[local] Abbreviation maxScanKeys := (maxScanKeys release).
#[local] Abbreviation numInitialKeys := (numInitialKeys release).
#[local] Abbreviation generated := (generated keyUnlockHash).
#[local] Abbreviation collision_free := (collision_free keyUnlockHash).
#[local] Abbreviation pass_ok := (pass_ok release).
#[local] Abbreviation scan_post := (scan_post release).
#[local] Abbreviation scheduled := (scheduled release).

Lemma numInitialKeys_pos : 0 < numInitialKeys.
Proof. unfold Wallet.numInitialKeys. destruct release; lia. Qed.

Lemma numInitialKeys_le_max : numInitialKeys <= maxScanKeys.
Proof. unfold Wallet.numInitialKeys, Wallet.maxScanKeys. destruct release; lia. Qed.

Lemma maxScanKeys_bound : 0 < maxScanKeys <= 100000000.
Proof. unfold Wallet.maxScanKeys. destruct release; lia. Qed.

Lemma updateOutput_same_keys s d : same_keys s (updateOutput s d).
Proof.
  unfold updateOutput, same_keys.
  destruct (Direction d); destruct (keys s !! _); try case_decide; simpl; auto.
Qed.

Lemma updateLargest_same_keys s h : same_keys s (updateLargest s h).
Proof.
  unfold updateLargest, same_keys.
  destruct (keys s !! h); try case_decide; simpl; auto.
Qed.

Lemma same_keys_trans s1 s2 s3 :
  same_keys s1 s2 -> same_keys s2 s3 -> same_keys s1 s3.
Proof. unfold same_keys. intros (?&?&?) (?&?&?). repeat split; congruence. Qed.

Lemma ProcessConsensusChange_same_keys s cc :
  same_keys s (ProcessConsensusChange s cc).
Proof.
  unfold ProcessConsensusChange.
  repeat (apply (fold_left_preserves _ (same_keys s));
          [ intros a b Ha;
            first [ exact (same_keys_trans _ _ _ Ha (updateOutput_same_keys a b))
                  | exact (same_keys_trans _ _ _ Ha (updateLargest_same_keys a b)) ]
          | ]).
  unfold same_keys; auto.
Qed.

Lemma subscription_same_keys s ccs :
  same_keys s (fold_left ProcessConsensusChange ccs s).
Proof.
  apply (fold_left_preserves _ (same_keys s)).
  - intros a b Ha.
    exact (same_keys_trans _ _ _ Ha (ProcessConsensusChange_same_keys a b)).
  - unfold same_keys; auto.
Qed.

Lemma generated_empty sd : generated sd ∅ 0.
Proof.
  split; [apply map_size_empty|].
  intros h i. rewrite lookup_empty. split; [discriminate | lia].
Qed.

Lemma generated_insert sd m k bound :
  collision_free sd bound -> Z.of_nat k < bound ->
  generated sd m k ->
  generated sd (<[keyUnlockHash sd (Z.of_nat k) := Z.of_nat k]> m) (S k).
Proof.
  intros Hinj Hk [Hsize Hm].
  assert (Hfresh : m !! keyUnlockHash sd (Z.of_nat k) = None).
  { destruct (m !! keyUnlockHash sd (Z.of_nat k)) as [i|] eqn:E; [|reflexivity].
    apply Hm in E as [Hi Heq]. apply Hinj in Heq; lia. }
  split.
  - rewrite map_size_insert_None by exact Hfresh. congruence.
  - intros h i. destruct (decide (keyUnlockHash sd (Z.of_nat k) = h)) as [<-|Hne].
    + rewrite lookup_insert_eq. split.
      * intros [= <-]. split; [lia | reflexivity].
      * intros [Hi Heq]. f_equal. apply Hinj; [lia | lia | exact Heq].
    + rewrite lookup_insert_ne by exact Hne. rewrite Hm. split.
      * intros [Hi ->]. split; [lia | reflexivity].
      * intros [Hi ->]. split; [|reflexivity].
        destruct (decide (i = Z.of_nat k)) as [->|]; [congruence | lia].
Qed.

Lemma insertKeys_generated sd k0 bound :
  collision_free sd bound -> bound <= 2 ^ 64 ->
  forall (n a : nat) (m : gmap Hash Z),
    Z.of_nat (k0 + a + n) <= bound ->
    generated sd m (k0 + a) ->
    generated sd
      (fold_left
         (fun (acc : gmap Hash Z) (ik : nat * Hash) =>
            <[ik.2 := u64 (Z.of_nat k0 + Z.of_nat ik.1)]> acc)
         (combine (seq a n)
            (map (fun i : nat => keyUnlockHash sd (u64 (Z.of_nat k0 + Z.of_nat i)))
                 (seq a n))) m)
      (k0 + a + n).
Proof.
  intros Hinj Hb n. induction n as [|n IH]; intros a m Hle Hm; simpl.
  - rewrite Nat.add_0_r. exact Hm.
  - rewrite u64_small by lia.
    replace (Z.of_nat k0 + Z.of_nat a) with (Z.of_nat (k0 + a)) by lia.
    replace (k0 + a + S n)%nat with (k0 + S a + n)%nat by lia.
    apply IH; [lia|].
    replace (k0 + S a)%nat with (S (k0 + a)) by lia.
    apply (generated_insert sd m (k0 + a) bound); [exact Hinj | lia | exact Hm].
Qed.

Lemma numKeys_generated s k :
  generated (seed s) (keys s) k -> Z.of_nat k < 2 ^ 64 ->
  numKeys s = Z.of_nat k.
Proof.
  intros [Hsize _] Hk. unfold numKeys. rewrite Hsize. apply u64_small. lia.
Qed.

(** [generateKeys] adds exactly the requested number of fresh keys. *)
Lemma seedScanner_generateKeys_generated s k n bound :
  collision_free (seed s) bound -> bound < 2 ^ 64 ->
  0 <= n -> Z.of_nat k + n <= bound ->
  generated (seed s) (keys s) k ->
  let s' := seedScanner_generateKeys keyUnlockHash s n in
  generated (seed s') (keys s') (k + Z.to_nat n) /\ seed s' = seed s.
Proof.
  intros Hinj Hb Hn Hle Hm. simpl. split; [|reflexivity].
  unfold insertKeys, generateKeys.
  rewrite length_map, length_seq.
  rewrite (numKeys_generated s k) by (auto; lia).
  assert (Hb' : bound <= 2 ^ 64) by lia.
  pose proof (insertKeys_generated (seed s) k bound Hinj Hb' (Z.to_nat n) 0 (keys s)) as H.
  rewrite !Nat.add_0_r in H. apply H; [lia | exact Hm].
Qed.

Lemma scanLoop_unfold fuel cs call n s :
  scanLoop release keyUnlockHash (S fuel) cs call n s =
  if decide (numKeys s < maxScanKeys) then
    let s1 := seedScanner_generateKeys keyUnlockHash s n in
    let s2 := fold_left (ProcessConsensusChange) (cs call).1 s1 in
    let it := {| batch := n; before := s; after := s2;
                 subscribeErr := (cs call).2 |} in
    match (cs call).2 with
    | Some e => Some (Some (errSubscribe e), s2, [it])
    | None =>
        if decide (largestIndexSeen s2 < numKeys s2 / 2) then
          Some (None, s2, [it])
        else
          let n4 := u64 (n * 4) in
          let n' := if decide (n4 > u64 (maxScanKeys - numKeys s2))
                    then u64 (maxScanKeys - numKeys s2) else n4 in
          match scanLoop release keyUnlockHash fuel cs (S call) n' s2 with
          | Some (r, s', its) => Some (r, s', it :: its)
          | None => None
          end
    end
  else Some (Some errMaxKeys, s, []).
Proof. reflexivity. Qed.

Lemma scanLoop_returns cs sd :
  collision_free sd maxScanKeys ->
  forall (fuel call : nat) (n : Z) (s : seedScanner) (k : nat),
    seed s = sd ->
    generated sd (keys s) k ->
    Z.of_nat k <= maxScanKeys ->
    (Z.of_nat k < maxScanKeys -> 0 < n /\ Z.of_nat k + n <= maxScanKeys) ->
    (Z.to_nat (maxScanKeys - Z.of_nat k) < fuel)%nat ->
    exists r s' its,
      scanLoop release keyUnlockHash fuel cs call n s = Some (r, s', its) /\
      scan_post r s' its.
Proof.
  intros Hinj. pose proof maxScanKeys_bound as Hmax.
  induction fuel as [|fuel IH]; intros call n s k Hsd Hgen Hk Hn Hfuel; [lia|].
  rewrite scanLoop_unfold.
  assert (Hnum : numKeys s = Z.of_nat k)
    by (apply numKeys_generated; [congruence | lia]).
  rewrite Hnum. case_decide as Hlt.
  - destruct (Hn Hlt) as [Hpos Hle]. cbv zeta.
    set (s1 := seedScanner_generateKeys keyUnlockHash s n).
    set (s2 := fold_left _ (cs call).1 s1).
    destruct (seedScanner_generateKeys_generated s k n maxScanKeys)
      as [Hgen1 Hsd1];
      [rewrite Hsd; exact Hinj | lia | lia | lia | rewrite Hsd; exact Hgen |].
    fold s1 in Hgen1, Hsd1.
    destruct (subscription_same_keys s1 (cs call).1) as (Hk2 & Hs2 & _).
    fold s2 in Hk2, Hs2.
    assert (Hgen2 : generated sd (keys s2) (k + Z.to_nat n))
      by (rewrite Hk2; congruence).
    assert (Hnum2 : numKeys s2 = Z.of_nat k + n).
    { rewrite (numKeys_generated s2 (k + Z.to_nat n)); [lia | congruence | lia]. }
    assert (Hok : pass_ok {| batch := n; before := s; after := s2;
                             subscribeErr := (cs call).2 |}).
    { unfold pass_ok; simpl. rewrite Hnum2, Hnum. lia. }
    destruct ((cs call).2) as [e|] eqn:Herr.
    + eexists _, _, _. split; [reflexivity|].
        unfold scan_post; split; [|split; [|split]].
      * constructor; [exact Hok | constructor].
      * lia.
      * discriminate.
      * intros [_ Hall]. inversion Hall as [|? ? [Hnone _] _]. discriminate.
    + case_decide as Hearly.
      * eexists _, _, _. split; [reflexivity|].
        unfold scan_post; split; [|split; [|split]].
        -- constructor; [exact Hok | constructor].
        -- lia.
        -- discriminate.
        -- intros [_ Hall]. inversion Hall as [|? ? [_ Hno] _].
           exfalso. apply Hno. exact Hearly.
      * rewrite Hnum2.
        rewrite (u64_small (n * 4)) by lia.
        rewrite (u64_small (maxScanKeys - (Z.of_nat k + n))) by lia.
        set (n' := if decide (n * 4 > maxScanKeys - (Z.of_nat k + n))
                   then maxScanKeys - (Z.of_nat k + n) else n * 4).
        destruct (IH (S call) n' s2 (k + Z.to_nat n)%nat)
          as (r & s' & its & Hrun & Hall & Hle' & Hiff).
        -- congruence.
        -- exact Hgen2.
        -- lia.
        -- intros Hlt'. subst n'. case_decide; lia.
        -- lia.
        -- rewrite Hrun. eexists _, _, _. split; [reflexivity|].
        unfold scan_post; split; [|split; [|split]].
           ++ constructor; [exact Hok | exact Hall].
           ++ exact Hle'.
           ++ intros Hr. apply Hiff in Hr as [Hfin Hcont].
              split; [exact Hfin|]. constructor.
              ** split; [reflexivity | exact Hearly].
              ** exact Hcont.
           ++ intros [Hfin Hcont]. apply Hiff. split; [exact Hfin|].
              inversion Hcont; assumption.
  - assert (Z.of_nat k = maxScanKeys) by lia.
    eexists _, _, _. split; [reflexivity|].
    unfold scan_post; split; [|split; [|split]].
    + constructor.
    + lia.
    + intros _. split; [lia | constructor].
    + reflexivity.
Qed.

(** The batches of a run that returns follow the schedule of the loop,
    and a pass is made whenever keys are missing. *)
Lemma scanLoop_scheduled cs sd :
  collision_free sd maxScanKeys ->
  forall (fuel call : nat) (n : Z) (s : seedScanner) (k : nat) r s' its,
    seed s = sd ->
    generated sd (keys s) k ->
    Z.of_nat k <= maxScanKeys ->
    (Z.of_nat k < maxScanKeys -> 0 < n /\ Z.of_nat k + n <= maxScanKeys) ->
    scanLoop release keyUnlockHash fuel cs call n s = Some (r, s', its) ->
    scheduled n s its s' /\ (Z.of_nat k < maxScanKeys -> its <> []).
Proof.
  intros Hinj. pose proof maxScanKeys_bound as Hmax.
  induction fuel as [|fuel IH];
    intros call n s k r s' its Hsd Hgen Hk Hn Hrun; [discriminate|].
  rewrite scanLoop_unfold in Hrun.
  assert (Hnum : numKeys s = Z.of_nat k)
    by (apply numKeys_generated; [congruence | lia]).
  rewrite Hnum in Hrun. case_decide as Hlt.
  - destruct (Hn Hlt) as [Hpos Hle]. cbv zeta in Hrun.
    set (s1 := seedScanner_generateKeys keyUnlockHash s n) in *.
    set (s2 := fold_left _ (cs call).1 s1) in *.
    destruct (seedScanner_generateKeys_generated s k n maxScanKeys)
      as [Hgen1 Hsd1];
      [rewrite Hsd; exact Hinj | lia | lia | lia | rewrite Hsd; exact Hgen |].
    fold s1 in Hgen1, Hsd1.
    destruct (subscription_same_keys s1 (cs call).1) as (Hk2 & Hs2 & _).
    fold s2 in Hk2, Hs2.
    assert (Hgen2 : generated sd (keys s2) (k + Z.to_nat n))
      by (rewrite Hk2; congruence).
    assert (Hnum2 : numKeys s2 = Z.of_nat k + n).
    { rewrite (numKeys_generated s2 (k + Z.to_nat n)); [lia | congruence | lia]. }
    destruct ((cs call).2) as [e|].
    + injection Hrun as <- <- <-. simpl.
      split; [auto | discriminate].
    + case_decide as Hearly.
      * injection Hrun as <- <- <-. simpl.
        split; [auto | discriminate].
      * rewrite Hnum2 in Hrun.
        rewrite (u64_small (n * 4)) in Hrun by lia.
        rewrite (u64_small (maxScanKeys - (Z.of_nat k + n))) in Hrun by lia.
        set (n' := if decide (n * 4 > maxScanKeys - (Z.of_nat k + n))
                   then maxScanKeys - (Z.of_nat k + n) else n * 4) in *.
        destruct (scanLoop release keyUnlockHash fuel cs (S call) n' s2)
          as [[[r1 s1'] its1]|] eqn:Hrec; [|discriminate].
        injection Hrun as <- <- <-.
        destruct (IH (S call) n' s2 (k + Z.to_nat n)%nat r1 s1' its1)
          as [Hsched _];
          [congruence | exact Hgen2 | lia
          | intros Hlt'; subst n'; case_decide; lia | exact Hrec |].
        simpl. split; [|discriminate].
        split; [reflexivity|]. split; [reflexivity|].
        replace (Z.min (4 * n) (maxScanKeys - numKeys s2)) with n';
          [exact Hsched|].
        rewrite Hnum2. subst n'. case_decide; lia.
  - injection Hrun as <- <- <-. simpl. split; [reflexivity | lia].
Qed.


(** The cap of [scan] bears on the batches after the first only: on a
    scanner that already holds [k] keys, with [k] below [maxScanKeys], the
    first pass adds the whole batch [numInitialKeys]. *)
Lemma scan_first_pass (cs : ConsensusSet) (s : seedScanner) (k : nat) :
  generated (seed s) (keys s) k ->
  Z.of_nat k < maxScanKeys ->
  collision_free (seed s) (Z.of_nat k + numInitialKeys) ->
  (cs 0%nat).2 = None ->
  largestIndexSeen
    (fold_left ProcessConsensusChange (cs 0%nat).1
       (seedScanner_generateKeys keyUnlockHash s numInitialKeys))
  < (Z.of_nat k + numInitialKeys) / 2 ->
  exists s' its,
    scan release keyUnlockHash 1 s cs = Some (None, s', its) /\
    numKeys s' = Z.of_nat k + numInitialKeys.
Proof.
  intros Hgen Hlt Hinj Hsub Hearly.
  pose proof numInitialKeys_pos. pose proof numInitialKeys_le_max.
  pose proof maxScanKeys_bound.
  unfold scan. rewrite scanLoop_unfold.
  assert (Hnum : numKeys s = Z.of_nat k)
    by (apply numKeys_generated; [exact Hgen | lia]).
  rewrite Hnum. case_decide; [|lia]. cbv zeta.
  set (s1 := seedScanner_generateKeys keyUnlockHash s numInitialKeys) in *.
  set (s2 := fold_left _ (cs 0%nat).1 s1) in *.
  destruct (seedScanner_generateKeys_generated s k numInitialKeys
              (Z.of_nat k + numInitialKeys)) as [Hgen1 Hsd1];
    [exact Hinj | lia | lia | lia | exact Hgen |].
  fold s1 in Hgen1, Hsd1.
  destruct (subscription_same_keys s1 (cs 0%nat).1) as (Hk2 & Hs2 & _).
  fold s2 in Hk2, Hs2.
  assert (Hnum2 : numKeys s2 = Z.of_nat k + numInitialKeys).
  { rewrite (numKeys_generated s2 (k + Z.to_nat numInitialKeys));
      [lia | rewrite Hk2, Hs2; exact Hgen1 | lia]. }
  rewrite Hsub, Hnum2. case_decide; [|contradiction].
  exists s2, [{| batch := numInitialKeys; before := s; after := s2;
                 subscribeErr := None |}].
  split; [reflexivity | exact Hnum2].
Qed.

(** *** ProcessConsensusChange *)

Lemma updateOutput_cases s d oid o :
  siacoinOutputs (updateOutput s d) !! oid = Some o ->
  siacoinOutputs s !! oid = Some o \/
  (Direction d = DiffApply /\ ID d = oid /\
   keys s !! UnlockHash (SiacoinOutput_ d) = Some (seedIndex o) /\
   (dustThreshold s < Value (SiacoinOutput_ d))%N /\
   o = {| id := oid; value := Value (SiacoinOutput_ d);
          seedIndex := seedIndex o |}).
Proof.
  unfold updateOutput.
  destruct (Direction d) eqn:Hdir;
    destruct (keys s !! UnlockHash (SiacoinOutput_ d)) as [index|] eqn:Hkey;
    try (intros H; left; exact H).
  - case_decide as Hcmp; [|intros H; left; exact H]. simpl.
    destruct (decide (ID d = oid)) as [<-|Hne].
    + rewrite lookup_insert_eq. intros [= <-]. right. simpl.
      repeat split; try reflexivity.
      unfold Cmp in Hcmp.
      destruct (N.compare_spec (Value (SiacoinOutput_ d)) (dustThreshold s));
        lia.
    + rewrite lookup_insert_ne by exact Hne. intros H; left; exact H.
  - simpl. destruct (decide (ID d = oid)) as [<-|Hne].
    + rewrite lookup_delete_eq. discriminate.
    + rewrite lookup_delete_ne by exact Hne. intros H; left; exact H.
Qed.

Lemma updateOutputs_cases (l : list SiacoinOutputDiff) :
  forall s oid o,
    siacoinOutputs (fold_left updateOutput l s) !! oid = Some o ->
    siacoinOutputs s !! oid = Some o \/
    exists d, In d l /\ Direction d = DiffApply /\ ID d = oid /\
      keys s !! UnlockHash (SiacoinOutput_ d) = Some (seedIndex o) /\
      (dustThreshold s < Value (SiacoinOutput_ d))%N /\
      o = {| id := oid; value := Value (SiacoinOutput_ d);
             seedIndex := seedIndex o |}.
Proof.
  induction l as [|d l IH]; simpl; intros s oid o H.
  - left. exact H.
  - destruct (updateOutput_same_keys s d) as (Hk & _ & Hdust).
    apply IH in H as [H | (d' & Hin & Hdir & Hid & Hkey & Hval & Ho)].
    + apply updateOutput_cases in H as [H | H]; [left; exact H|].
      right. exists d. split; [left; reflexivity | exact H].
    + right. exists d'. rewrite Hk in Hkey. rewrite Hdust in Hval.
      split; [right; exact Hin | auto].
Qed.

Lemma updateLargest_outputs s h :
  siacoinOutputs (updateLargest s h) = siacoinOutputs s.
Proof.
  unfold updateLargest. destruct (keys s !! h); [case_decide|]; reflexivity.
Qed.

Lemma updateLargests_outputs (l : list Hash) s :
  siacoinOutputs (fold_left updateLargest l s) = siacoinOutputs s.
Proof.
  apply (fold_left_preserves updateLargest
           (fun a => siacoinOutputs a = siacoinOutputs s)); [|reflexivity].
  intros a b Ha. rewrite updateLargest_outputs. exact Ha.
Qed.

Lemma ProcessConsensusChange_outputs s cc :
  siacoinOutputs (ProcessConsensusChange s cc) =
  siacoinOutputs (fold_left updateOutput (SiacoinOutputDiffs cc) s).
Proof.
  unfold ProcessConsensusChange. rewrite !updateLargests_outputs. reflexivity.
Qed.

Lemma updateOutputs_other (l : list SiacoinOutputDiff) :
  forall s oid,
    (forall d, In d l -> ID d <> oid) ->
    siacoinOutputs (fold_left updateOutput l s) !! oid =
    siacoinOutputs s !! oid.
Proof.
  induction l as [|d l IH]; simpl; intros s oid Hne; [reflexivity|].
  rewrite IH by (intros d' Hd'; apply Hne; right; exact Hd').
  assert (Hd : ID d <> oid) by (apply Hne; left; reflexivity).
  unfold updateOutput.
  destruct (Direction d); destruct (keys s !! _); try case_decide; simpl;
    try reflexivity.
  - apply lookup_insert_ne. exact Hd.
  - apply lookup_delete_ne. exact Hd.
Qed.

Lemma updateOutputs_same_keys (l : list SiacoinOutputDiff) s :
  same_keys s (fold_left updateOutput l s).
Proof.
  apply (fold_left_preserves _ (same_keys s)).
  - intros a b Ha.
    exact (same_keys_trans _ _ _ Ha (updateOutput_same_keys a b)).
  - unfold same_keys; auto.
Qed.

Lemma updateOutput_revert s d i :
  Direction d = DiffRevert ->
  keys s !! UnlockHash (SiacoinOutput_ d) = Some i ->
  siacoinOutputs (updateOutput s d) = delete (ID d) (siacoinOutputs s).
Proof. intros Hdir Hkey. unfold updateOutput. rewrite Hdir, Hkey. reflexivity. Qed.

(** C9.  [ProcessConsensusChange] records a siacoin output only for an
    applied diff whose unlock hash is one of the scanner's keys and whose
    value is strictly above [dustThreshold]: an entry of [siacoinOutputs]
    after the call was there before or comes from such a diff.  An applied
    output worth exactly [dustThreshold] is not recorded.  A revert diff
    for a known key deletes the output whatever its value: the entry is
    gone after the call unless a later diff of the same change names the
    same id. *)
Theorem ProcessConsensusChange_records :
  (forall s cc oid o,
     siacoinOutputs (ProcessConsensusChange s cc) !! oid = Some o ->
     siacoinOutputs s !! oid = Some o \/
     exists d, In d (SiacoinOutputDiffs cc) /\
       Direction d = DiffApply /\ ID d = oid /\
       keys s !! UnlockHash (SiacoinOutput_ d) = Some (seedIndex o) /\
       (dustThreshold s < Value (SiacoinOutput_ d))%N /\
       o = {| id := oid; value := Value (SiacoinOutput_ d);
              seedIndex := seedIndex o |}) /\
  (forall s d sf,
     Direction d = DiffApply ->
     Value (SiacoinOutput_ d) = dustThreshold s ->
     siacoinOutputs
       (ProcessConsensusChange s
          {| SiacoinOutputDiffs := [d]; SiafundOutputDiffs := sf |}) =
     siacoinOutputs s) /\
  (forall s d sf i,
     Direction d = DiffRevert ->
     keys s !! UnlockHash (SiacoinOutput_ d) = Some i ->
     siacoinOutputs
       (ProcessConsensusChange s
          {| SiacoinOutputDiffs := [d]; SiafundOutputDiffs := sf |}) =
     delete (ID d) (siacoinOutputs s)) /\
  (forall s cc pre d post i,
     SiacoinOutputDiffs cc = pre ++ d :: post ->
     Direction d = DiffRevert ->
     keys s !! UnlockHash (SiacoinOutput_ d) = Some i ->
     (forall d', In d' post -> ID d' <> ID d) ->
     siacoinOutputs (ProcessConsensusChange s cc) !! ID d = None).
Proof.
  split; [|split; [|split]].
  - intros s cc oid o. rewrite ProcessConsensusChange_outputs.
    apply updateOutputs_cases.
  - intros s d sf Hdir Hval. rewrite ProcessConsensusChange_outputs. simpl.
    unfold updateOutput. rewrite Hdir, Hval.
    destruct (keys s !! _); [|reflexivity].
    case_decide as Hcmp; [|reflexivity].
    unfold Cmp in Hcmp. rewrite N.compare_refl in Hcmp. lia.
  - intros s d sf i Hdir Hkey. rewrite ProcessConsensusChange_outputs. simpl.
    apply (updateOutput_revert s d i Hdir Hkey).
  - intros s cc pre d post i Hcc Hdir Hkey Hpost.
    rewrite ProcessConsensusChange_outputs, Hcc, fold_left_app. simpl.
    rewrite updateOutputs_other by exact Hpost.
    destruct (updateOutputs_same_keys pre s) as (Hk & _ & _).
    rewrite (updateOutput_revert _ d i Hdir) by (rewrite Hk; exact Hkey).
    apply lookup_delete_eq.
Qed.

End WalletFacts.



(** ** The weight of a host entry *)

Section HostdbFacts.

Import Hostdb.

Lemma floors_positive (entry : HostEntry) :
  let e := floorFreeze (floorCollateral (floorPrice entry)) in
  1 <= Price e /\ 1 <= Collateral e /\ 1 <= Freeze e.
Proof.
  unfold floorFreeze, floorCollateral, floorPrice, Sign, NewCurrency64.
  destruct entry as [p c f]; simpl.
  rewrite (u64_small 1) by lia.
  pose proof (Z.sgn_nonpos p). pose proof (Z.sgn_nonpos c).
  pose proof (Z.sgn_nonpos f).
  repeat (case_decide; simpl in * ); lia.
Qed.

(** The divisor of [entryWeight] is at least 1, so the division is
    defined and the weight is a floor quotient, never negative. *)
Lemma entryWeight_total (entry : HostEntry) :
  let e := floorFreeze (floorCollateral (floorPrice entry)) in
  1 <= Sqrt (Price e) /\
  entryWeight entry = Some (Freeze e * Collateral e / Z.sqrt (Price e)) /\
  0 <= Freeze e * Collateral e / Z.sqrt (Price e).
Proof.
  intros e. destruct (floors_positive entry) as (Hp & Hc & Hf). fold e in Hp, Hc, Hf.
  assert (Hs : 1 <= Z.sqrt (Price e)).
  { change 1 with (Z.sqrt 1). apply Z.sqrt_le_mono. exact Hp. }
  split; [exact Hs|]. split.
  - unfold entryWeight. fold e. unfold Div, Sqrt, Mul.
    repeat case_decide; try lia. reflexivity.
  - apply Z.div_pos; nia.
Qed.

(** C10, at the input where it fails.  A host that asks a price of 4 and
    puts up neither collateral nor freeze gets collateral and freeze 1,
    the divisor is [sqrt 4 = 2], and the integer quotient [1 * 1 / 2] is
    0: the entry is weighted, without a division by zero, but its weight
    is not positive. *)
Example entryWeight_zero_weight :
  entryWeight {| Price := 4; Collateral := 0; Freeze := 0 |} = Some 0.
Proof. reflexivity. Qed.

End HostdbFacts.

(** ** The host uploader *)

Section RenterFacts.

Import Renter.

(** C3, as the code has it.  [Close] returns exactly what the transaction
    pool answered to the submission of [lastTxn]: [nil] when the pool took
    it, the pool's error otherwise.  What [Close] does drop are the
    results of writing the empty revision and of closing the connection.
    The three effects happen in this order and nothing is retried. *)
Theorem Close_returns_submission_result (w : world) (hu : hostUploader) :
  (Close w hu).1 = AcceptTransactionSet w [lastTxn hu] /\
  (Close w hu).2 =
    [EvWriteObject (ObjTransaction emptyTransaction); EvConnClose;
     EvAcceptTransactionSet [lastTxn hu]].
Proof. split; reflexivity. Qed.

(** C3, as stated, fails: with the same uploader and the same connection,
    [Close] returns [nil] in front of a pool that accepts and an error in
    front of a pool that refuses. *)
Lemma Close_result_not_ignored :
  (Close (Examples.poolAnswering None) Examples.someUploader).1 = None /\
  (Close (Examples.poolAnswering (Some "transaction set rejected"))
         Examples.someUploader).1 = Some "transaction set rejected".
Proof. split; reflexivity. Qed.

Section NegotiateFacts.

Variable HashAll : Hash -> SiaPublicKey -> Hash.
Variable GenerateDeterministic : Hash -> N * N.
Variable UnlockConditionsHash : UnlockConditions -> Hash.
Variable Tax : Z -> Currency -> Currency.
Variable MulFloat105 : Currency -> Currency.
Variable Sub : Currency -> Currency -> Currency.
Variable TransactionID : Transaction -> Hash.
Variable FileContractID : Transaction -> Z -> Hash.
Variable B : Type.
Variable StartTransaction : B.
Variable FundSiacoins : B -> Currency -> error * B.
Variable AddFileContract : B -> FileContract -> B.
Variable View : B -> Transaction * list Transaction.
Variable Sign : B -> bool -> string + list Transaction.

#[local] Abbreviation run :=
  (runNegotiateContract HashAll GenerateDeterministic UnlockConditionsHash
     Tax MulFloat105 Sub TransactionID FileContractID
     B StartTransaction FundSiacoins AddFileContract View Sign).
#[local] Abbreviation fileContractFor :=
  (newFileContract HashAll GenerateDeterministic UnlockConditionsHash
     Tax MulFloat105 Sub).
#[local] Abbreviation build :=
  (buildTransaction B StartTransaction FundSiacoins AddFileContract View).

(** One step through the body: split on the next answer of the outside
    world and drop the branches that return an error. *)
Ltac step H :=
  lazymatch type of H with
  | context [dial ?w] => destruct (dial w) eqn:?
  | context [match writeObject ?w ?o with _ => _ end] =>
      destruct (writeObject w o) eqn:?
  | context [match readHostPublicKey ?w with _ => _ end] =>
      destruct (readHostPublicKey w) eqn:?
  | context [match buildTransaction ?b ?s ?f ?a ?v ?fc with _ => _ end] =>
      destruct (buildTransaction b s f a v fc) as [?|[[? ?] ?]] eqn:?
  | context [match readResponse ?w with _ => _ end] =>
      destruct (readResponse w) eqn:?
  | context [if negb ?b then _ else _] => destruct b eqn:?
  | context [match readHostTxnSet ?w with _ => _ end] =>
      destruct (readHostTxnSet w) eqn:?
  | context [match Sign ?b ?f with _ => _ end] =>
      destruct (Sign b f) eqn:?
  | context [match readSignedHostTxnSet ?w with _ => _ end] =>
      destruct (readSignedHostTxnSet w) eqn:?
  | context [if decide ?P then _ else _] => destruct (decide P)
  | context [match AcceptTransactionSet ?w ?t with _ => _ end] =>
      destruct (AcceptTransactionSet w t) eqn:?
  end; simpl in H; try discriminate H.

(** C4.  Whenever [negotiateContract] succeeds, the id it stored for
    the new contract, in the uploader's [contract] and as the key under
    which the renter files the contract, is [FileContractID] of the
    built transaction at index 0, whatever transaction the builder
    shows: the position of the contract in it is never looked up. *)
Theorem negotiateContract_contract_id (w : world) (hu : hostUploader)
    (r : Renter) (filesize duration : Z) (renterAddress : Hash)
    (st' : state) :
  run w hu r filesize duration renterAddress = (None, st') ->
  exists hostPublicKey txnBuilder txn parents,
    readHostPublicKey w = inr hostPublicKey /\
    build (fileContractFor hu r filesize duration renterAddress hostPublicKey)
      = inr (txnBuilder, txn, parents) /\
    ID (contract (st_hu st')) = FileContractID txn 0 /\
    contracts (st_renter st') =
      <[FileContractID txn 0 :=
          fileContractFor hu r filesize duration renterAddress hostPublicKey]>
        (contracts r).
Proof.
  unfold runNegotiateContract.
  destruct (negotiateContract _ _ _ _ _ _ _ _ _ _ _ _ _ _ _ _ _ _ _)
    as [res st] eqn:Hrun.
  intros H.
  assert (Hst : st_hu st' = st_hu st /\ st_renter st' = st_renter st).
  { injection H as _ <-. destruct (dial w); split; reflexivity. }
  destruct Hst as [-> ->].
  assert (Hres : exists u, res = inr u).
  { destruct res as [msg|u]; [discriminate H | exists u; reflexivity]. }
  destruct Hres as [u ->]. clear H.
  unfold negotiateContract in Hrun.
  unfold bind, check, WriteObject, ReadObject, get, emit, modify_hu,
    modify_renter, ret, fail in Hrun.
  simpl in Hrun.
  repeat step Hrun.
  all: apply (f_equal snd) in Hrun; simpl in Hrun; subst st; simpl.
  all: exists s, b, t, l; split; [reflexivity|]; split; [assumption|].
  all: split; reflexivity.
Qed.

End NegotiateFacts.

End RenterFacts.

(** The premise of [negotiateContract_contract_id] holds for the
    negotiation with [Examples.agreeingHost]: it succeeds. *)
Lemma negotiateContract_contract_id_witness :
  exists hostPublicKey txnBuilder txn parents,
    Renter.readHostPublicKey Examples.agreeingHost = inr hostPublicKey /\
    Renter.buildTransaction Renter.Transaction Examples.busyStart
      Examples.busyFund Examples.busyAdd Examples.busyView
      (Renter.newFileContract (fun h _ => h) (fun h => (h, (h + 1)%N))
         (fun _ => 8%N) (fun _ c => (c / 25)%N) (fun c => c) N.sub
         Examples.someUploader Examples.someRenter 2 5 33%N hostPublicKey)
      = inr (txnBuilder, txn, parents) /\
    Renter.ID (Renter.contract (Renter.st_hu Examples.busyRun.2))
      = Examples.indexID txn 0 /\
    Renter.contracts (Renter.st_renter Examples.busyRun.2) =
      <[Examples.indexID txn 0 :=
          Renter.newFileContract (fun h _ => h) (fun h => (h, (h + 1)%N))
            (fun _ => 8%N) (fun _ c => (c / 25)%N) (fun c => c) N.sub
            Examples.someUploader Examples.someRenter 2 5 33%N hostPublicKey]>
        (Renter.contracts Examples.someRenter).
Proof.
  apply (negotiateContract_contract_id (fun h _ => h) (fun h => (h, (h + 1)%N))
           (fun _ => 8%N) (fun _ c => (c / 25)%N) (fun c => c) N.sub
           Examples.countID Examples.indexID Renter.Transaction
           Examples.busyStart Examples.busyFund Examples.busyAdd
           Examples.busyView Examples.busySign Examples.agreeingHost
           Examples.someUploader Examples.someRenter 2 5 33%N
           Examples.busyRun.2).
  vm_compute. reflexivity.
Defined.

(** In that negotiation the builder's transaction already held a contract,
    so the new contract sits at index 1 of its list; the id stored is still
    the one of index 0. *)
Example negotiateContract_index_example :
  Examples.busyRun.1 = None /\
  Renter.FileContracts
    (Examples.busyAdd
       (Examples.busyFund Examples.busyStart (Renter.Payout Examples.proposed)).2
       Examples.proposed)
    = [Examples.earlierContract; Examples.proposed] /\
  Renter.ID (Renter.contract (Renter.st_hu Examples.busyRun.2))
    = Examples.indexID
        (Examples.busyAdd
           (Examples.busyFund Examples.busyStart
              (Renter.Payout Examples.proposed)).2
           Examples.proposed) 0.
Proof. vm_compute. repeat split; reflexivity. Qed.

(** ** The contract manager: startup and shutdown *)

Section ContractManagerFacts.

Import ContractManager.

Variable deps : dependencies.
Variable ps : persistence.

Lemma log_Println_spec m msg :
  cm (log_Println m msg) = cm m /\
  exists cause, trace (log_Println m msg) = trace m ++ [EvLogPrintln msg cause].
Proof.
  unfold log_Println. destruct (err m); simpl; split; eauto.
Qed.

Lemma closeFolder_spec m sf :
  cm (closeFolder ps m sf) = cm m /\
  exists evs, trace (closeFolder ps m sf) = trace m ++ evs /\
    Forall fileEvent evs /\
    In (EvCloseFile (metadataFile sf)) evs /\
    In (EvCloseFile (sectorFile sf)) evs.
Proof.
  unfold closeFolder.
  destruct (file_Close ps (metadataFile sf)) as [e1|];
    destruct (file_Close ps (sectorFile sf)) as [e2|]; simpl.
  all: split; [reflexivity|].
  all: rewrite <- ?app_assoc; simpl.
  all: eexists; split; [reflexivity|].
  all: split; [repeat constructor|].
  all: simpl; auto 6.
Qed.

Lemma closeFolders_spec (sfs : list storageFolder) :
  forall m,
    let m' := fold_left (closeFolder ps) sfs m in
    cm m' = cm m /\
    exists evs, trace m' = trace m ++ evs /\
      Forall fileEvent evs /\
      forall sf, In sf sfs ->
        In (EvCloseFile (metadataFile sf)) evs /\
        In (EvCloseFile (sectorFile sf)) evs.
Proof.
  induction sfs as [|sf sfs IH]; simpl; intros m.
  - split; [reflexivity|]. exists []. rewrite app_nil_r.
    split; [reflexivity|]. split; [constructor | intros ? []].
  - destruct (closeFolder_spec m sf) as (Hcm & evs1 & Htr1 & Hall1 & Hm & Hs).
    destruct (IH (closeFolder ps m sf)) as (Hcm' & evs2 & Htr2 & Hall2 & Hin).
    split; [congruence|].
    exists (evs1 ++ evs2). rewrite Htr2, Htr1, app_assoc.
    split; [reflexivity|]. split; [apply Forall_app; auto|].
    intros sf' [<-|Hsf']; rewrite !in_app_iff.
    + auto.
    + destruct (Hin sf' Hsf'). auto.
Qed.

Lemma fileEvent_inner evs : Forall fileEvent evs -> Forall innerEvent evs.
Proof.
  intros H. eapply Forall_impl; [exact H|].
  intros e; destruct e; simpl; auto.
Qed.

Lemma inner_quiet evs :
  Forall innerEvent evs ->
  ran evs = [] /\ registered evs = [] /\
  Forall (fun e => startupStep e = false) evs /\
  ~ In EvDestruct evs.
Proof.
  induction 1 as [|e evs He _ (IH1 & IH2 & IH3 & IH4)].
  - split; [reflexivity|]. split; [reflexivity|].
    split; [constructor | intros []].
  - destruct e; simpl in He; try contradiction.
    all: unfold ran, registered in *; simpl.
    all: split; [exact IH1|]; split; [exact IH2|].
    all: split; [constructor; [reflexivity | exact IH3]|].
    all: intros [Hd|Hd]; [discriminate Hd | exact (IH4 Hd)].
Qed.

(** One closure: the manager's fields stay as they are; the events are
    [EvRun fn] followed by the closure's own. *)
Lemma runAfterStopFn_spec m fn :
  cm (runAfterStopFn ps m fn) = cm m /\
  exists evs, trace (runAfterStopFn ps m fn) = trace m ++ EvRun fn :: evs /\
    (fn = fnDestruct -> evs = [EvDestruct]) /\
    (fn <> fnDestruct -> Forall innerEvent evs) /\
    (fn = fnCloseLogger -> In EvLogClose evs) /\
    (fn = fnUnloadFiles ->
     forall fid sf, storageFolders (cm m) !! fid = Some sf ->
       In (EvCloseFile (metadataFile sf)) evs /\
       In (EvCloseFile (sectorFile sf)) evs).
Proof.
  destruct fn; simpl.
  - split; [reflexivity|]. exists [EvDestruct].
    rewrite <- app_assoc. simpl.
    split; [reflexivity|]. split; [reflexivity|].
    split; [congruence|]. split; discriminate.
  - split; [reflexivity|]. exists [EvLogClose].
    rewrite <- app_assoc. simpl.
    split; [reflexivity|]. split; [discriminate|]. split.
    + intros _. repeat constructor.
    + split; [intros _; left; reflexivity | discriminate].
  - set (m1 := emit (emit m (EvRun fnUnloadFiles)) EvWalLock).
    destruct (closeFolders_spec (map snd (map_to_list (storageFolders (cm m)))) m1)
      as (Hcm & evs & Htr & Hall & Hin).
    fold m1. change (map snd (map_to_list (storageFolders (cm m1))))
      with (map snd (map_to_list (storageFolders (cm m)))).
    split; [rewrite Hcm; reflexivity|].
    exists (EvWalLock :: evs ++ [EvWalUnlock]).
    rewrite Htr. subst m1. simpl. rewrite <- !app_assoc. simpl.
    split; [reflexivity|]. split; [discriminate|]. split.
    + intros _. constructor; [exact I|]. apply Forall_app. split.
      * apply fileEvent_inner, Hall.
      * repeat constructor.
    + split; [discriminate|]. intros _ fid sf Hsf.
      assert (Hl : In sf (map snd (map_to_list (storageFolders (cm m))))).
      { apply in_map_iff. exists (fid, sf). split; [reflexivity|].
        apply list_elem_of_In, elem_of_map_to_list. exact Hsf. }
      destruct (Hin sf Hl) as [H1 H2].
      split; right; apply in_app_iff; left; assumption.
Qed.

(** A run of closures, none of which is [dependencies.destruct]. *)
Lemma runAfterStopFns_spec (fns : list afterStopFn) :
  forall m,
    ~ In fnDestruct fns ->
    let m' := fold_left (runAfterStopFn ps) fns m in
    cm m' = cm m /\
    exists evs, trace m' = trace m ++ evs /\
      ran evs = fns /\ registered evs = [] /\
      Forall (fun e => startupStep e = false) evs /\
      ~ In EvDestruct evs /\
      (In fnCloseLogger fns -> In EvLogClose evs) /\
      (In fnUnloadFiles fns ->
       forall fid sf, storageFolders (cm m) !! fid = Some sf ->
         In (EvCloseFile (metadataFile sf)) evs /\
         In (EvCloseFile (sectorFile sf)) evs).
Proof.
  induction fns as [|fn fns IH]; simpl; intros m Hno.
  - split; [reflexivity|]. exists []. rewrite app_nil_r.
    split; [reflexivity|]. split; [reflexivity|]. split; [reflexivity|].
    split; [constructor|]. split; [intros []|]. split; intros [].
  - destruct (runAfterStopFn_spec m fn)
      as (Hcm1 & evs1 & Htr1 & _ & Hinner & Hlog1 & Hfiles1).
    assert (Hfn : fn <> fnDestruct) by (intros ->; apply Hno; left; reflexivity).
    destruct (inner_quiet evs1 (Hinner Hfn)) as (Hr1 & Hg1 & Hs1 & Hd1).
    destruct (IH (runAfterStopFn ps m fn))
      as (Hcm2 & evs2 & Htr2 & Hr2 & Hg2 & Hs2 & Hd2 & Hlog2 & Hfiles2).
    { intros Hin. apply Hno. right. exact Hin. }
    split; [congruence|].
    exists (EvRun fn :: evs1 ++ evs2).
    rewrite Htr2, Htr1, <- app_assoc. simpl.
    split; [reflexivity|].
    unfold ran, registered in *. simpl. rewrite !omap_app, Hr1, Hg1, Hr2, Hg2.
    split; [reflexivity|]. split; [reflexivity|]. split.
    { constructor; [reflexivity|]. apply Forall_app. auto. }
    split.
    { intros [Hd|Hd]; [discriminate Hd|].
      apply in_app_iff in Hd as [Hd|Hd]; auto. }
    split.
    + intros [->|Hin]; right; apply in_app_iff; auto.
    + intros [->|Hin] fid sf Hsf.
      * destruct (Hfiles1 eq_refl fid sf Hsf).
        split; right; apply in_app_iff; left; assumption.
      * rewrite Hcm1 in Hfiles2. destruct (Hfiles2 Hin fid sf Hsf).
        split; right; apply in_app_iff; right; assumption.
Qed.

Lemma Stop_spec m rest :
  tg (cm m) = {| stopped := false; afterStopFns := fnDestruct :: rest |} ->
  ~ In fnDestruct rest ->
  (Stop ps m).1 = None /\
  cm (Stop ps m).2 =
    with_tg (cm m) {| stopped := true; afterStopFns := [] |} /\
  exists evs,
    trace (Stop ps m).2 =
      trace m ++ EvStop :: evs ++ [EvRun fnDestruct; EvDestruct] /\
    stopEvents (cm m) rest evs.
Proof.
  intros Htg Hno. unfold Stop. rewrite Htg. simpl.
  rewrite fold_left_app. simpl.
  set (m0 := emit (set_cm m (with_tg (cm m)
               {| stopped := true; afterStopFns := fnDestruct :: rest |})) EvStop).
  destruct (runAfterStopFns_spec (rev rest) m0)
    as (Hcm & evs & Htr & Hran & Hreg & Hstep & Hd & Hlog & Hfiles).
  { rewrite <- in_rev. exact Hno. }
  rewrite Hcm, Htr. subst m0. simpl.
  split; [reflexivity|]. split; [reflexivity|].
  exists evs. rewrite <- !app_assoc. simpl.
  split; [reflexivity|].
  split; [exact Hran|]. split; [exact Hreg|]. split; [exact Hstep|].
  split; [exact Hd|]. split.
  - intros Hin. apply Hlog. rewrite <- in_rev. exact Hin.
  - intros Hin. apply Hfiles. rewrite <- in_rev. exact Hin.
Qed.

(** The deferred function of [newContractManager]: with an error in
    [err] it stops the thread group, without one it does nothing. *)
Lemma deferred_failed m e rest :
  err m = Some e ->
  tg (cm m) = {| stopped := false; afterStopFns := fnDestruct :: rest |} ->
  ~ In fnDestruct rest ->
  cm (deferred ps m) =
    with_tg (cm m) {| stopped := true; afterStopFns := [] |} /\
  exists evs,
    trace (deferred ps m) =
      trace m ++ EvStop :: evs ++ [EvRun fnDestruct; EvDestruct] /\
    stopEvents (cm m) rest evs.
Proof.
  intros Herr Htg Hno. unfold deferred. rewrite Herr.
  destruct (Stop_spec m rest Htg Hno) as (_ & Hcm & evs & Htr & Hevs).
  destruct (Stop ps m) as [stopErr m']. simpl in *.
  split; [exact Hcm|]. exists evs. split; [exact Htr | exact Hevs].
Qed.

Lemma deferred_ok m : err m = None -> deferred ps m = m.
Proof. intros H. unfold deferred. rewrite H. reflexivity. Qed.

Lemma append_nil_r (a : string) : a +:+ "" = a.
Proof.
  induction a as [|c a IH]; [reflexivity|].
  change (String c (a +:+ "") = String c a). f_equal. exact IH.
Qed.

Lemma append_assoc (a b c : string) : (a +:+ b) +:+ c = a +:+ (b +:+ c).
Proof.
  induction a as [|x a IH]; [reflexivity|].
  change (String x ((a +:+ b) +:+ c) = String x (a +:+ (b +:+ c))).
  f_equal. exact IH.
Qed.

Lemma includes_ExtendErr (ctx e : string) : includes (ExtendErr ctx (Some e)) e.
Proof.
  exists (ctx +:+ ": "), "". simpl.
  rewrite append_nil_r, append_assoc. reflexivity.
Qed.

Lemma includes_self (e : string) : includes (Some e) e.
Proof. exists "", "". simpl. rewrite append_nil_r. reflexivity. Qed.

(** How a failing run ends, from the state in which the body returns:
    [err] holds an error and the thread group has [dependencies.destruct]
    registered first and [rest] after it. *)
Lemma failure_ends dir m retErr e rest :
  body deps ps dir = (None, retErr, m) ->
  err m = Some e ->
  tg (cm m) = {| stopped := false; afterStopFns := fnDestruct :: rest |} ->
  registered (trace m) = fnDestruct :: rest ->
  ran (trace m) = [] ->
  ~ In fnDestruct rest ->
  (newContractManager deps ps dir).1 = (None, retErr) /\
  shutdownComplete (newContractManager deps ps dir).2 /\
  cm (newContractManager deps ps dir).2 =
    with_tg (cm m) {| stopped := true; afterStopFns := [] |} /\
  exists evs,
    trace (newContractManager deps ps dir).2 =
      trace m ++ EvStop :: evs ++ [EvRun fnDestruct; EvDestruct] /\
    stopEvents (cm m) rest evs.
Proof.
  intros Hbody Herr Htg Hreg Hran Hno.
  unfold newContractManager. rewrite Hbody. simpl.
  destruct (deferred_failed m e rest Herr Htg Hno) as (Hcm & evs & Htr & Hevs).
  split; [reflexivity|]. split; [|split; [exact Hcm|]].
  - unfold shutdownComplete. rewrite Hcm, Htr. simpl.
    split; [reflexivity|]. split; [reflexivity|].
    destruct Hevs as (Hr & Hg & _).
    unfold ran, registered in *.
    rewrite !omap_app. simpl. rewrite !omap_app. simpl.
    rewrite Hran, Hreg, Hr, Hg. simpl. rewrite app_nil_r. reflexivity.
  - exists evs. split; [exact Htr | exact Hevs].
Qed.

(** Evaluate the body of [newContractManager] along the answers given by
    the hypotheses. *)
Ltac run_body :=
  unfold body; simpl;
  repeat match goal with
         | H : _ = Some _ |- _ => rewrite H; simpl
         | H : _ = None |- _ => rewrite H; simpl
         | H : _ = true |- _ => rewrite H; simpl
         | H : _ = false |- _ => rewrite H; simpl
         end;
  reflexivity.

Ltac failing_run :=
  unfold failsWith;
  match goal with
  | |- _ /\ includes _ ?e /\ _ =>
      edestruct (failure_ends) as (Hres & Hdone & _);
      [ run_body | reflexivity | reflexivity | reflexivity | reflexivity
      | simpl; intuition discriminate
      | rewrite Hres; simpl; split; [reflexivity|]; split; [|exact Hdone] ]
  end.

(** C2.  Whichever stage of startup fails (creating the persist
    directory, creating the logger, loading the settings, loading the
    WAL, spawning the sync loop, or the "erroredStartup" disruption),
    [newContractManager] returns a nil manager and an error whose message
    contains the message of the underlying failure, and by then the
    thread group has been stopped and every closure registered with
    [AfterStop] up to the failure has been invoked. *)
Theorem newContractManager_failure (dir : string) :
  (forall e, mkdirAll deps dir 448 = Some e -> failsWith deps ps dir e) /\
  (forall e, mkdirAll deps dir 448 = None ->
     newLogger deps (filepath_Join dir logFile) = Some e ->
     failsWith deps ps dir e) /\
  (forall e, mkdirAll deps dir 448 = None ->
     newLogger deps (filepath_Join dir logFile) = None ->
     (loadSettings ps).1.1 = Some e ->
     failsWith deps ps dir e) /\
  (forall e, mkdirAll deps dir 448 = None ->
     newLogger deps (filepath_Join dir logFile) = None ->
     (loadSettings ps).1.1 = None ->
     (wal_load ps (loadSettings ps).2).1 = Some e ->
     failsWith deps ps dir e) /\
  (forall e, mkdirAll deps dir 448 = None ->
     newLogger deps (filepath_Join dir logFile) = None ->
     (loadSettings ps).1.1 = None ->
     (wal_load ps (loadSettings ps).2).1 = None ->
     wal_spawnSyncLoop ps = Some e ->
     failsWith deps ps dir e) /\
  (mkdirAll deps dir 448 = None ->
     newLogger deps (filepath_Join dir logFile) = None ->
     (loadSettings ps).1.1 = None ->
     (wal_load ps (loadSettings ps).2).1 = None ->
     wal_spawnSyncLoop ps = None ->
     disrupt deps "erroredStartup" = true ->
     failsWith deps ps dir "startup disrupted").
Proof.
  split; [|split; [|split; [|split; [|split]]]]; intros.
  all: failing_run.
  all: first [apply includes_ExtendErr | apply includes_self].
Qed.

(** Split on what the outside answers at each stage of startup. *)
Ltac oracle_split dir :=
  destruct (mkdirAll deps dir 448) as [?e|] eqn:Hmk;
  [| destruct (newLogger deps (filepath_Join dir logFile)) as [?e|] eqn:Hnl;
     [| destruct ((loadSettings ps).1.1) as [?e|] eqn:Hls;
        [| destruct ((wal_load ps (loadSettings ps).2).1) as [?e|] eqn:Hwl;
           [| destruct (wal_spawnSyncLoop ps) as [?e|] eqn:Hsp;
              [| destruct (disrupt deps "erroredStartup") eqn:Hdi ]]]]].

(** The failing run of the current goal: its results [Hres], its trace [Htr] and the
    events [Hevs] of its shutdown. *)
Ltac failing_trace Hres evs Htr Hevs :=
  edestruct failure_ends as (Hres & _ & Hcm & evs & Htr & Hevs);
  [ run_body | reflexivity | reflexivity | reflexivity | reflexivity
  | simpl; intuition discriminate | ].

(** The run in which nothing fails. *)
Lemma success_run dir :
  mkdirAll deps dir 448 = None ->
  newLogger deps (filepath_Join dir logFile) = None ->
  (loadSettings ps).1.1 = None ->
  (wal_load ps (loadSettings ps).2).1 = None ->
  wal_spawnSyncLoop ps = None ->
  disrupt deps "erroredStartup" = false ->
  exists c,
    newContractManager deps ps dir =
      (Some c, None,
       {| cm := c; err := None;
          trace := [EvInit; EvAfterStop fnDestruct; EvMkdirAll dir 448;
                    EvNewLogger (filepath_Join dir logFile);
                    EvAfterStop fnCloseLogger; EvLoadSettings; EvWalLoad;
                    EvAfterStop fnUnloadFiles; EvLoadSectorLocations;
                    EvSpawnSyncLoop; EvDisrupt "erroredStartup"] |}) /\
    tg c = {| stopped := false;
              afterStopFns := [fnDestruct; fnCloseLogger; fnUnloadFiles] |} /\
    sectorSalt c = (loadSettings ps).1.2 /\
    storageFolders c = (wal_load ps (loadSettings ps).2).2 /\
    sectorLocations c =
      loadSectorLocations ps (wal_load ps (loadSettings ps).2).2.
Proof.
  intros Hmk Hnl Hls Hwl Hsp Hdi. eexists.
  split; [|split; [|split; [|split]]].
  - unfold newContractManager, body. simpl.
    rewrite Hmk. simpl. rewrite Hnl. simpl. rewrite Hls. simpl.
    rewrite Hwl. simpl. rewrite Hsp. simpl. rewrite Hdi. simpl.
    reflexivity.
  - reflexivity.
  - reflexivity.
  - reflexivity.
  - reflexivity.
Qed.

Lemma no_step_in_tail (tail : list event) (i : nat) (e : event) :
  Forall (fun e => startupStep e = false) tail ->
  tail !! i = Some e -> startupStep e = true -> False.
Proof.
  intros Hall Hi He. rewrite Forall_lookup in Hall.
  specialize (Hall i e Hi). simpl in Hall. congruence.
Qed.

(** Find where an event can stand in a trace that starts with a known
    list of events: each position of the known part is tried in turn. *)
Ltac locate Hj j :=
  repeat match type of Hj with
         | (_ :: _) !! j = Some _ =>
             destruct j as [|j]; simpl in Hj; [try discriminate Hj|]
         end;
  try discriminate Hj.

(** No step of startup stands among the events of a shutdown. *)
Ltac not_in_shutdown Hj Hns :=
  exfalso;
  apply lookup_app_Some in Hj as [Hj | [_ Hj]];
  [ exact (no_step_in_tail _ _ _ Hns Hj eq_refl)
  | match type of Hj with
    | _ !! ?n = _ =>
        revert Hj; generalize n;
        let m := fresh "n" in let H := fresh "Hn" in
        intros m H; locate H m
    end ].

(** C1.  In every run of [newContractManager], an occurrence of
    [loadSectorLocations] in the trace has the loading of the settings
    and then [wal.load] before it, both of which succeeded; an
    occurrence of the spawning of the sync loop has all three before it,
    in that order; and the index of a manager that started is the one
    [loadSectorLocations] builds from the folders that [wal.load] left. *)
Theorem startup_order (dir : string) :
  (forall j, startupTrace deps ps dir !! j = Some EvLoadSectorLocations ->
     exists h i, (h < i < j)%nat /\
       startupTrace deps ps dir !! h = Some EvLoadSettings /\
       startupTrace deps ps dir !! i = Some EvWalLoad /\
       (loadSettings ps).1.1 = None /\
       (wal_load ps (loadSettings ps).2).1 = None) /\
  (forall k, startupTrace deps ps dir !! k = Some EvSpawnSyncLoop ->
     exists h i j, (h < i)%nat /\ (i < j)%nat /\ (j < k)%nat /\
       startupTrace deps ps dir !! h = Some EvLoadSettings /\
       startupTrace deps ps dir !! i = Some EvWalLoad /\
       startupTrace deps ps dir !! j = Some EvLoadSectorLocations /\
       (loadSettings ps).1.1 = None /\
       (wal_load ps (loadSettings ps).2).1 = None) /\
  (forall c, (newContractManager deps ps dir).1.1 = Some c ->
     sectorLocations c =
       loadSectorLocations ps (wal_load ps (loadSettings ps).2).2).
Proof.
  unfold startupTrace.
  oracle_split dir.
  7: { destruct (success_run dir) as (c & Hrun & _ & _ & _ & Hloc); auto.
       rewrite Hrun. simpl. split; [|split].
       - intros j Hj. locate Hj j. exists 5%nat, 6%nat. repeat split; lia.
       - intros j Hj. locate Hj j.
         exists 5%nat, 6%nat, 8%nat. repeat split; lia.
       - intros c' [= <-]. exact Hloc. }
  all: failing_trace Hres evs Htr Hevs.
  all: destruct Hevs as (_ & _ & Hns & _).
  all: simpl in Htr.
  all: rewrite Htr, Hres; split; [|split; [|discriminate]].
  all: intros j Hj; locate Hj j.
  all: try (not_in_shutdown Hj Hns).
  - exists 5%nat, 6%nat. repeat split; lia.
  - exists 5%nat, 6%nat, 8%nat. repeat split; lia.
  - exists 5%nat, 6%nat. repeat split; lia.
  - exists 5%nat, 6%nat, 8%nat. repeat split; lia.
Qed.

Lemma registered_nil evs fn :
  registered evs = [] -> ~ In (EvAfterStop fn) evs.
Proof.
  unfold registered. induction evs as [|e evs IH]; simpl; [tauto|].
  destruct e; simpl; intros H; try discriminate H.
  all: intros [Hin|Hin]; [discriminate Hin | exact (IH H Hin)].
Qed.

(** A trace that ends in a shutdown with [dependencies.destruct]
    registered first ends in [EvDestruct], and what the other registered
    closures close is closed before. *)
Lemma destruct_last pre evs c rest :
  stopEvents c rest evs ->
  ~ In EvDestruct pre ->
  (forall fn, In (EvAfterStop fn) pre -> fn = fnDestruct \/ In fn rest) ->
  exists before,
    pre ++ EvStop :: evs ++ [EvRun fnDestruct; EvDestruct]
      = before ++ [EvDestruct] /\
    ~ In EvDestruct before /\
    (In (EvAfterStop fnCloseLogger) before -> In EvLogClose before) /\
    (In (EvAfterStop fnUnloadFiles) before ->
     forall fid sf, storageFolders c !! fid = Some sf ->
       In (EvCloseFile (metadataFile sf)) before /\
       In (EvCloseFile (sectorFile sf)) before).
Proof.
  intros (_ & Hreg & _ & Hd & Hlog & Hfiles) Hpre Hfns.
  exists (pre ++ EvStop :: evs ++ [EvRun fnDestruct]).
  assert (Hsplit : forall e,
             In e (pre ++ EvStop :: evs ++ [EvRun fnDestruct]) <->
             In e pre \/ e = EvStop \/ In e evs \/ e = EvRun fnDestruct).
  { intros e. rewrite in_app_iff. simpl. rewrite in_app_iff. simpl.
    intuition congruence. }
  assert (Hafter : forall fn,
             In (EvAfterStop fn) (pre ++ EvStop :: evs ++ [EvRun fnDestruct]) ->
             fn <> fnDestruct -> In fn rest).
  { intros fn Hin Hne. apply Hsplit in Hin as [Hin|[Hin|[Hin|Hin]]];
      try discriminate Hin.
    - destruct (Hfns fn Hin); [contradiction | assumption].
    - exfalso. exact (registered_nil evs fn Hreg Hin). }
  split; [|split; [|split]].
  - rewrite <- !app_assoc. simpl. rewrite <- !app_assoc. reflexivity.
  - intros Hin. apply Hsplit in Hin as [Hin|[Hin|[Hin|Hin]]];
      try discriminate Hin; auto.
  - intros Hin. apply Hsplit. right; right; left.
    apply Hlog, Hafter; [exact Hin | discriminate].
  - intros Hin fid sf Hsf.
    destruct (Hfiles (Hafter _ Hin ltac:(discriminate)) fid sf Hsf).
    split; apply Hsplit; right; right; left; assumption.
Qed.

Lemma registered_shutdown pre evs c rest :
  stopEvents c rest evs ->
  registered (pre ++ EvStop :: evs ++ [EvRun fnDestruct; EvDestruct])
    = registered pre.
Proof.
  intros (_ & Hreg & _). unfold registered in *.
  rewrite omap_app. simpl. rewrite omap_app, Hreg. simpl.
  apply app_nil_r.
Qed.

(** C5.  [newContractManager] hands [dependencies.destruct] to
    [AfterStop] first: the closures registered during startup are an
    initial part of destruct, logger close, file-handle close, never
    empty, and all three when startup succeeds.  Hence, over the life of
    a manager (startup and, if it succeeded, a [Close]), the trace ends
    with the one call of [dependencies.destruct]; if the logger's closure
    was registered the logger is closed before that, and if the
    file-handle closure was registered both handles of every storage
    folder are closed before that. *)
Theorem destruct_runs_last (dir : string) :
  (exists n, (1 <= n)%nat /\
     registered (startupTrace deps ps dir) =
       take n [fnDestruct; fnCloseLogger; fnUnloadFiles]) /\
  (forall c, (newContractManager deps ps dir).1.1 = Some c ->
     afterStopFns (tg c) = [fnDestruct; fnCloseLogger; fnUnloadFiles]) /\
  exists before,
    lifetime deps ps dir = before ++ [EvDestruct] /\
    ~ In EvDestruct before /\
    (In (EvAfterStop fnCloseLogger) before -> In EvLogClose before) /\
    (In (EvAfterStop fnUnloadFiles) before ->
     forall fid sf,
       storageFolders (cm (newContractManager deps ps dir).2) !! fid = Some sf ->
       In (EvCloseFile (metadataFile sf)) before /\
       In (EvCloseFile (sectorFile sf)) before).
Proof.
  unfold lifetime, startupTrace.
  oracle_split dir.
  7: { destruct (success_run dir) as (c & Hrun & Htg & _ & _ & _); auto.
       rewrite Hrun. simpl.
       match goal with
       | |- context [Close ps ?m0] => set (m := m0)
       end.
       destruct (Stop_spec m [fnCloseLogger; fnUnloadFiles])
         as (_ & _ & evs & Htr & Hevs);
         [exact Htg | simpl; intuition discriminate |].
       split; [exists 3%nat; split; [lia | reflexivity]|].
       split; [intros c' [= <-]; rewrite Htg; reflexivity|].
       unfold Close. destruct (Stop ps m) as [e m']. simpl in Htr |- *.
       rewrite Htr.
       apply (destruct_last (trace m) evs c [fnCloseLogger; fnUnloadFiles] Hevs).
       - simpl. intuition discriminate.
       - intros fn Hin. simpl in Hin.
         repeat destruct Hin as [Hin|Hin]; try discriminate Hin;
           try contradiction; injection Hin as <-; simpl; auto. }
  all: failing_trace Hres evs Htr Hevs.
  all: cbv zeta; rewrite Hres, Hcm; cbn [fst snd]; rewrite Htr.
  all: split;
    [ rewrite (registered_shutdown _ _ _ _ Hevs); simpl;
      first [ exists 1%nat; split; [lia | reflexivity]
            | exists 2%nat; split; [lia | reflexivity]
            | exists 3%nat; split; [lia | reflexivity] ] |].
  all: split; [discriminate|].
  all: match goal with
       | |- context [?pre ++ EvStop :: ?ev ++ _] =>
           apply (destruct_last pre ev _ _ Hevs)
       end.
  all: try (simpl; intuition discriminate).
  all: intros fn Hin; simpl in Hin.
  all: repeat destruct Hin as [Hin|Hin]; try discriminate Hin;
         try contradiction; injection Hin as <-; simpl; auto.
Qed.

End ContractManagerFacts.

(** ** The contract manager: sectors *)

Section FacadeFacts.

Import ContractManager.

Variable sectorSize : nat.
Variable managedSectorID : Hash -> Hash -> sectorID.
Variable slotHash : sectorID -> nat.
Variable granularity : nat.
Variable deviceSpace : string -> nat.
Variable merkleRoot : list Byte.byte -> Hash.

(** Reading back what was written at an offset, whatever the file held
    and however short it was. *)
Lemma readAt_writeAt (file : list Byte.byte) (off : nat) (data : list Byte.byte) :
  readAt (writeAt file off data) off (length data) = Some data.
Proof.
  unfold readAt, writeAt.
  set (front := take off file ++ replicate (off - length file) Byte.x00).
  assert (Hfront : length front = off).
  { subst front. rewrite length_app, length_take, length_replicate. lia. }
  rewrite (app_assoc (take off file)). fold front.
  case_decide as Hlen.
  - rewrite (drop_app_length' front) by (symmetry; exact Hfront).
    rewrite take_app_length. reflexivity.
  - exfalso. apply Hlen. rewrite !length_app. lia.
Qed.

Lemma readSlot_writeSlot (file : list Byte.byte) (slot : nat)
    (data : list Byte.byte) :
  length data = sectorSize ->
  readAt (writeAt file (slot * sectorSize) data) (slot * sectorSize) sectorSize
    = Some data.
Proof. intros <-. apply readAt_writeAt. Qed.

Lemma pick_In (cands : list (Z * storageFolder)) :
  forall r c, pick r cands = Some c -> In c cands.
Proof.
  induction cands as [|c0 cands IH]; simpl; intros r c H; [discriminate|].
  destruct (r <? freeSlots c0.2)%nat.
  - injection H as <-. left. reflexivity.
  - right. exact (IH _ _ H).
Qed.

(** A folder chosen for a new sector is one of the manager's folders, is
    available and has a free slot. *)
Lemma chooseFolder_spec cm except id fid sf :
  chooseFolder slotHash cm except id = Some (fid, sf) ->
  storageFolders cm !! fid = Some sf /\ available sf = true /\
  (0 < freeSlots sf)%nat /\ except <> Some fid.
Proof.
  unfold chooseFolder. case_decide as Htotal; [discriminate|].
  intros H. apply pick_In in H. unfold candidates in H.
  apply filter_In in H as [Hin Hok]. simpl in Hok.
  apply andb_prop in Hok as [Hok Hex]. apply andb_prop in Hok as [Hav Hfree].
  split; [|split; [|split]].
  - apply elem_of_map_to_list, list_elem_of_In. exact Hin.
  - exact Hav.
  - apply Nat.ltb_lt. exact Hfree.
  - apply negb_true_iff, bool_decide_eq_false in Hex. exact Hex.
Qed.

(** A sector just placed can be read back. *)
Lemma place_readSector cm except id refs data cm' :
  length data = sectorSize ->
  place sectorSize slotHash cm except id refs data = Some cm' ->
  tg cm' = tg cm /\
  (stopped (tg cm) = false -> readSector sectorSize cm' id = inr data).
Proof.
  intros Hlen. unfold place.
  destruct (chooseFolder slotHash cm except id) as [[fid sf]|] eqn:Hchoose;
    [|discriminate].
  destruct (findSlot slotHash sf id) as [slot|]; [|discriminate].
  intros [= <-]. split; [reflexivity|]. intros Hrun.
  apply chooseFolder_spec in Hchoose as (_ & Hav & _).
  unfold readSector. simpl. rewrite Hrun.
  rewrite lookup_insert_eq. simpl. rewrite lookup_insert_eq. simpl.
  rewrite Hav, (readSlot_writeSlot _ _ _ Hlen). reflexivity.
Qed.


(** *** Content addressing *)

Lemma length_writeAt (file : list Byte.byte) (off : nat) (data : list Byte.byte) :
  (length file <= length (writeAt file off data))%nat.
Proof.
  unfold writeAt.
  rewrite !length_app, length_take, length_replicate, length_drop. lia.
Qed.

(** A write leaves the bytes outside its range as they were. *)
Lemma lookup_writeAt_ne (file : list Byte.byte) (off : nat)
    (data : list Byte.byte) (i : nat) :
  (i < length file)%nat -> (i < off \/ off + length data <= i)%nat ->
  writeAt file off data !! i = file !! i.
Proof.
  intros Hi Hout. unfold writeAt. destruct Hout as [Hlow|Hhigh].
  - rewrite lookup_app_l by (rewrite length_take; lia).
    apply lookup_take_lt. exact Hlow.
  - rewrite lookup_app_r by (rewrite length_take; lia).
    rewrite length_take.
    rewrite lookup_app_r by (rewrite length_replicate; lia).
    rewrite length_replicate.
    rewrite lookup_app_r by lia.
    rewrite lookup_drop. f_equal. lia.
Qed.

(** A write into one slot leaves what can be read from another. *)
Lemma readSlot_writeSlot_ne (file : list Byte.byte) (slot slot' : nat)
    (data data0 : list Byte.byte) :
  length data = sectorSize -> slot <> slot' ->
  readAt file (slot' * sectorSize) sectorSize = Some data0 ->
  readAt (writeAt file (slot * sectorSize) data) (slot' * sectorSize) sectorSize
    = Some data0.
Proof.
  intros Hlen Hne. unfold readAt.
  case_decide as Hin; [|discriminate]. intros [= <-].
  pose proof (length_writeAt file (slot * sectorSize) data) as Hge.
  case_decide as Hin'; [|lia]. f_equal.
  apply list_eq. intros i. rewrite !lookup_take, !lookup_drop.
  case_decide as Hi; [|reflexivity].
  apply lookup_writeAt_ne; [lia|]. rewrite Hlen. nia.
Qed.

(** The probe answers with a slot that is free. *)
Lemma probe_free (u : list bool) :
  forall steps start slot,
    probe u start steps = Some slot -> u !! slot = Some false.
Proof.
  induction steps as [|k IH]; simpl; intros start slot H; [discriminate|].
  destruct (u !! (start mod length u)%nat) as [[|]|] eqn:Hu.
  - exact (IH _ _ H).
  - injection H as <-. exact Hu.
  - exact (IH _ _ H).
Qed.

Lemma findSlot_free sf id slot :
  findSlot slotHash sf id = Some slot -> usage sf !! slot = Some false.
Proof.
  unfold findSlot. case_decide; [discriminate|]. apply probe_free.
Qed.

(** When the index is content-addressed and no other payload has the id
    of [data], no other payload is stored under that id. *)
Lemma contentAddressed_noOtherPayload cm data :
  contentAddressed sectorSize managedSectorID merkleRoot cm ->
  collisionFree sectorSize managedSectorID merkleRoot (sectorSalt cm) data ->
  noOtherPayload sectorSize cm
    (managedSectorID (sectorSalt cm) (merkleRoot data)) data.
Proof.
  intros Hinv Hfree loc sf Hloc Hsf _.
  destruct (Hinv _ _ Hloc) as (sf0 & data0 & Hsf0 & _ & Hlen0 & Hid & Hread).
  rewrite Hsf in Hsf0. injection Hsf0 as <-.
  rewrite Hread. f_equal. apply Hfree; [exact Hlen0 | symmetry; exact Hid].
Qed.

(** Placing a payload under the id of its own Merkle root keeps the index
    content-addressed. *)
Lemma place_contentAddressed cm except refs data cm' :
  length data = sectorSize ->
  contentAddressed sectorSize managedSectorID merkleRoot cm ->
  place sectorSize slotHash cm except
        (managedSectorID (sectorSalt cm) (merkleRoot data)) refs data = Some cm' ->
  contentAddressed sectorSize managedSectorID merkleRoot cm'.
Proof.
  intros Hlen Hinv. unfold place.
  set (id := managedSectorID (sectorSalt cm) (merkleRoot data)).
  destruct (chooseFolder slotHash cm except id) as [[fid sf]|] eqn:Hchoose;
    [|discriminate].
  destruct (findSlot slotHash sf id) as [slot|] eqn:Hslot; [|discriminate].
  intros [= <-].
  apply chooseFolder_spec in Hchoose as (Hfid & _).
  apply findSlot_free in Hslot.
  intros id' loc' Hloc'. simpl in Hloc'. simpl.
  destruct (decide (id' = id)) as [->|Hid'].
  - rewrite lookup_insert_eq in Hloc'. injection Hloc' as <-. simpl.
    eexists _, data. rewrite lookup_insert_eq. simpl.
    split; [reflexivity|]. split.
    { simpl. apply list_lookup_insert_eq.
      apply lookup_lt_Some in Hslot. exact Hslot. }
    split; [exact Hlen|]. split; [reflexivity|].
    exact (readSlot_writeSlot _ _ _ Hlen).
  - rewrite lookup_insert_ne in Hloc' by congruence.
    destruct (Hinv _ _ Hloc') as (sf0 & data0 & Hsf0 & Hused & Hlen0 & Hid0 & Hread).
    destruct (decide (folderID loc' = fid)) as [Hsame|Hother].
    + rewrite Hsame in *. rewrite Hfid in Hsf0. injection Hsf0 as <-.
      assert (Hne : slot <> index loc') by congruence.
      eexists _, data0. rewrite lookup_insert_eq. simpl.
      split; [reflexivity|]. split.
      { simpl. rewrite list_lookup_insert_ne by exact Hne. exact Hused. }
      split; [exact Hlen0|]. split; [exact Hid0|].
      exact (readSlot_writeSlot_ne _ _ _ _ _ Hlen Hne Hread).
    + exists sf0, data0. rewrite lookup_insert_ne by congruence.
      repeat split; assumption.
Qed.

(** [addSector], called with the Merkle root of the payload, keeps the
    index content-addressed, whatever it answers. *)
Lemma addSector_contentAddressed cm data :
  contentAddressed sectorSize managedSectorID merkleRoot cm ->
  contentAddressed sectorSize managedSectorID merkleRoot
    (addSector sectorSize managedSectorID slotHash cm (merkleRoot data) data).2.
Proof.
  intros Hinv. unfold addSector.
  destruct (stopped (tg cm)); [exact Hinv|].
  case_decide as Hlen; [|exact Hinv].
  destruct (sectorLocations cm !! _) as [loc|] eqn:Hloc.
  - destruct (storageFolders cm !! folderID loc) as [sf|] eqn:Hsf;
      [destruct (available sf)|].
    + simpl. intros id' loc' Hloc'. simpl in Hloc'. simpl.
      destruct (decide (id' = managedSectorID (sectorSalt cm) (merkleRoot data)))
        as [->|Hid'].
      * rewrite lookup_insert_eq in Hloc'. injection Hloc' as <-. simpl.
        exact (Hinv _ _ Hloc).
      * rewrite lookup_insert_ne in Hloc' by congruence.
        exact (Hinv _ _ Hloc').
    + destruct (place _ _ _ _ _ _ _) as [cm1|] eqn:Hplace; [|exact Hinv].
      exact (place_contentAddressed _ _ _ _ _ Hlen Hinv Hplace).
    + destruct (place _ _ _ _ _ _ _) as [cm1|] eqn:Hplace; [|exact Hinv].
      exact (place_contentAddressed _ _ _ _ _ Hlen Hinv Hplace).
  - destruct (place _ _ _ _ _ _ _) as [cm1|] eqn:Hplace; [|exact Hinv].
    exact (place_contentAddressed _ _ _ _ _ Hlen Hinv Hplace).
Qed.

(** *** The salt *)

Lemma place_sectorSalt cm except id refs data cm' :
  place sectorSize slotHash cm except id refs data = Some cm' ->
  sectorSalt cm' = sectorSalt cm.
Proof.
  unfold place.
  destruct (chooseFolder slotHash cm except id) as [[fid sf]|]; [|discriminate].
  destruct (findSlot slotHash sf id); [|discriminate].
  intros [= <-]. reflexivity.
Qed.

Lemma addSector_sectorSalt cm root data :
  sectorSalt (addSector sectorSize managedSectorID slotHash cm root data).2
    = sectorSalt cm.
Proof.
  unfold addSector.
  destruct (stopped (tg cm)); [reflexivity|].
  case_decide; [|reflexivity].
  destruct (sectorLocations cm !! _) as [loc|].
  - destruct (storageFolders cm !! folderID loc) as [sf|];
      [destruct (available sf); [reflexivity|]|].
    all: destruct (place _ _ _ _ _ _ _) as [cm1|] eqn:Hplace; [|reflexivity].
    all: simpl; exact (place_sectorSalt _ _ _ _ _ _ Hplace).
  - destruct (place _ _ _ _ _ _ _) as [cm1|] eqn:Hplace; [|reflexivity].
    simpl. exact (place_sectorSalt _ _ _ _ _ _ Hplace).
Qed.

Lemma addSectorBatch_sectorSalt items :
  forall cm,
    sectorSalt (addSectorBatch sectorSize managedSectorID slotHash cm items).2
      = sectorSalt cm.
Proof.
  unfold addSectorBatch.
  assert (H : forall (acc : list (string + sectorID) * ContractManager),
             sectorSalt
               (fold_left
                  (fun (acc : list (string + sectorID) * ContractManager)
                       (item : Hash * list Byte.byte) =>
                     let '(res, cm') :=
                       addSector sectorSize managedSectorID slotHash acc.2
                                 item.1 item.2 in
                     (acc.1 ++ [res], cm'))
                  items acc).2
             = sectorSalt acc.2).
  { induction items as [|item items IH]; intros acc; simpl; [reflexivity|].
    rewrite IH.
    pose proof (addSector_sectorSalt acc.2 item.1 item.2) as Hs.
    destruct (addSector _ _ _ _ _ _) as [res cm1]. exact Hs. }
  intros cm. apply (H ([], cm)).
Qed.

Lemma removeSector_sectorSalt cm id :
  sectorSalt (removeSector cm id).2 = sectorSalt cm.
Proof.
  unfold removeSector.
  destruct (stopped (tg cm)); [reflexivity|].
  destruct (sectorLocations cm !! id); [|reflexivity].
  case_decide; reflexivity.
Qed.

Lemma addStorageFolder_sectorSalt cm dir cap :
  sectorSalt (addStorageFolder sectorSize granularity deviceSpace cm dir cap).2
    = sectorSalt cm.
Proof.
  unfold addStorageFolder.
  destruct (stopped (tg cm)); [reflexivity|].
  destruct (existsb _ _); [reflexivity|].
  destruct (negb _); [reflexivity|].
  destruct (_ <? _)%nat; [reflexivity|].
  destruct (newFolderID cm); reflexivity.
Qed.

Lemma evacuate_sectorSalt cm fid newCap cm' :
  evacuate sectorSize slotHash cm fid newCap = Some cm' ->
  sectorSalt cm' = sectorSalt cm.
Proof.
  unfold evacuate.
  generalize (map_to_list (sectorLocations cm)). intros entries.
  assert (H : forall (acc : option ContractManager) (c : ContractManager),
             fold_left
               (fun (acc : option ContractManager)
                    (e : sectorID * sectorLocation) =>
                  match acc with
                  | None => None
                  | Some cm' =>
                      if bool_decide (folderID e.2 = fid)
                         && (newCap <=? index e.2)%nat
                      then
                        match storageFolders cm' !! fid with
                        | Some sf =>
                            match readAt (sectors sf) (index e.2 * sectorSize)
                                         sectorSize with
                            | Some data =>
                                place sectorSize slotHash cm' (Some fid) e.1
                                      (count e.2) data
                            | None => None
                            end
                        | None => None
                        end
                      else Some cm'
                  end) entries acc = Some c ->
             exists c0, acc = Some c0 /\ sectorSalt c = sectorSalt c0).
  { induction entries as [|e entries IH]; simpl; intros acc c Hc.
    - exists c. split; [exact Hc | reflexivity].
    - apply IH in Hc as (c1 & Hstep & Hsalt).
      destruct acc as [c0|]; [|discriminate].
      exists c0. split; [reflexivity|]. rewrite Hsalt.
      destruct (_ && _); [|congruence].
      destruct (storageFolders c0 !! fid) as [sf|]; [|discriminate].
      destruct (readAt _ _ _) as [data|]; [|discriminate].
      exact (place_sectorSalt _ _ _ _ _ _ Hstep). }
  intros Hc. apply H in Hc as (c0 & [= <-] & Hsalt). exact Hsalt.
Qed.

Lemma resizeStorageFolder_sectorSalt cm fid newCap :
  sectorSalt (resizeStorageFolder sectorSize slotHash cm fid newCap).2
    = sectorSalt cm.
Proof.
  unfold resizeStorageFolder.
  destruct (stopped (tg cm)); [reflexivity|].
  destruct (storageFolders cm !! fid) as [sf|]; [|reflexivity].
  destruct (_ <=? _)%nat; [reflexivity|].
  destruct (evacuate _ _ _ _ _) as [cm1|] eqn:Hev; [|reflexivity].
  simpl. exact (evacuate_sectorSalt _ _ _ _ Hev).
Qed.

Lemma removeStorageFolder_sectorSalt cm fid force :
  sectorSalt (removeStorageFolder sectorSize slotHash cm fid force).2
    = sectorSalt cm.
Proof.
  unfold removeStorageFolder.
  destruct (stopped (tg cm)); [reflexivity|].
  destruct (storageFolders cm !! fid) as [sf|]; [|reflexivity].
  destruct (evacuate _ _ _ _ _) as [cm1|] eqn:Hev.
  - simpl. exact (evacuate_sectorSalt _ _ _ _ Hev).
  - destruct force; reflexivity.
Qed.

(** [Close] runs the closures registered at startup; none of them writes
    a field of the manager other than the thread group. *)
Lemma Close_sectorSalt ps m :
  sectorSalt (cm (Close ps m).2) = sectorSalt (cm m).
Proof.
  unfold Close, Stop.
  destruct (stopped (tg (cm m))); [reflexivity|]. simpl.
  set (m0 := emit _ EvStop).
  assert (H : cm (fold_left (runAfterStopFn ps)
                    (rev (afterStopFns (tg (cm m)))) m0) = cm m0).
  { apply (fold_left_preserves (runAfterStopFn ps) (fun a => cm a = cm m0));
      [|reflexivity].
    intros a fn Ha. rewrite <- Ha.
    exact (proj1 (runAfterStopFn_spec ps a fn)). }
  rewrite H. reflexivity.
Qed.

(** C6.  No operation of the running manager, [Close] included, changes
    [sectorSalt]: after any sequence of operations it is what it was. *)
Theorem sectorSalt_unchanged (ps : persistence) (ops : list operation)
    (m : machine) :
  sectorSalt
    (cm (fold_left
           (perform sectorSize managedSectorID slotHash granularity
                    deviceSpace ps) ops m))
  = sectorSalt (cm m).
Proof.
  apply (fold_left_preserves _ (fun a => sectorSalt (cm a) = sectorSalt (cm m)));
    [|reflexivity].
  intros a op Ha. rewrite <- Ha. destruct op; simpl.
  - apply addSector_sectorSalt.
  - apply addSectorBatch_sectorSalt.
  - apply removeSector_sectorSalt.
  - reflexivity.
  - apply addStorageFolder_sectorSalt.
  - apply resizeStorageFolder_sectorSalt.
  - apply removeStorageFolder_sectorSalt.
  - reflexivity.
  - apply Close_sectorSalt.
Qed.

End FacadeFacts.



(** Startup over [Examples.brokenWal] fails at the fourth stage. *)
Lemma newContractManager_failure_witness :
  ContractManager.failsWith Examples.quietDependencies Examples.brokenWal
    "dir" "checksum mismatch".
Proof.
  apply (proj1 (proj2 (proj2 (proj2
           (newContractManager_failure Examples.quietDependencies
              Examples.brokenWal "dir"))))); reflexivity.
Defined.

(** Over [Examples.soundDisk] the index is loaded as event 8 of startup. *)
Lemma startup_order_witness :
  exists h i, (h < i < 8)%nat /\
    ContractManager.startupTrace Examples.quietDependencies Examples.soundDisk
      "dir" !! h = Some ContractManager.EvLoadSettings /\
    ContractManager.startupTrace Examples.quietDependencies Examples.soundDisk
      "dir" !! i = Some ContractManager.EvWalLoad /\
    (ContractManager.loadSettings Examples.soundDisk).1.1 = None /\
    (ContractManager.wal_load Examples.soundDisk
       (ContractManager.loadSettings Examples.soundDisk).2).1 = None.
Proof.
  apply (proj1 (startup_order Examples.quietDependencies Examples.soundDisk
                  "dir") 8%nat).
  vm_compute. reflexivity.
Defined.

(** The output worth 50 to the one known key is recorded by an applied
    diff of the change. *)
Lemma ProcessConsensusChange_records_witness :
  Wallet.siacoinOutputs Examples.oneKeyScanner !! 900%N
    = Some {| Wallet.id := 900%N; Wallet.value := 50%N; Wallet.seedIndex := 3 |} \/
  exists d, In d (Wallet.SiacoinOutputDiffs Examples.someChange) /\
    Wallet.Direction d = Wallet.DiffApply /\ Wallet.ID d = 900%N /\
    Wallet.keys Examples.oneKeyScanner !! Wallet.UnlockHash (Wallet.SiacoinOutput_ d)
      = Some 3 /\
    (Wallet.dustThreshold Examples.oneKeyScanner
       < Wallet.Value (Wallet.SiacoinOutput_ d))%N /\
    {| Wallet.id := 900%N; Wallet.value := 50%N; Wallet.seedIndex := 3 |}
      = {| Wallet.id := 900%N;
           Wallet.value := Wallet.Value (Wallet.SiacoinOutput_ d);
           Wallet.seedIndex := 3 |}.
Proof.
  apply (proj1 ProcessConsensusChange_records Examples.oneKeyScanner
           Examples.someChange 900%N
           {| Wallet.id := 900%N; Wallet.value := 50%N; Wallet.seedIndex := 3 |}).
  vm_compute. reflexivity.
Defined.

(** ** Runs on concrete inputs *)

(** The payload added to [Examples.smallManager] lands in slot 1 of the
    folder: the probe starts at [16 mod 4 = 0], which is taken. *)
Example addSector_example :
  ContractManager.sectorLocations
    (ContractManager.addSector 2 Examples.idOf N.to_nat Examples.smallManager
       5%N Examples.payload).2 !! 16%N
  = Some {| ContractManager.folderID := 0; ContractManager.index := 1;
            ContractManager.count := 1 |}.
Proof. vm_compute. reflexivity. Qed.

(** The same content added twice: one slot in use for it, reference
    count 2. *)
Example addSector_twice_example :
  ContractManager.sectorLocations
    (ContractManager.addSector 2 Examples.idOf N.to_nat Examples.onceAdded
       5%N Examples.payload).2 !! 16%N
  = Some {| ContractManager.folderID := 0; ContractManager.index := 1;
            ContractManager.count := 2 |} /\
  ContractManager.usage <$>
    ContractManager.storageFolders
      (ContractManager.addSector 2 Examples.idOf N.to_nat Examples.onceAdded
         5%N Examples.payload).2 !! 0
  = Some [true; true; false; false].
Proof. split; vm_compute; reflexivity. Qed.

(** A payload of the wrong size is refused and nothing changes. *)
Example addSector_size_example :
  ContractManager.addSector 2 Examples.idOf N.to_nat Examples.smallManager
    5%N [Byte.x2a]
  = (inl "size mismatch", Examples.smallManager).
Proof. reflexivity. Qed.

(** Startup over a WAL that cannot be loaded: the error names the cause,
    and the logger is closed before [dependencies.destruct] runs; the
    file-handle closure was never registered. *)
Example newContractManager_brokenWal :
  (ContractManager.newContractManager Examples.quietDependencies
     Examples.brokenWal "dir").1
  = (None, Some "error while loading the WAL at startup: checksum mismatch") /\
  ContractManager.ran
    (ContractManager.startupTrace Examples.quietDependencies
       Examples.brokenWal "dir")
  = [ContractManager.fnCloseLogger; ContractManager.fnDestruct].
Proof. split; vm_compute; reflexivity. Qed.

(** A whole life over a sound disk: startup, then [Close]. *)
Example lifetime_soundDisk :
  ContractManager.lifetime Examples.quietDependencies Examples.soundDisk "dir"
  = [ContractManager.EvInit;
     ContractManager.EvAfterStop ContractManager.fnDestruct;
     ContractManager.EvMkdirAll "dir" 448;
     ContractManager.EvNewLogger "dir/contractmanager.log";
     ContractManager.EvAfterStop ContractManager.fnCloseLogger;
     ContractManager.EvLoadSettings;
     ContractManager.EvWalLoad;
     ContractManager.EvAfterStop ContractManager.fnUnloadFiles;
     ContractManager.EvLoadSectorLocations;
     ContractManager.EvSpawnSyncLoop;
     ContractManager.EvDisrupt "erroredStartup";
     ContractManager.EvStop;
     ContractManager.EvRun ContractManager.fnUnloadFiles;
     ContractManager.EvWalLock;
     ContractManager.EvCloseFile 0;
     ContractManager.EvCloseFile 1;
     ContractManager.EvWalUnlock;
     ContractManager.EvRun ContractManager.fnCloseLogger;
     ContractManager.EvLogClose;
     ContractManager.EvRun ContractManager.fnDestruct;
     ContractManager.EvDestruct].
Proof. vm_compute. reflexivity. Qed.

(** The scanner records the output worth 50 and not the one worth exactly
    the dust threshold of 10. *)
Example ProcessConsensusChange_example :
  let s := Wallet.seedScanner_generateKeys (fun _ i => Z.to_N i)
             Examples.dustyScanner 1000 in
  let s' := Wallet.ProcessConsensusChange s Examples.someChange in
  Wallet.siacoinOutputs s' !! 900%N
    = Some {| Wallet.id := 900%N; Wallet.value := 50%N; Wallet.seedIndex := 3 |} /\
  Wallet.siacoinOutputs s' !! 901%N = None /\
  Wallet.largestIndexSeen s' = 700 /\
  Wallet.numKeys s' = 1000.
Proof. vm_compute. repeat split; reflexivity. Qed.

(** With the testing constants and an empty chain, [scan] stops after its
    first pass: none of the 1000 keys was seen. *)
Example scan_example :
  match Wallet.scan Build.testing (fun _ i => Z.to_N i) 1
          (Wallet.newSeedScanner 7%N) (fun _ => ([], None)) with
  | Some (r, s', its) => r = None /\ Wallet.numKeys s' = 1000 /\ length its = 1%nat
  | None => False
  end.
Proof. vm_compute. repeat split; reflexivity. Qed.

(** * Further properties *)

(** ** The seed scanner *)

Section ScannerFacts.

Import Wallet ScanNotions.

Variable release : Build.Release.
Variable keyUnlockHash : Seed -> Z -> Hash.

Lemma updateOutput_largestIndexSeen s d :
  largestIndexSeen (updateOutput s d) = largestIndexSeen s.
Proof.
  unfold updateOutput.
  destruct (Direction d); destruct (keys s !! _); try case_decide; reflexivity.
Qed.

Lemma updateOutputs_largestIndexSeen (l : list SiacoinOutputDiff) s :
  largestIndexSeen (fold_left updateOutput l s) = largestIndexSeen s.
Proof.
  apply (fold_left_preserves updateOutput
           (fun a => largestIndexSeen a = largestIndexSeen s)); [|reflexivity].
  intros a d Ha. rewrite updateOutput_largestIndexSeen. exact Ha.
Qed.

(** The second and third loops of [ProcessConsensusChange] over a list of
    unlock hashes leave the largest index among the old value and the
    indices of the hashes that are keys. *)
Lemma updateLargests_spec (hs : list Hash) :
  forall s,
    let s' := fold_left updateLargest hs s in
    keys s' = keys s /\
    largestIndexSeen s <= largestIndexSeen s' /\
    (forall h i, In h hs -> keys s !! h = Some i -> i <= largestIndexSeen s') /\
    (largestIndexSeen s' = largestIndexSeen s \/
     exists h, In h hs /\ keys s !! h = Some (largestIndexSeen s')).
Proof.
  induction hs as [|h hs IH]; simpl; intros s.
  - split; [reflexivity|]. split; [lia|]. split; [intros ? ? []|]. left. reflexivity.
  - destruct (IH (updateLargest s h)) as (Hk & Hmono & Hall & Hmax).
    assert (Hstep : keys (updateLargest s h) = keys s /\
                    largestIndexSeen s <= largestIndexSeen (updateLargest s h) /\
                    (forall i, keys s !! h = Some i ->
                               i <= largestIndexSeen (updateLargest s h)) /\
                    (largestIndexSeen (updateLargest s h) = largestIndexSeen s \/
                     keys s !! h = Some (largestIndexSeen (updateLargest s h)))).
    { unfold updateLargest. destruct (keys s !! h) as [i|] eqn:Hi.
      - case_decide; simpl.
        + split; [reflexivity|]. split; [lia|].
          split; [intros ? [= <-]; lia|]. right. reflexivity.
        + split; [reflexivity|]. split; [lia|].
          split; [intros ? [= <-]; lia|]. left. reflexivity.
      - split; [reflexivity|]. split; [lia|].
        split; [discriminate|]. left. reflexivity. }
    destruct Hstep as (Hk1 & Hmono1 & Hh & Hmax1).
    split; [congruence|]. split; [lia|]. split.
    + intros h' i [<-|Hin] Hi.
      * specialize (Hh i Hi). lia.
      * apply (Hall h' i Hin). rewrite Hk1. exact Hi.
    + destruct Hmax as [Heq | (h' & Hin & Hi)].
      * rewrite Heq. destruct Hmax1 as [Heq1 | Hi1].
        -- left. exact Heq1.
        -- right. exists h. split; [left; reflexivity | exact Hi1].
      * right. exists h'. split; [right; exact Hin|]. rewrite <- Hk1. exact Hi.
Qed.

(** X1.  [ProcessConsensusChange] changes only the recorded outputs and
    [largestIndexSeen]: the key table, the seed and the dust threshold stay
    as they are, and [largestIndexSeen] never decreases. *)
Theorem ProcessConsensusChange_frame (s : seedScanner) (cc : ConsensusChange) :
  keys (ProcessConsensusChange s cc) = keys s /\
  seed (ProcessConsensusChange s cc) = seed s /\
  dustThreshold (ProcessConsensusChange s cc) = dustThreshold s /\
  largestIndexSeen s <= largestIndexSeen (ProcessConsensusChange s cc).
Proof.
  destruct (ProcessConsensusChange_same_keys s cc) as (Hk & Hs & Hd).
  split; [exact Hk|]. split; [exact Hs|]. split; [exact Hd|].
  unfold ProcessConsensusChange.
  set (s1 := fold_left updateOutput (SiacoinOutputDiffs cc) s).
  set (hs1 := map (fun d => UnlockHash (SiacoinOutput_ d)) (SiacoinOutputDiffs cc)).
  set (hs2 := map (fun d => sfUnlockHash (SiafundOutput_ d)) (SiafundOutputDiffs cc)).
  destruct (updateLargests_spec hs1 s1) as (_ & H1 & _).
  destruct (updateLargests_spec hs2 (fold_left updateLargest hs1 s1)) as (_ & H2 & _).
  assert (H0 : largestIndexSeen s1 = largestIndexSeen s)
    by apply updateOutputs_largestIndexSeen.
  lia.
Qed.

(** X2.  After [ProcessConsensusChange], [largestIndexSeen] is the largest
    of its old value and the seed indices of the keys named by the siacoin
    and siafund output diffs of the change: it is at least each of them,
    and it is one of them. *)
Theorem ProcessConsensusChange_largestIndexSeen (s : seedScanner)
    (cc : ConsensusChange) :
  let s' := ProcessConsensusChange s cc in
  (forall d i, In d (SiacoinOutputDiffs cc) ->
     keys s !! UnlockHash (SiacoinOutput_ d) = Some i ->
     i <= largestIndexSeen s') /\
  (forall d i, In d (SiafundOutputDiffs cc) ->
     keys s !! sfUnlockHash (SiafundOutput_ d) = Some i ->
     i <= largestIndexSeen s') /\
  (largestIndexSeen s' = largestIndexSeen s \/
   (exists d, In d (SiacoinOutputDiffs cc) /\
      keys s !! UnlockHash (SiacoinOutput_ d) = Some (largestIndexSeen s')) \/
   (exists d, In d (SiafundOutputDiffs cc) /\
      keys s !! sfUnlockHash (SiafundOutput_ d) = Some (largestIndexSeen s'))).
Proof.
  unfold ProcessConsensusChange.
  set (s1 := fold_left updateOutput (SiacoinOutputDiffs cc) s).
  set (hs1 := map (fun d => UnlockHash (SiacoinOutput_ d)) (SiacoinOutputDiffs cc)).
  set (hs2 := map (fun d => sfUnlockHash (SiafundOutput_ d)) (SiafundOutputDiffs cc)).
  set (s2 := fold_left updateLargest hs1 s1).
  destruct (updateOutputs_same_keys (SiacoinOutputDiffs cc) s) as (Hk1 & _ & _).
  fold s1 in Hk1.
  assert (H0 : largestIndexSeen s1 = largestIndexSeen s)
    by apply updateOutputs_largestIndexSeen.
  destruct (updateLargests_spec hs1 s1) as (Hk2 & Hm2 & Hall2 & Hmax2).
  fold s2 in Hk2, Hm2, Hall2, Hmax2.
  destruct (updateLargests_spec hs2 s2) as (Hk3 & Hm3 & Hall3 & Hmax3).
  simpl. split; [|split].
  - intros d i Hin Hi.
    assert (i <= largestIndexSeen s2).
    { apply (Hall2 (UnlockHash (SiacoinOutput_ d)) i).
      - subst hs1. apply in_map_iff. exists d. auto.
      - rewrite Hk1. exact Hi. }
    lia.
  - intros d i Hin Hi.
    apply (Hall3 (sfUnlockHash (SiafundOutput_ d)) i).
    + subst hs2. apply in_map_iff. exists d. auto.
    + rewrite Hk2, Hk1. exact Hi.
  - destruct Hmax3 as [Heq3 | (h & Hin & Hi)].
    + rewrite Heq3. destruct Hmax2 as [Heq2 | (h & Hin & Hi)].
      * left. congruence.
      * right. left. subst hs1. apply in_map_iff in Hin as (d & <- & Hd).
        exists d. split; [exact Hd|]. rewrite <- Hk1. exact Hi.
    + right. right. subst hs2. apply in_map_iff in Hin as (d & <- & Hd).
      exists d. split; [exact Hd|]. rewrite <- Hk1, <- Hk2. exact Hi.
Qed.

(** X3.  An output that is applied and then reverted within one change is
    not recorded: for a known key, the recorded outputs after the call are
    the old ones without that id, and exactly the old ones when the id was
    not recorded before. *)
Theorem ProcessConsensusChange_apply_revert (s : seedScanner)
    (d1 d2 : SiacoinOutputDiff) (sf : list SiafundOutputDiff) (i : Z) :
  Direction d1 = DiffApply ->
  Direction d2 = DiffRevert ->
  ID d2 = ID d1 ->
  SiacoinOutput_ d2 = SiacoinOutput_ d1 ->
  keys s !! UnlockHash (SiacoinOutput_ d1) = Some i ->
  let s' := ProcessConsensusChange s
              {| SiacoinOutputDiffs := [d1; d2]; SiafundOutputDiffs := sf |} in
  siacoinOutputs s' = delete (ID d1) (siacoinOutputs s) /\
  (siacoinOutputs s !! ID d1 = None -> siacoinOutputs s' = siacoinOutputs s).
Proof.
  intros Hd1 Hd2 Hid Hout Hkey. simpl.
  assert (H : siacoinOutputs
                (ProcessConsensusChange s
                   {| SiacoinOutputDiffs := [d1; d2]; SiafundOutputDiffs := sf |})
              = delete (ID d1) (siacoinOutputs s)).
  { rewrite ProcessConsensusChange_outputs. simpl.
    destruct (updateOutput_same_keys s d1) as (Hk & _ & _).
    rewrite (updateOutput_revert _ d2 i Hd2) by (rewrite Hk, Hout; exact Hkey).
    rewrite Hid. unfold updateOutput. rewrite Hd1, Hkey.
    case_decide; simpl; [|reflexivity].
    apply delete_insert_eq. }
  split; [exact H|]. intros Hnone. rewrite H. apply delete_id. exact Hnone.
Qed.

Lemma updateOutput_wf s d : outputs_wf s -> outputs_wf (updateOutput s d).
Proof.
  intros Hwf oid o Ho.
  destruct (updateOutput_same_keys s d) as (Hk & _ & Hd).
  rewrite Hk, Hd.
  apply updateOutput_cases in Ho as [Ho | (_ & Hid & Hkey & Hval & Heq)].
  - exact (Hwf oid o Ho).
  - split; [rewrite Heq; reflexivity|]. split.
    + rewrite Heq. simpl. exact Hval.
    + eexists. exact Hkey.
Qed.

Lemma updateLargest_wf s h : outputs_wf s -> outputs_wf (updateLargest s h).
Proof.
  intros Hwf oid o Ho.
  destruct (updateLargest_same_keys s h) as (Hk & _ & Hd).
  rewrite Hk, Hd. rewrite updateLargest_outputs in Ho. exact (Hwf oid o Ho).
Qed.

(** X4.  [ProcessConsensusChange] keeps the recorded outputs well formed:
    if every recorded output is filed under its own id, is worth more than
    the dust threshold and carries the seed index of a key, the same holds
    after the call. *)
Theorem ProcessConsensusChange_outputs_wf (s : seedScanner)
    (cc : ConsensusChange) :
  outputs_wf s -> outputs_wf (ProcessConsensusChange s cc).
Proof.
  intros Hwf. unfold ProcessConsensusChange.
  repeat (apply (fold_left_preserves _ outputs_wf);
          [ intros a b Ha;
            first [ exact (updateOutput_wf a b Ha) | exact (updateLargest_wf a b Ha) ]
          | ]).
  exact Hwf.
Qed.

#[local] Abbreviation generated := (generated keyUnlockHash).
#[local] Abbreviation collision_free := (collision_free keyUnlockHash).

Lemma generated_unique sd (m1 m2 : gmap Hash Z) k :
  generated sd m1 k -> generated sd m2 k -> m1 = m2.
Proof.
  intros [_ H1] [_ H2]. apply map_eq. intros h.
  destruct (m1 !! h) as [i|] eqn:E1.
  - symmetry. apply H2, H1. exact E1.
  - destruct (m2 !! h) as [i|] eqn:E2; [|reflexivity].
    apply H2, H1 in E2. congruence.
Qed.

(** X5.  On a scanner without keys, [generateKeys(n)] files the key of
    every seed index below [n] under that index and nothing else, provided
    no two of these indices share an unlock hash. *)
Theorem generateKeys_indices (s : seedScanner) (n : Z) :
  keys s = ∅ ->
  0 <= n < 2 ^ 64 ->
  collision_free (seed s) n ->
  let s' := seedScanner_generateKeys keyUnlockHash s n in
  numKeys s' = n /\
  (forall i, 0 <= i < n -> keys s' !! keyUnlockHash (seed s) i = Some i) /\
  (forall h i, keys s' !! h = Some i ->
     0 <= i < n /\ h = keyUnlockHash (seed s) i).
Proof.
  intros Hempty Hn Hinj.
  destruct (seedScanner_generateKeys_generated keyUnlockHash s 0 n n)
    as [Hgen Hseed]; [exact Hinj | lia | lia | lia | |].
  { rewrite Hempty. apply generated_empty. }
  simpl in Hgen.
  split; [|split].
  - rewrite (numKeys_generated keyUnlockHash _ (Z.to_nat n)); [lia | | lia].
    exact Hgen.
  - intros i Hi. apply Hgen. split; [lia | reflexivity].
  - intros h i Hh. apply Hgen in Hh. split; [lia | tauto].
Qed.


#[local] Abbreviation maxScanKeys := (maxScanKeys release).
#[local] Abbreviation numInitialKeys := (numInitialKeys release).

Lemma cover_nonneg (j : nat) : forall n, 0 <= n -> 0 <= cover n j.
Proof.
  induction j as [|j IH]; simpl; intros n Hn; [lia|].
  specialize (IH (4 * n)). lia.
Qed.

Lemma scanLoop_passes cs sd :
  collision_free sd maxScanKeys ->
  forall (fuel call : nat) (n : Z) (s : seedScanner) (k j : nat) r s' its,
    seed s = sd ->
    generated sd (keys s) k ->
    Z.of_nat k <= maxScanKeys ->
    (Z.of_nat k < maxScanKeys -> 0 < n /\ Z.of_nat k + n <= maxScanKeys) ->
    maxScanKeys - Z.of_nat k <= cover n j ->
    scanLoop release keyUnlockHash fuel cs call n s = Some (r, s', its) ->
    (length its <= j)%nat.
Proof.
  intros Hinj. pose proof (maxScanKeys_bound release) as Hmax.
  induction fuel as [|fuel IH];
    intros call n s k j r s' its Hsd Hgen Hk Hn Hcov Hrun; [discriminate|].
  rewrite scanLoop_unfold in Hrun.
  assert (Hnum : numKeys s = Z.of_nat k)
    by (apply (numKeys_generated keyUnlockHash); [congruence | lia]).
  rewrite Hnum in Hrun. case_decide as Hlt.
  - destruct (Hn Hlt) as [Hpos Hle]. cbv zeta in Hrun.
    destruct j as [|j]; [simpl in Hcov; lia|]. simpl in Hcov.
    set (s1 := seedScanner_generateKeys keyUnlockHash s n) in *.
    set (s2 := fold_left _ (cs call).1 s1) in *.
    destruct (seedScanner_generateKeys_generated keyUnlockHash s k n maxScanKeys)
      as [Hgen1 Hsd1];
      [rewrite Hsd; exact Hinj | lia | lia | lia | rewrite Hsd; exact Hgen |].
    fold s1 in Hgen1, Hsd1.
    destruct (subscription_same_keys s1 (cs call).1) as (Hk2 & Hs2 & _).
    fold s2 in Hk2, Hs2.
    assert (Hgen2 : generated sd (keys s2) (k + Z.to_nat n))
      by (rewrite Hk2; congruence).
    assert (Hnum2 : numKeys s2 = Z.of_nat k + n).
    { rewrite (numKeys_generated keyUnlockHash s2 (k + Z.to_nat n));
        [lia | congruence | lia]. }
    destruct ((cs call).2) as [e|].
    + injection Hrun as <- <- <-. simpl. lia.
    + case_decide as Hearly.
      * injection Hrun as <- <- <-. simpl. lia.
      * rewrite Hnum2 in Hrun.
        rewrite (u64_small (n * 4)) in Hrun by lia.
        rewrite (u64_small (maxScanKeys - (Z.of_nat k + n))) in Hrun by lia.
        set (n' := if decide (n * 4 > maxScanKeys - (Z.of_nat k + n))
                   then maxScanKeys - (Z.of_nat k + n) else n * 4) in *.
        destruct (scanLoop release keyUnlockHash fuel cs (S call) n' s2)
          as [[[r1 s1'] its1]|] eqn:Hrec; [|discriminate].
        injection Hrun as <- <- <-. simpl.
        apply le_n_S.
        apply (IH (S call) n' s2 (k + Z.to_nat n)%nat j r1 s1' its1);
          [congruence | exact Hgen2 | lia | | | exact Hrec].
        -- intros Hlt'. subst n'. case_decide; lia.
        -- subst n'. case_decide as Hcap.
           ++ destruct j as [|j]; simpl in Hcov |- *; [lia|].
              pose proof (cover_nonneg j
                            (4 * (maxScanKeys - (Z.of_nat k + n)))). lia.
           ++ replace (n * 4) with (4 * n) by lia. lia.
  - injection Hrun as <- <- <-. simpl. lia.
Qed.

(** X7.  [scan] on a scanner without keys makes at most five passes of its
    loop, that is five subscriptions to the consensus set, whatever the
    build and the chain: the batches quadruple from [numInitialKeys] and
    [maxScanKeys] is a hundred times [numInitialKeys]. *)
Theorem scan_passes (cs : ConsensusSet) (s : seedScanner) (fuel : nat)
    (r : option scanError) (s' : seedScanner) (its : list iteration) :
  keys s = ∅ ->
  collision_free (seed s) maxScanKeys ->
  scan release keyUnlockHash fuel s cs = Some (r, s', its) ->
  (length its <= 5)%nat.
Proof.
  intros Hempty Hinj Hrun. unfold scan in Hrun.
  pose proof (numInitialKeys_pos release).
  pose proof (numInitialKeys_le_max release).
  apply (scanLoop_passes cs (seed s) Hinj fuel 0%nat numInitialKeys s 0%nat 5%nat
           r s' its); [reflexivity | | lia | lia | | exact Hrun].
  - rewrite Hempty. apply generated_empty.
  - unfold Wallet.maxScanKeys, Wallet.numInitialKeys. destruct release; simpl; lia.
Qed.

Lemma scanLoop_result cs :
  forall (fuel call : nat) (n : Z) (s : seedScanner) r s' its,
    scanLoop release keyUnlockHash fuel cs call n s = Some (r, s', its) ->
    chained s its s' /\
    (r = None ->
     its <> [] /\ largestIndexSeen s' < numKeys s' / 2) /\
    (forall e, r = Some (errSubscribe e) ->
       exists its0 it, its = its0 ++ [it] /\ subscribeErr it = Some e) /\
    (r = Some errMaxKeys ->
     maxScanKeys <= numKeys s' /\ Forall pass_continues its).
Proof.
  induction fuel as [|fuel IH]; intros call n s r s' its Hrun; [discriminate|].
  rewrite scanLoop_unfold in Hrun. case_decide as Hlt.
  - cbv zeta in Hrun.
    set (s1 := seedScanner_generateKeys keyUnlockHash s n) in *.
    set (s2 := fold_left _ (cs call).1 s1) in *.
    destruct ((cs call).2) as [e|] eqn:Herr.
    + injection Hrun as <- <- <-. simpl.
      split; [auto|]. split; [discriminate|]. split; [|discriminate].
      intros e' [= <-]. exists [], {| batch := n; before := s; after := s2;
                                      subscribeErr := Some e |}.
      split; reflexivity.
    + case_decide as Hearly.
      * injection Hrun as <- <- <-. simpl.
        split; [auto|]. split; [|split; discriminate].
        intros _. split; [discriminate | exact Hearly].
      * match type of Hrun with
        | context [scanLoop _ _ fuel cs (S call) ?n' s2] =>
            destruct (scanLoop release keyUnlockHash fuel cs (S call) n' s2)
              as [[[r1 s1'] its1]|] eqn:Hrec; [|discriminate]
        end.
        injection Hrun as <- <- <-.
        destruct (IH _ _ _ _ _ _ Hrec) as (Hch & Hnil & Hsub & Hmax).
        simpl. split; [auto|]. split; [|split].
        -- intros Hr. destruct (Hnil Hr). split; [discriminate | assumption].
        -- intros e Hr. destruct (Hsub e Hr) as (its0 & it & -> & He).
           eexists (_ :: its0), it. split; [reflexivity | exact He].
        -- intros Hr. destruct (Hmax Hr) as [Hm Hall]. split; [exact Hm|].
           constructor; [|exact Hall]. split; [reflexivity | exact Hearly].
  - injection Hrun as <- <- <-. simpl.
    split; [reflexivity|]. split; [discriminate|]. split; [discriminate|].
    intros _. split; [lia | constructor].
Qed.

(** X8.  What the result of [scan] tells, on any scanner and chain: the
    passes follow one another from the scanner given to the scanner left;
    [nil] is returned only after a pass at whose end less than half of the
    generated keys reach up to the largest index seen; the error of a
    subscription is returned as it is, from the last pass made; and
    [errMaxKeys] is returned only with at least [maxScanKeys] keys, after
    passes that all subscribed and missed the early exit. *)
Theorem scan_result (cs : ConsensusSet) (s : seedScanner) (fuel : nat)
    (r : option scanError) (s' : seedScanner) (its : list iteration) :
  scan release keyUnlockHash fuel s cs = Some (r, s', its) ->
  chained s its s' /\
  (r = None ->
   its <> [] /\ largestIndexSeen s' < numKeys s' / 2) /\
  (forall e, r = Some (errSubscribe e) ->
     exists its0 it, its = its0 ++ [it] /\ subscribeErr it = Some e) /\
  (r = Some errMaxKeys ->
   maxScanKeys <= numKeys s' /\ Forall pass_continues its).
Proof. apply scanLoop_result. Qed.

End ScannerFacts.

(** ** The weight of a host entry *)

Section WeightFacts.

Import Hostdb.

(** The three guards replace what is not positive by 1 and leave the rest:
    the weight is the floor quotient of the guarded fields. *)
Lemma entryWeight_guarded (entry : HostEntry) :
  entryWeight entry =
  Some (Z.max 1 (Freeze entry) * Z.max 1 (Collateral entry)
        / Z.sqrt (Z.max 1 (Price entry))).
Proof.
  destruct (entryWeight_total entry) as (_ & -> & _). f_equal.
  unfold floorFreeze, floorCollateral, floorPrice, Sign, NewCurrency64.
  destruct entry as [p c f]; simpl.
  rewrite (u64_small 1) by lia.
  pose proof (Z.sgn_nonpos p). pose proof (Z.sgn_nonpos c).
  pose proof (Z.sgn_nonpos f).
  repeat (case_decide; simpl in * );
    repeat match goal with
           | |- context [Z.max 1 ?x] =>
               first [rewrite (Z.max_l 1 x) by lia | rewrite (Z.max_r 1 x) by lia]
           end; reflexivity.
Qed.

Lemma sqrt_guarded_pos (p : Z) : 1 <= Z.sqrt (Z.max 1 p).
Proof. change 1 with (Z.sqrt 1) at 1. apply Z.sqrt_le_mono. lia. Qed.

(** X9.  [entryWeight] never divides by zero and never gives a negative
    weight, whatever the entry holds, negative amounts included. *)
Theorem entryWeight_defined (entry : HostEntry) :
  exists w : Currency, entryWeight entry = Some w /\ 0 <= w.
Proof.
  rewrite entryWeight_guarded. eexists. split; [reflexivity|].
  pose proof (sqrt_guarded_pos (Price entry)).
  apply Z.div_pos; nia.
Qed.

(** X10.  The weight orders hosts as its comment intends: an entry that
    freezes at least as much, puts up at least as much collateral and asks
    at most the price of another one weighs at least as much. *)
Theorem entryWeight_monotone (e1 e2 : HostEntry) (w1 w2 : Currency) :
  Freeze e1 <= Freeze e2 ->
  Collateral e1 <= Collateral e2 ->
  Price e2 <= Price e1 ->
  entryWeight e1 = Some w1 ->
  entryWeight e2 = Some w2 ->
  w1 <= w2.
Proof.
  intros Hf Hc Hp. rewrite !entryWeight_guarded. intros [= <-] [= <-].
  pose proof (sqrt_guarded_pos (Price e1)).
  pose proof (sqrt_guarded_pos (Price e2)).
  assert (Hs : Z.sqrt (Z.max 1 (Price e2)) <= Z.sqrt (Z.max 1 (Price e1)))
    by (apply Z.sqrt_le_mono; lia).
  etransitivity.
  - apply (Z.div_le_compat_l _ (Z.sqrt (Z.max 1 (Price e2)))); [nia | lia].
  - apply Z.div_le_mono; [lia | nia].
Qed.

(** X11.  The weight is zero exactly when the product of the guarded freeze
    and collateral is below the integer square root of the guarded price:
    the entries that the guards do not keep from weighing nothing. *)
Theorem entryWeight_zero_iff (entry : HostEntry) :
  entryWeight entry = Some 0 <->
  Z.max 1 (Freeze entry) * Z.max 1 (Collateral entry)
  < Z.sqrt (Z.max 1 (Price entry)).
Proof.
  rewrite entryWeight_guarded.
  pose proof (sqrt_guarded_pos (Price entry)).
  split.
  - intros [= Hq]. apply Z.div_small_iff in Hq; [|lia]. nia.
  - intros Hlt. f_equal. apply Z.div_small. nia.
Qed.

End WeightFacts.

(** ** Instances of the properties above *)

(** An output applied and then reverted in the same change leaves the
    outputs of [Examples.oneKeyScanner] as they were. *)
Lemma ProcessConsensusChange_apply_revert_witness :
  Wallet.siacoinOutputs
    (Wallet.ProcessConsensusChange Examples.oneKeyScanner
       {| Wallet.SiacoinOutputDiffs :=
            [ {| Wallet.Direction := Wallet.DiffApply; Wallet.ID := 900%N;
                 Wallet.SiacoinOutput_ :=
                   {| Wallet.Value := 50%N; Wallet.UnlockHash := 3%N |} |};
              {| Wallet.Direction := Wallet.DiffRevert; Wallet.ID := 900%N;
                 Wallet.SiacoinOutput_ :=
                   {| Wallet.Value := 50%N; Wallet.UnlockHash := 3%N |} |} ];
          Wallet.SiafundOutputDiffs := [] |})
  = delete 900%N (Wallet.siacoinOutputs Examples.oneKeyScanner).
Proof.
  apply (proj1 (ProcessConsensusChange_apply_revert Examples.oneKeyScanner
           {| Wallet.Direction := Wallet.DiffApply; Wallet.ID := 900%N;
              Wallet.SiacoinOutput_ :=
                {| Wallet.Value := 50%N; Wallet.UnlockHash := 3%N |} |}
           {| Wallet.Direction := Wallet.DiffRevert; Wallet.ID := 900%N;
              Wallet.SiacoinOutput_ :=
                {| Wallet.Value := 50%N; Wallet.UnlockHash := 3%N |} |}
           [] 3 eq_refl eq_refl eq_refl eq_refl eq_refl)).
Defined.

(** The outputs of [Examples.oneKeyScanner], none, are well formed, and
    so are those it has after [Examples.someChange]. *)
Lemma ProcessConsensusChange_outputs_wf_witness :
  ScanNotions.outputs_wf
    (Wallet.ProcessConsensusChange Examples.oneKeyScanner Examples.someChange).
Proof.
  apply (ProcessConsensusChange_outputs_wf Examples.oneKeyScanner
           Examples.someChange).
  intros oid o Ho. vm_compute in Ho. discriminate Ho.
Defined.

(** Three keys generated by a new scanner, the key of index [i] hashed to
    [i] itself. *)
Lemma generateKeys_indices_witness :
  Wallet.numKeys
    (Wallet.seedScanner_generateKeys (fun _ i => Z.to_N i)
       (Wallet.newSeedScanner 7%N) 3) = 3.
Proof.
  apply (generateKeys_indices (fun _ i => Z.to_N i)
           (Wallet.newSeedScanner 7%N) 3).
  - reflexivity.
  - lia.
  - intros i j Hi Hj Heq. lia.
Defined.


(** The scan of [ScanExamples.testingScan] returns, after less than five
    passes. *)
Lemma scan_passes_witness :
  ScanExamples.testingScan = Some ScanExamples.testingRun /\
  (length ScanExamples.testingRun.2 <= 5)%nat.
Proof.
  assert (Hrun : ScanExamples.testingScan = Some ScanExamples.testingRun).
  { assert (Hsome : bool_decide (is_Some ScanExamples.testingScan) = true)
      by (vm_compute; reflexivity).
    unfold ScanExamples.testingRun.
    destruct ScanExamples.testingScan as [run|]; [reflexivity|].
    discriminate Hsome. }
  split; [exact Hrun|].
  apply (scan_passes Build.testing (fun _ i => Z.to_N i)
           (fun _ => ([], None)) (Wallet.newSeedScanner 7%N) 1%nat
           ScanExamples.testingRun.1.1 ScanExamples.testingRun.1.2
           ScanExamples.testingRun.2).
  - reflexivity.
  - intros i j Hi Hj Heq. lia.
  - rewrite <- surjective_pairing, <- surjective_pairing. exact Hrun.
Defined.

(** The one pass of that scan starts from the new scanner. *)
Lemma scan_result_witness :
  ScanExamples.testingScan = Some ScanExamples.testingRun /\
  ScanNotions.chained (Wallet.newSeedScanner 7%N) ScanExamples.testingRun.2
    ScanExamples.testingRun.1.2.
Proof.
  assert (Hrun : ScanExamples.testingScan = Some ScanExamples.testingRun).
  { assert (Hsome : bool_decide (is_Some ScanExamples.testingScan) = true)
      by (vm_compute; reflexivity).
    unfold ScanExamples.testingRun.
    destruct ScanExamples.testingScan as [run|]; [reflexivity|].
    discriminate Hsome. }
  split; [exact Hrun|].
  apply (proj1 (scan_result Build.testing (fun _ i => Z.to_N i)
                  (fun _ => ([], None)) (Wallet.newSeedScanner 7%N) 1%nat
                  ScanExamples.testingRun.1.1 ScanExamples.testingRun.1.2
                  ScanExamples.testingRun.2
                  ltac:(rewrite <- surjective_pairing, <- surjective_pairing;
                        exact Hrun))).
Defined.

(** A host that asks less and offers more weighs more. *)
Lemma entryWeight_monotone_witness :
  Hostdb.entryWeight
    {| Hostdb.Price := 4; Hostdb.Collateral := 0; Hostdb.Freeze := 0 |}
    = Some 0 /\
  Hostdb.entryWeight
    {| Hostdb.Price := 1; Hostdb.Collateral := 2; Hostdb.Freeze := 3 |}
    = Some 6 /\
  0 <= 6.
Proof.
  split; [reflexivity|]. split; [reflexivity|].
  apply (entryWeight_monotone
           {| Hostdb.Price := 4; Hostdb.Collateral := 0; Hostdb.Freeze := 0 |}
           {| Hostdb.Price := 1; Hostdb.Collateral := 2; Hostdb.Freeze := 3 |}
           0 6); simpl; (lia || reflexivity).
Defined.

(** ** The negotiation of a contract *)

Section NegotiationFacts.

Import Renter NegotiateNotions.

Variable HashAll : Hash -> SiaPublicKey -> Hash.
Variable GenerateDeterministic : Hash -> N * N.
Variable UnlockConditionsHash : UnlockConditions -> Hash.
Variable Tax : Z -> Currency -> Currency.
Variable MulFloat105 : Currency -> Currency.
Variable Sub : Currency -> Currency -> Currency.
Variable TransactionID : Transaction -> Hash.
Variable FileContractID : Transaction -> Z -> Hash.
Variable B : Type.
Variable StartTransaction : B.
Variable FundSiacoins : B -> Currency -> error * B.
Variable AddFileContract : B -> FileContract -> B.
Variable View : B -> Transaction * list Transaction.
Variable Sign : B -> bool -> string + list Transaction.

#[local] Abbreviation run :=
  (runNegotiateContract HashAll GenerateDeterministic UnlockConditionsHash
     Tax MulFloat105 Sub TransactionID FileContractID
     B StartTransaction FundSiacoins AddFileContract View Sign).
#[local] Abbreviation fileContractFor :=
  (newFileContract HashAll GenerateDeterministic UnlockConditionsHash
     Tax MulFloat105 Sub).
#[local] Abbreviation build :=
  (buildTransaction B StartTransaction FundSiacoins AddFileContract View).

(** The body, opened up to the answers of the outside world. *)
Ltac open_run :=
  unfold runNegotiateContract, negotiateContract;
  unfold bind, check, WriteObject, ReadObject, get, emit, modify_hu,
    modify_renter, ret, fail;
  simpl.

(** One step through the body: split on the next answer of the outside
    world, keeping the equation. *)
Ltac branch :=
  lazymatch goal with
  | |- context [match dial ?w with _ => _ end] => destruct (dial w) eqn:?
  | |- context [match writeObject ?w ?o with _ => _ end] =>
      destruct (writeObject w o) eqn:?
  | |- context [match readHostPublicKey ?w with _ => _ end] =>
      destruct (readHostPublicKey w) eqn:?
  | |- context [match buildTransaction ?b ?s ?f ?a ?v ?fc with _ => _ end] =>
      destruct (buildTransaction b s f a v fc) as [?|[[? ?] ?]] eqn:?
  | |- context [match readResponse ?w with _ => _ end] =>
      destruct (readResponse w) eqn:?
  | |- context [if negb ?b then _ else _] => destruct b eqn:?
  | |- context [match readHostTxnSet ?w with _ => _ end] =>
      destruct (readHostTxnSet w) eqn:?
  | |- context [match Sign ?b ?f with _ => _ end] =>
      destruct (Sign b f) eqn:?
  | |- context [match readSignedHostTxnSet ?w with _ => _ end] =>
      destruct (readSignedHostTxnSet w) eqn:?
  | |- context [if decide ?P then _ else _] => destruct (decide P)
  | |- context [match AcceptTransactionSet ?w ?t with _ => _ end] =>
      destruct (AcceptTransactionSet w t) eqn:?
  end; simpl.

(** X12.  The connection of [negotiateContract].  When the dial fails its
    error is returned as it is and nothing else happens: nothing is written,
    the uploader and the renter are as before.  When it succeeds the first
    thing written is the id of the upload RPC and, on every way out, the
    connection is closed once, as the last thing done. *)
Theorem negotiateContract_connection (w : world) (hu : hostUploader)
    (r : Renter) (filesize duration : Z) (renterAddress : Hash) :
  (forall msg, dial w = Some msg ->
     run w hu r filesize duration renterAddress
     = (Some msg, {| st_hu := hu; st_renter := r; st_events := [] |})) /\
  (dial w = None ->
     exists evs,
       st_events (run w hu r filesize duration renterAddress).2
       = EvWriteObject (ObjRPC RPCUpload) :: evs ++ [EvConnClose] /\
       EvConnClose ∉ evs).
Proof.
  split.
  - intros msg Hdial. open_run. rewrite Hdial. reflexivity.
  - intros Hdial. open_run. rewrite Hdial. simpl.
    repeat branch;
      lazymatch goal with
      | |- exists evs, _ :: ?l = _ /\ _ => exists (removelast l)
      end;
      (split; [reflexivity|]); simpl;
      rewrite ?elem_of_cons, elem_of_nil; intuition discriminate.
Qed.

(** The check of the set the host sends back, lines 175-186. *)
Lemma sameTransactionSets_ids (hostTxnSet txnSet : list Transaction) :
  sameTransactionSets TransactionID hostTxnSet txnSet = true ->
  map TransactionID hostTxnSet = map TransactionID txnSet.
Proof.
  unfold sameTransactionSets. rewrite andb_true_iff, bool_decide_eq_true.
  revert txnSet.
  induction hostTxnSet as [|a l IH]; intros [|b l']; simpl;
    intros [Hlen Hall]; try discriminate Hlen; [reflexivity|].
  apply andb_true_iff in Hall as [Hab Hall].
  apply bool_decide_eq_true in Hab. f_equal; [exact Hab|].
  apply IH. split; [congruence | exact Hall].
Qed.

(** X17.  The set the host sends back passes the check exactly when it has
    the ids of the proposed set, one by one and in the same order. *)
Theorem sameTransactionSets_spec (hostTxnSet txnSet : list Transaction) :
  sameTransactionSets TransactionID hostTxnSet txnSet = true <->
  map TransactionID hostTxnSet = map TransactionID txnSet.
Proof.
  split; [apply sameTransactionSets_ids|].
  unfold sameTransactionSets. rewrite andb_true_iff, bool_decide_eq_true.
  revert txnSet.
  induction hostTxnSet as [|a l IH]; intros [|b l']; simpl;
    intros Hmap; try discriminate Hmap; [split; reflexivity|].
  injection Hmap as Hab Hmap. destruct (IH l' Hmap) as [Hlen Hall].
  split; [congruence|].
  apply andb_true_iff. split; [apply bool_decide_eq_true; exact Hab | exact Hall].
Qed.

(** X13.  A negotiation that fails leaves no trace in the records: the
    renter is as before, contracts included, and so are the uploader's
    contract, settings and last transaction.  (The secret key and the
    unlock conditions may have been set by then.) *)
Theorem negotiateContract_failure_frame (w : world) (hu : hostUploader)
    (r : Renter) (filesize duration : Z) (renterAddress : Hash)
    (msg : string) (st' : state) :
  run w hu r filesize duration renterAddress = (Some msg, st') ->
  st_renter st' = r /\
  contract (st_hu st') = contract hu /\
  settings (st_hu st') = settings hu /\
  lastTxn (st_hu st') = lastTxn hu.
Proof.
  open_run. repeat branch; intros H; try discriminate H;
    injection H as _ <-; simpl; auto.
Qed.

(** X14.  When the transaction builder is dropped.  A negotiation that
    succeeds never drops it.  Nor does one that ends before the proposed
    contract was written to the host: the dial, the exchange of keys or
    the funding failed.  One that fails later drops the builder exactly
    once, as the last thing before the connection is closed. *)
Theorem negotiateContract_Drop (w : world) (hu : hostUploader)
    (r : Renter) (filesize duration : Z) (renterAddress : Hash) :
  let out := run w hu r filesize duration renterAddress in
  let evs := st_events out.2 in
  (out.1 = None -> EvDrop ∉ evs) /\
  (existsb isProposal evs = false -> EvDrop ∉ evs) /\
  (out.1 <> None -> existsb isProposal evs = true ->
   exists pre, evs = pre ++ [EvDrop; EvConnClose] /\ EvDrop ∉ pre).
Proof.
  open_run. repeat branch.
  all: split; [|split]; simpl.
  all: try (intros; rewrite ?elem_of_cons, elem_of_nil; intuition discriminate).
  all: try (intros Hne Hp;
            first [discriminate Hp | exfalso; apply Hne; reflexivity]).
  all: intros _ _;
    lazymatch goal with
    | |- exists pre, ?l = _ /\ _ => exists (removelast (removelast l))
    end;
    (split; [reflexivity|]); simpl;
    rewrite ?elem_of_cons, elem_of_nil; intuition discriminate.
Qed.

(** X15.  A pool that refuses the signed contract as a set of duplicates
    counts as one that took it: the whole negotiation, result, records and
    effects, is the one in front of the pool that answers [nil] there. *)
Theorem negotiateContract_duplicate_set (w : world) (hu : hostUploader)
    (r : Renter) (filesize duration : Z) (renterAddress : Hash) :
  run (with_pool w (forgiving (AcceptTransactionSet w)))
      hu r filesize duration renterAddress
  = run w hu r filesize duration renterAddress.
Proof.
  open_run. unfold forgiving. repeat branch; try reflexivity; try congruence.
Qed.

(** X16.  What a successful negotiation did, in order: it wrote the id of
    the upload RPC, the renter's public key, the proposed set and the set
    signed by the builder, submitted to the pool the set it read last from
    the host (which is compared with nothing), and closed the connection.
    The host had accepted and sent back a set with the ids of the proposed
    one.  The uploader holds the secret key derived from the host's key,
    unlock conditions naming both keys, and a contract with the host's
    address and the start of the proof window. *)
Theorem negotiateContract_success (w : world) (hu : hostUploader)
    (r : Renter) (filesize duration : Z) (renterAddress : Hash)
    (st' : state) :
  run w hu r filesize duration renterAddress = (None, st') ->
  exists hostPublicKey txnBuilder txn parents hostTxnSet signedTxnSet
         signedHostTxnSet,
    readHostPublicKey w = inr hostPublicKey /\
    build (fileContractFor hu r filesize duration renterAddress hostPublicKey)
      = inr (txnBuilder, txn, parents) /\
    readResponse w = inr AcceptResponse /\
    readHostTxnSet w = inr hostTxnSet /\
    map TransactionID hostTxnSet = map TransactionID (parents ++ [txn]) /\
    Sign txnBuilder true = inr signedTxnSet /\
    readSignedHostTxnSet w = inr signedHostTxnSet /\
    st_events st' =
      [EvWriteObject (ObjRPC RPCUpload);
       EvWriteObject (ObjPublicKey (ourPublicKey HashAll GenerateDeterministic r hostPublicKey));
       EvWriteObject (ObjTransactionSet (parents ++ [txn]));
       EvWriteObject (ObjTransactionSet signedTxnSet);
       EvAcceptTransactionSet signedHostTxnSet;
       EvConnClose] /\
    secretKey (st_hu st') = (ourKeys HashAll GenerateDeterministic r hostPublicKey).1 /\
    unlockConditions (st_hu st')
      = newUnlockConditions HashAll GenerateDeterministic r hostPublicKey /\
    IP (contract (st_hu st')) = IPAddress (settings hu) /\
    contractWindowStart (contract (st_hu st')) = u64 (blockHeight r + duration).
Proof.
  open_run. repeat branch; intros H; try discriminate H;
    injection H as <-; simpl.
  all: repeat eexists; try eassumption; try reflexivity.
  all: try (apply sameTransactionSets_ids; assumption).
  all: f_equal; apply String.eqb_eq; assumption.
Qed.

(** What the callers of [negotiateContract] rely on: a failure leaves the
    renter as it was, a success files one contract, under the id kept in
    the uploader, whose settings are never touched. *)
Lemma run_renter (w : world) (hu : hostUploader) (r : Renter)
    (filesize duration : Z) (renterAddress : Hash) :
  let out := run w hu r filesize duration renterAddress in
  settings (st_hu out.2) = settings hu /\
  (out.1 <> None -> st_renter out.2 = r) /\
  (out.1 = None ->
   exists fc, contracts (st_renter out.2)
              = <[ID (contract (st_hu out.2)) := fc]> (contracts r)).
Proof.
  open_run. repeat branch; (split; [reflexivity|]); simpl; split;
    intros H; try reflexivity; try discriminate H;
    try (exfalso; apply H; reflexivity);
    eexists; reflexivity.
Qed.

End NegotiationFacts.

(** The negotiation with [NegotiateNotions.refusingHost] fails after the
    proposal and leaves the records as they were. *)
Lemma negotiateContract_failure_frame_witness :
  Renter.st_renter NegotiateNotions.refusedRun.2 = Examples.someRenter /\
  Renter.contract (Renter.st_hu NegotiateNotions.refusedRun.2)
    = Renter.contract Examples.someUploader /\
  Renter.settings (Renter.st_hu NegotiateNotions.refusedRun.2)
    = Renter.settings Examples.someUploader /\
  Renter.lastTxn (Renter.st_hu NegotiateNotions.refusedRun.2)
    = Renter.lastTxn Examples.someUploader.
Proof.
  apply (negotiateContract_failure_frame (fun h _ => h)
           (fun h => (h, (h + 1)%N))
           (fun _ => 8%N) (fun _ c => (c / 25)%N) (fun c => c) N.sub
           Examples.countID Examples.indexID Renter.Transaction
           Examples.busyStart Examples.busyFund Examples.busyAdd
           Examples.busyView Examples.busySign NegotiateNotions.refusingHost
           Examples.someUploader Examples.someRenter 2 5 33%N
           "host rejected proposed contract: price too low"
           NegotiateNotions.refusedRun.2).
  vm_compute. reflexivity.
Defined.

(** The negotiation with [Examples.agreeingHost] succeeds: the set it
    submitted is the one the host sent last. *)
Lemma negotiateContract_success_witness :
  exists signedHostTxnSet,
    Renter.readSignedHostTxnSet Examples.agreeingHost = inr signedHostTxnSet /\
    In (Renter.EvAcceptTransactionSet signedHostTxnSet)
       (Renter.st_events Examples.busyRun.2).
Proof.
  destruct (negotiateContract_success (fun h _ => h)
              (fun h => (h, (h + 1)%N))
              (fun _ => 8%N) (fun _ c => (c / 25)%N) (fun c => c) N.sub
              Examples.countID Examples.indexID Renter.Transaction
              Examples.busyStart Examples.busyFund Examples.busyAdd
              Examples.busyView Examples.busySign Examples.agreeingHost
              Examples.someUploader Examples.someRenter 2 5 33%N
              Examples.busyRun.2)
    as (hostPublicKey & txnBuilder & txn & parents & hostTxnSet & signedTxnSet
        & signedHostTxnSet & _ & _ & _ & _ & _ & _ & Hread & Hevs & _).
  - vm_compute. reflexivity.
  - exists signedHostTxnSet. split; [exact Hread|].
    rewrite Hevs. simpl. auto 10.
Defined.

(** ** A new host uploader *)

Section UploaderFacts.

Import Renter Uploader.

Variable HashAll : Hash -> SiaPublicKey -> Hash.
Variable GenerateDeterministic : Hash -> N * N.
Variable UnlockConditionsHash : UnlockConditions -> Hash.
Variable Tax : Z -> Currency -> Currency.
Variable MulFloat105 : Currency -> Currency.
Variable Sub : Currency -> Currency -> Currency.
Variable TransactionID : Transaction -> Hash.
Variable FileContractID : Transaction -> Z -> Hash.
Variable B : Type.
Variable StartTransaction : B.
Variable FundSiacoins : B -> Currency -> error * B.
Variable AddFileContract : B -> FileContract -> B.
Variable View : B -> Transaction * list Transaction.
Variable Sign : B -> bool -> string + list Transaction.
Variable SiacoinPrecision : Currency.

#[local] Abbreviation new :=
  (newHostUploader HashAll GenerateDeterministic UnlockConditionsHash
     Tax MulFloat105 Sub TransactionID FileContractID
     B StartTransaction FundSiacoins AddFileContract View Sign
     SiacoinPrecision).
#[local] Abbreviation negotiate :=
  (runNegotiateContract HashAll GenerateDeterministic UnlockConditionsHash
     Tax MulFloat105 Sub TransactionID FileContractID
     B StartTransaction FundSiacoins AddFileContract View Sign).

Lemma Cmp_not_gt (x y : Currency) : ~ Wallet.Cmp x y > 0 -> (x <= y)%N.
Proof.
  unfold Wallet.Cmp. destruct (N.compare_spec x y); intros Hn; lia.
Qed.

(** The body, split on every answer it depends on. *)
Ltac open_new w r settings filesize duration :=
  unfold newHostUploader;
  repeat case_decide; simpl;
  repeat lazymatch goal with
    | |- context [match NextAddress ?rw with _ => _ end] =>
        destruct (NextAddress rw) eqn:?; simpl
    end;
  repeat lazymatch goal with
    | |- context [runNegotiateContract _ _ _ _ _ _ _ _ _ _ _ _ _ _ w ?hu r
                    filesize duration ?a] =>
        let Hrun := fresh "Hrun" in
        pose proof (run_renter HashAll GenerateDeterministic
                      UnlockConditionsHash Tax MulFloat105 Sub TransactionID
                      FileContractID B StartTransaction FundSiacoins
                      AddFileContract View Sign w hu r filesize duration a)
          as Hrun;
        cbv zeta in Hrun;
        destruct (negotiate w hu r filesize duration a) as [[?|] ?];
        simpl in Hrun |- *
    end;
  repeat lazymatch goal with
    | |- context [match dialRevise ?rw with _ => _ end] =>
        destruct (dialRevise rw) eqn:?; simpl
    | |- context [match writeRevise ?rw ?o with _ => _ end] =>
        destruct (writeRevise rw o) eqn:?; simpl
    end.

(** X18.  [newHostUploader] returns an uploader exactly when it returns no
    error.  The uploader it returns is for a host whose price is at most
    [maxPrice], carries the settings given, and names a contract that the
    renter has on file; the cached address is cleared; and the last things
    done were to write, on the connection opened for the revisions, the id
    of the revise RPC and then the id of that contract. *)
Theorem newHostUploader_returns (w : world) (rw : reviseWorld) (r : Renter)
    (cached : Hash) (settings : HostSettings) (filesize duration : Z) :
  let o := new w rw r cached settings filesize duration in
  (uploader o = None <-> err o <> None) /\
  (forall hu, uploader o = Some hu ->
     (Price settings <= maxPrice SiacoinPrecision)%N /\
     Renter.settings hu = settings /\
     is_Some (contracts (renter o) !! ID (contract hu)) /\
     cachedAddress o = zeroUnlockHash /\
     exists pre,
       effects o = pre ++ [EvDialRevise; EvWriteRevise (RevRPC RPCRevise);
                           EvWriteRevise (RevContractID (ID (contract hu)))]).
Proof.
  open_new w r settings filesize duration.
  all: split; [split; [intros; discriminate | intros Hne; try reflexivity;
                       try (exfalso; apply Hne; reflexivity)] |].
  all: try discriminate.
  all: intros hu Hhu; try discriminate Hhu; injection Hhu as <-.
  all: destruct Hrun as (Hset & _ & Hok); destruct (Hok eq_refl) as [fc Hfc].
  all: split; [apply Cmp_not_gt; assumption|].
  all: split; [exact Hset|].
  all: split; [rewrite Hfc, lookup_insert_eq; eexists; reflexivity|].
  all: split; [reflexivity|].
  all: lazymatch goal with
       | |- exists pre, ?l = _ =>
           exists (removelast (removelast (removelast l)))
       end; reflexivity.
Qed.

Ltac effects_mem :=
  rewrite ?elem_of_cons, ?elem_of_nil in *; intuition (try discriminate).

(** X19.  The address cached for negotiations.  The wallet is asked for an
    address only when none is cached.  Once the revision connection is
    dialled, that is once the negotiation has succeeded, the cached
    address is cleared, whatever happens next.  Before that it is kept: a
    cached address stays, and the address obtained from the wallet for a
    negotiation that fails is cached for the next one. *)
Theorem newHostUploader_cachedAddress (w : world) (rw : reviseWorld)
    (r : Renter) (cached : Hash) (settings : HostSettings)
    (filesize duration : Z) :
  let o := new w rw r cached settings filesize duration in
  (cached <> zeroUnlockHash -> EvNextAddress ∉ effects o) /\
  (EvDialRevise ∈ effects o -> cachedAddress o = zeroUnlockHash) /\
  (EvDialRevise ∉ effects o -> cached <> zeroUnlockHash ->
   cachedAddress o = cached) /\
  (EvDialRevise ∉ effects o -> cached = zeroUnlockHash ->
   forall evs, EvNegotiate evs ∈ effects o ->
     exists uc, NextAddress rw = inr uc /\
                cachedAddress o = UnlockConditionsHash uc).
Proof.
  open_new w r settings filesize duration.
  all: split; [|split; [|split]].
  all: try (intros; effects_mem; fail).
  all: try (intros; reflexivity).
  all: try (intros; eexists; split; [eassumption | reflexivity]).
  all: try (intros Hno; exfalso; apply Hno; effects_mem; fail).
  all: try (intros; congruence).
  all: intros; eexists; split; reflexivity.
Qed.

(** X20.  The renter's contracts change exactly when the negotiation
    succeeded: before the revision connection is dialled the renter is as
    it was and no uploader is returned; after it, one contract has been
    filed, and it stays on file also when no uploader is returned for it
    because the dial or one of the two writes failed. *)
Theorem newHostUploader_contracts (w : world) (rw : reviseWorld)
    (r : Renter) (cached : Hash) (settings : HostSettings)
    (filesize duration : Z) :
  let o := new w rw r cached settings filesize duration in
  (EvDialRevise ∉ effects o -> renter o = r /\ uploader o = None) /\
  (EvDialRevise ∈ effects o ->
   exists fcid fc,
     contracts (renter o) = <[fcid := fc]> (contracts r) /\
     (uploader o = None <->
      dialRevise rw <> None \/
      writeRevise rw (RevRPC RPCRevise) <> None \/
      writeRevise rw (RevContractID fcid) <> None)).
Proof.
  open_new w r settings filesize duration.
  all: try destruct Hrun as (Hset & Hfail & Hok).
  all: split.
  all: try (intros Hno; exfalso; apply Hno; effects_mem; fail).
  all: try (intros; effects_mem; fail).
  all: try (intros _; split; [|reflexivity]; try reflexivity;
            apply Hfail; discriminate).
  all: intros _; destruct (Hok eq_refl) as [fc Hfc];
    eexists _, fc; (split; [exact Hfc|]).
  all: split; [intros Hup; try discriminate Hup; rewrite ?Heqe, ?Heqe0, ?Heqe1;
               intuition discriminate
              | intros [Hd|[Hd|Hd]]; try reflexivity; congruence].
Qed.

End UploaderFacts.

(** With a wallet that has an address and a host that answers, an
    uploader is returned and the address is not kept; when the host cannot
    be dialled again, no uploader is returned and the contract stays on
    file. *)
Example newHostUploader_example :
  is_Some (Uploader.uploader
             (UploaderExamples.newUploaderWith UploaderExamples.readyWallet)) /\
  Uploader.cachedAddress
    (UploaderExamples.newUploaderWith UploaderExamples.readyWallet)
  = Uploader.zeroUnlockHash /\
  Uploader.uploader
    (UploaderExamples.newUploaderWith UploaderExamples.goneHost) = None /\
  Uploader.err (UploaderExamples.newUploaderWith UploaderExamples.goneHost)
  = Some "connection refused" /\
  size (Renter.contracts
          (Uploader.renter
             (UploaderExamples.newUploaderWith UploaderExamples.goneHost)))
  = 1%nat.
Proof. vm_compute. repeat split; try reflexivity. eexists; reflexivity. Qed.

(** ** The contract manager: what startup returns and what cleanup hides *)

Section StartupFacts.

Import ContractManager StartupNotions.

Variable deps : dependencies.
Variable ps : persistence.

(** What [stop()] adds to the trace, for the three lists of closures that
    startup can have registered. *)
Lemma Stop_one m :
  tg (cm m) = {| stopped := false; afterStopFns := [fnDestruct] |} ->
  (Stop ps m).1 = None /\
  trace (Stop ps m).2 = trace m ++ [EvStop; EvRun fnDestruct; EvDestruct].
Proof.
  intros Htg. unfold Stop. rewrite Htg. simpl.
  rewrite <- !app_assoc. split; reflexivity.
Qed.

Lemma Stop_two m :
  tg (cm m) =
    {| stopped := false; afterStopFns := [fnDestruct; fnCloseLogger] |} ->
  (Stop ps m).1 = None /\
  trace (Stop ps m).2 =
    trace m ++ [EvStop; EvRun fnCloseLogger; EvLogClose;
                EvRun fnDestruct; EvDestruct].
Proof.
  intros Htg. unfold Stop. rewrite Htg. simpl.
  rewrite <- !app_assoc. split; reflexivity.
Qed.

Lemma Stop_three m :
  tg (cm m) =
    {| stopped := false;
       afterStopFns := [fnDestruct; fnCloseLogger; fnUnloadFiles] |} ->
  (Stop ps m).1 = None /\
  exists files,
    Forall fileEvent files /\
    trace (Stop ps m).2 =
      trace m ++ [EvStop; EvRun fnUnloadFiles; EvWalLock] ++ files
              ++ [EvWalUnlock; EvRun fnCloseLogger; EvLogClose;
                  EvRun fnDestruct; EvDestruct].
Proof.
  intros Htg. unfold Stop. rewrite Htg. simpl. split; [reflexivity|].
  match goal with
  | |- context [fold_left (closeFolder ps) ?l ?m0] =>
      destruct (closeFolders_spec ps l m0) as (_ & files & Htr & Hall & _)
  end.
  cbv zeta in Htr. exists files. split; [exact Hall|].
  rewrite Htr. simpl. rewrite <- !app_assoc. reflexivity.
Qed.

(** A startup that fails: its results are those of the [return] taken and
    its life ends with the [stop()] of the deferred function. *)
Lemma failure_life dir m retErr e :
  body deps ps dir = (None, retErr, m) ->
  err m = Some e ->
  (newContractManager deps ps dir).1 = (None, retErr) /\
  lifetime deps ps dir = trace (Stop ps m).2.
Proof.
  intros Hbody Herr. unfold lifetime, newContractManager. rewrite Hbody.
  simpl. unfold deferred. rewrite Herr.
  destruct (Stop ps m) as [stopErr m']. split; reflexivity.
Qed.

(** The body along the answers at hand. *)
Ltac along_body :=
  unfold body; simpl;
  repeat match goal with
         | H : _ = Some _ |- _ => rewrite H; simpl
         | H : _ = None |- _ => rewrite H; simpl
         | H : _ = true |- _ => rewrite H; simpl
         | H : _ = false |- _ => rewrite H; simpl
         end;
  reflexivity.

(** The lives a manager can have, by the stage at which startup ends:
    whether a manager is returned, and every event from [init] to
    [destruct]. *)
Lemma startup_cases (dir : string) :
  let out := newContractManager deps ps dir in
  let file := filepath_Join dir logFile in
  let life := lifetime deps ps dir in
  let recovered :=
    [EvInit; EvAfterStop fnDestruct; EvMkdirAll dir 448; EvNewLogger file;
     EvAfterStop fnCloseLogger; EvLoadSettings; EvWalLoad;
     EvAfterStop fnUnloadFiles; EvLoadSectorLocations; EvSpawnSyncLoop] in
  let unload files :=
    [EvStop; EvRun fnUnloadFiles; EvWalLock] ++ files
    ++ [EvWalUnlock; EvRun fnCloseLogger; EvLogClose;
        EvRun fnDestruct; EvDestruct] in
  (exists e, mkdirAll deps dir 448 = Some e /\
     out.1.1 = None /\ out.1.2 <> None /\
     life = [EvInit; EvAfterStop fnDestruct; EvMkdirAll dir 448;
             EvStop; EvRun fnDestruct; EvDestruct]) \/
  (exists e, mkdirAll deps dir 448 = None /\ newLogger deps file = Some e /\
     out.1.1 = None /\ out.1.2 <> None /\
     life = [EvInit; EvAfterStop fnDestruct; EvMkdirAll dir 448;
             EvNewLogger file; EvStop; EvRun fnDestruct; EvDestruct]) \/
  (exists e, mkdirAll deps dir 448 = None /\ newLogger deps file = None /\
     (loadSettings ps).1.1 = Some e /\
     out.1.1 = None /\ out.1.2 <> None /\
     life = [EvInit; EvAfterStop fnDestruct; EvMkdirAll dir 448;
             EvNewLogger file; EvAfterStop fnCloseLogger; EvLoadSettings;
             EvLogPrintln "ERROR: Unable to load contract manager settings:" e;
             EvStop; EvRun fnCloseLogger; EvLogClose;
             EvRun fnDestruct; EvDestruct]) \/
  (exists e, mkdirAll deps dir 448 = None /\ newLogger deps file = None /\
     (loadSettings ps).1.1 = None /\
     (wal_load ps (loadSettings ps).2).1 = Some e /\
     out.1.1 = None /\ out.1.2 <> None /\
     life = [EvInit; EvAfterStop fnDestruct; EvMkdirAll dir 448;
             EvNewLogger file; EvAfterStop fnCloseLogger; EvLoadSettings;
             EvWalLoad;
             EvLogPrintln
               "ERROR: Unable to load the contract manager write-ahead-log:" e;
             EvStop; EvRun fnCloseLogger; EvLogClose;
             EvRun fnDestruct; EvDestruct]) \/
  (exists e files, mkdirAll deps dir 448 = None /\ newLogger deps file = None /\
     (loadSettings ps).1.1 = None /\
     (wal_load ps (loadSettings ps).2).1 = None /\
     wal_spawnSyncLoop ps = Some e /\
     out.1.1 = None /\ out.1.2 <> None /\ Forall fileEvent files /\
     life = recovered
            ++ [EvLogPrintln
                  "ERROR: Unable to spawn the contract manager synchronization loop:"
                  e]
            ++ unload files) \/
  (exists files, mkdirAll deps dir 448 = None /\ newLogger deps file = None /\
     (loadSettings ps).1.1 = None /\
     (wal_load ps (loadSettings ps).2).1 = None /\
     wal_spawnSyncLoop ps = None /\ disrupt deps "erroredStartup" = true /\
     out.1.1 = None /\ out.1.2 <> None /\ Forall fileEvent files /\
     life = recovered ++ [EvDisrupt "erroredStartup"] ++ unload files) \/
  (exists c files, allStagesSucceed deps ps dir /\
     out.1.1 = Some c /\ out.1.2 = None /\ Forall fileEvent files /\
     (Close ps out.2).1 = None /\
     trace (Close ps out.2).2 = life /\
     life = recovered ++ [EvDisrupt "erroredStartup"] ++ unload files).
Proof.
  cbv zeta.
  destruct (mkdirAll deps dir 448) as [e|] eqn:Hmk.
  { left. exists e. split; [reflexivity|].
    edestruct failure_life as [Hres Hlife];
      [along_body | reflexivity |].
    rewrite Hres, Hlife.
    match goal with
    | |- context [trace (Stop ps ?m).2] =>
        destruct (Stop_one m eq_refl) as [_ Htr]; rewrite Htr
    end.
    simpl. split; [reflexivity|]. split; [discriminate | reflexivity]. }
  right.
  destruct (newLogger deps (filepath_Join dir logFile)) as [e|] eqn:Hnl.
  { left. exists e. split; [reflexivity|]. split; [reflexivity|].
    edestruct failure_life as [Hres Hlife];
      [along_body | reflexivity |].
    rewrite Hres, Hlife.
    match goal with
    | |- context [trace (Stop ps ?m).2] =>
        destruct (Stop_one m eq_refl) as [_ Htr]; rewrite Htr
    end.
    simpl. split; [reflexivity|]. split; [discriminate | reflexivity]. }
  right.
  destruct ((loadSettings ps).1.1) as [e|] eqn:Hls.
  { left. exists e. do 3 (split; [reflexivity|]).
    edestruct failure_life as [Hres Hlife];
      [along_body | reflexivity |].
    rewrite Hres, Hlife.
    match goal with
    | |- context [trace (Stop ps ?m).2] =>
        destruct (Stop_two m eq_refl) as [_ Htr]; rewrite Htr
    end.
    simpl. split; [reflexivity|]. split; [discriminate | reflexivity]. }
  right.
  destruct ((wal_load ps (loadSettings ps).2).1) as [e|] eqn:Hwl.
  { left. exists e. do 4 (split; [reflexivity|]).
    edestruct failure_life as [Hres Hlife];
      [along_body | reflexivity |].
    rewrite Hres, Hlife.
    match goal with
    | |- context [trace (Stop ps ?m).2] =>
        destruct (Stop_two m eq_refl) as [_ Htr]; rewrite Htr
    end.
    simpl. split; [reflexivity|]. split; [discriminate | reflexivity]. }
  right.
  destruct (wal_spawnSyncLoop ps) as [e|] eqn:Hsp.
  { left.
    edestruct failure_life as [Hres Hlife];
      [along_body | reflexivity |].
    rewrite Hres, Hlife.
    match goal with
    | |- context [trace (Stop ps ?m).2] =>
        destruct (Stop_three m eq_refl) as (_ & files & Hall & Htr); rewrite Htr
    end.
    exists e, files. do 5 (split; [reflexivity|]).
    simpl. split; [reflexivity|]. split; [discriminate|].
    split; [exact Hall | reflexivity]. }
  right.
  destruct (disrupt deps "erroredStartup") eqn:Hdi.
  { left.
    edestruct failure_life as [Hres Hlife];
      [along_body | reflexivity |].
    rewrite Hres, Hlife.
    match goal with
    | |- context [trace (Stop ps ?m).2] =>
        destruct (Stop_three m eq_refl) as (_ & files & Hall & Htr); rewrite Htr
    end.
    exists files. do 6 (split; [reflexivity|]).
    simpl. split; [reflexivity|]. split; [discriminate|].
    split; [exact Hall | reflexivity]. }
  right.
  destruct (success_run deps ps dir) as (c & Hrun & Htg & _); auto.
  unfold lifetime. rewrite Hrun. simpl.
  match goal with
  | |- context [Close ps ?m0] => set (m := m0)
  end.
  destruct (Stop_three m Htg) as (Hnil & files & Hall & Htr).
  exists c, files. split; [repeat split; assumption|].
  do 2 (split; [reflexivity|]). split; [exact Hall|].
  unfold Close. destruct (Stop ps m) as [stopErr m']. simpl in *.
  rewrite Hnil, Htr. repeat split; reflexivity.
Qed.

(** Split on the life of the manager. *)
Ltac lives dir :=
  let H := fresh "Hcases" in
  pose proof (startup_cases dir) as H; cbv zeta in H;
  destruct H as
    [ (e & Hmk & Hnone & Herr & Hlife)
    | [ (e & Hmk & Hnl & Hnone & Herr & Hlife)
      | [ (e & Hmk & Hnl & Hls & Hnone & Herr & Hlife)
        | [ (e & Hmk & Hnl & Hls & Hwl & Hnone & Herr & Hlife)
          | [ (e & files & Hmk & Hnl & Hls & Hwl & Hsp & Hnone & Herr & Hall
               & Hlife)
            | [ (files & Hmk & Hnl & Hls & Hwl & Hsp & Hdi & Hnone & Herr
                 & Hall & Hlife)
              | (c0 & files & Hok & Hsome & Herr & Hall & Hclose & Htrace
                 & Hlife) ]]]]]].

(** X21.  [newContractManager] returns a manager exactly when every stage
    of startup succeeds, and exactly then a [nil] error.  The manager it
    returns has a thread group that is running, with the three closures
    registered and none of them invoked, the salt of the settings and the
    folders the WAL left. *)
Theorem newContractManager_success_iff (dir : string) :
  let out := newContractManager deps ps dir in
  (is_Some out.1.1 <-> allStagesSucceed deps ps dir) /\
  (is_Some out.1.1 <-> out.1.2 = None) /\
  (forall c, out.1.1 = Some c ->
     c = cm out.2 /\
     tg c = {| stopped := false;
               afterStopFns := [fnDestruct; fnCloseLogger; fnUnloadFiles] |} /\
     ran (trace out.2) = [] /\ (EvStop ∉ trace out.2) /\
     sectorSalt c = (loadSettings ps).1.2 /\
     storageFolders c = (wal_load ps (loadSettings ps).2).2).
Proof.
  cbv zeta. lives dir.
  1-6: rewrite Hnone; split; [|split];
    [ split; [intros [? Hc]; discriminate Hc
             | unfold allStagesSucceed; intros Hok; decompose [and] Hok;
               congruence]
    | split; [intros [? Hc]; discriminate Hc | intros He; contradiction]
    | intros c Hc; discriminate Hc ].
  rewrite Hsome, Herr.
  split; [split; [intros _; exact Hok | intros _; eexists; reflexivity]|].
  split; [split; [reflexivity | intros _; eexists; reflexivity]|].
  intros c [= <-].
  destruct Hok as (Hmk & Hnl & Hls & Hwl & Hsp & Hdi).
  destruct (success_run deps ps dir Hmk Hnl Hls Hwl Hsp Hdi)
    as (c' & Hrun & Htg & Hsalt & Hfolders & _).
  rewrite Hrun in Hsome |- *. simpl in Hsome |- *. injection Hsome as ->.
  split; [reflexivity|]. split; [exact Htg|]. split; [reflexivity|].
  split; [|split; assumption].
  rewrite !elem_of_cons, elem_of_nil. intuition discriminate.
Qed.

(** X22.  What closing the logger and the file handles answers during
    the cleanup of a failed startup never reaches the caller: the manager
    and the error returned are those of the stage that failed, the same
    under any other answers.  (The deferred function composes the errors
    into the local [err] only after the results have been fixed.) *)
Theorem newContractManager_hides_cleanup_errors (dir : string)
    (logClose : error) (fileClose : N -> error) :
  (newContractManager deps (with_cleanup ps logClose fileClose) dir).1
  = (newContractManager deps ps dir).1.
Proof.
  unfold newContractManager.
  assert (Hbody : body deps (with_cleanup ps logClose fileClose) dir
                  = body deps ps dir) by reflexivity.
  rewrite Hbody. destruct (body deps ps dir) as [results m]. reflexivity.
Qed.

(** X23.  [Close] on a manager that started returns [nil], whatever
    closing the logger and the file handles answers, and by then the
    three closures have run, the last registered first. *)
Theorem Close_after_startup (dir : string) (c : ContractManager) :
  (newContractManager deps ps dir).1.1 = Some c ->
  let closed := Close ps (newContractManager deps ps dir).2 in
  closed.1 = None /\
  ran (trace closed.2) = [fnUnloadFiles; fnCloseLogger; fnDestruct] /\
  lifetime deps ps dir = trace closed.2.
Proof.
  intros Hc. cbv zeta. lives dir.
  1-6: rewrite Hnone in Hc; discriminate Hc.
  rewrite Hclose, Htrace. split; [reflexivity|]. split; [|reflexivity].
  rewrite Hlife. unfold ran. simpl. rewrite !omap_app. simpl.
  assert (Hfiles : omap (fun e => match e with
                                  | EvRun fn => Some fn
                                  | _ => None
                                  end) files = []).
  { clear -Hall. induction Hall as [|ev evs Hev _ IH]; [reflexivity|].
    destruct ev; simpl in *; try contradiction; exact IH. }
  rewrite Hfiles. reflexivity.
Qed.

Lemma fileEvent_not_LogClose (files : list event) :
  Forall fileEvent files -> EvLogClose ∉ files.
Proof.
  intros Hall Hin. rewrite Forall_forall in Hall.
  exact (Hall EvLogClose Hin).
Qed.

Ltac not_among :=
  rewrite ?elem_of_app, ?elem_of_cons, ?elem_of_nil;
  intuition (try discriminate).

(** X24.  The logger over the life of a manager.  When the logger could
    be created, every line is logged after its creation and before its
    closing, and it is closed once, as the last thing before
    [dependencies.destruct].  When it could not, or the persist directory
    could not be made, nothing is logged and no logger is closed. *)
Theorem logger_lifetime (dir : string) :
  (mkdirAll deps dir 448 = None ->
   newLogger deps (filepath_Join dir logFile) = None ->
   exists pre mid,
     lifetime deps ps dir =
       pre ++ EvNewLogger (filepath_Join dir logFile) :: mid
           ++ [EvLogClose; EvRun fnDestruct; EvDestruct] /\
     Forall (fun e => logEvent e = false) pre /\
     EvLogClose ∉ mid) /\
  (mkdirAll deps dir 448 <> None \/
   newLogger deps (filepath_Join dir logFile) <> None ->
   Forall (fun e => logEvent e = false) (lifetime deps ps dir)).
Proof.
  lives dir; try destruct Hok as (Hmk & Hnl & Hls & Hwl & Hsp & Hdi);
    rewrite Hlife; clear Hlife.
  all: split; [intros Hmk' Hnl'; try congruence
              | intros [Hd|Hd]; try congruence; repeat constructor].
  all: exists [EvInit; EvAfterStop fnDestruct; EvMkdirAll dir 448].
  - exists [EvAfterStop fnCloseLogger; EvLoadSettings;
            EvLogPrintln "ERROR: Unable to load contract manager settings:" e;
            EvStop; EvRun fnCloseLogger].
    split; [reflexivity|]. split; [repeat constructor | not_among].
  - exists [EvAfterStop fnCloseLogger; EvLoadSettings; EvWalLoad;
            EvLogPrintln
              "ERROR: Unable to load the contract manager write-ahead-log:" e;
            EvStop; EvRun fnCloseLogger].
    split; [reflexivity|]. split; [repeat constructor | not_among].
  - exists ([EvAfterStop fnCloseLogger; EvLoadSettings; EvWalLoad;
             EvAfterStop fnUnloadFiles; EvLoadSectorLocations; EvSpawnSyncLoop;
             EvLogPrintln
               "ERROR: Unable to spawn the contract manager synchronization loop:"
               e;
             EvStop; EvRun fnUnloadFiles; EvWalLock]
            ++ files ++ [EvWalUnlock; EvRun fnCloseLogger]).
    split; [simpl; rewrite <- !app_assoc; reflexivity|].
    split; [repeat constructor|].
    pose proof (fileEvent_not_LogClose files Hall). not_among.
  - exists ([EvAfterStop fnCloseLogger; EvLoadSettings; EvWalLoad;
             EvAfterStop fnUnloadFiles; EvLoadSectorLocations; EvSpawnSyncLoop;
             EvDisrupt "erroredStartup";
             EvStop; EvRun fnUnloadFiles; EvWalLock]
            ++ files ++ [EvWalUnlock; EvRun fnCloseLogger]).
    split; [simpl; rewrite <- !app_assoc; reflexivity|].
    split; [repeat constructor|].
    pose proof (fileEvent_not_LogClose files Hall). not_among.
  - exists ([EvAfterStop fnCloseLogger; EvLoadSettings; EvWalLoad;
             EvAfterStop fnUnloadFiles; EvLoadSectorLocations; EvSpawnSyncLoop;
             EvDisrupt "erroredStartup";
             EvStop; EvRun fnUnloadFiles; EvWalLock]
            ++ files ++ [EvWalUnlock; EvRun fnCloseLogger]).
    split; [simpl; rewrite <- !app_assoc; reflexivity|].
    split; [repeat constructor|].
    pose proof (fileEvent_not_LogClose files Hall). not_among.
Qed.

(** X25.  The file handles over the life of a manager.  When startup
    fails before the WAL is loaded, no file handle is closed and the lock
    of the WAL is never taken, whatever folders the settings named.  When
    the WAL is loaded, the handles are closed in one go, between one
    taking and one release of the lock of the WAL, and nowhere else. *)
Theorem handles_lifetime (dir : string) :
  (mkdirAll deps dir 448 <> None \/
   newLogger deps (filepath_Join dir logFile) <> None \/
   (loadSettings ps).1.1 <> None \/
   (wal_load ps (loadSettings ps).2).1 <> None ->
   Forall (fun e => handleEvent e = false) (lifetime deps ps dir)) /\
  (mkdirAll deps dir 448 = None ->
   newLogger deps (filepath_Join dir logFile) = None ->
   (loadSettings ps).1.1 = None ->
   (wal_load ps (loadSettings ps).2).1 = None ->
   exists pre files post,
     lifetime deps ps dir = pre ++ EvWalLock :: files ++ EvWalUnlock :: post /\
     Forall fileEvent files /\
     Forall (fun e => handleEvent e = false) pre /\
     Forall (fun e => handleEvent e = false) post).
Proof.
  lives dir; try destruct Hok as (Hmk & Hnl & Hls & Hwl & Hsp & Hdi);
    rewrite Hlife; clear Hlife.
  all: split; [intros [Hd|[Hd|[Hd|Hd]]]; try congruence; repeat constructor
              | intros Hmk' Hnl' Hls' Hwl'; try congruence].
  all: eexists (_ :: _ :: _ :: _ :: _ :: _ :: _ :: _ :: _ :: _ :: _ :: _ :: [_]),
         files, [_; _; _; _].
  all: split; [simpl; rewrite <- ?app_assoc; reflexivity|].
  all: split; [exact Hall|].
  all: split; repeat constructor.
Qed.

End StartupFacts.

(** A manager started on [Examples.soundDisk] and then closed. *)
Lemma Close_after_startup_witness :
  (ContractManager.Close Examples.soundDisk
     (ContractManager.newContractManager Examples.quietDependencies
        Examples.soundDisk "dir").2).1 = None.
Proof.
  destruct (ContractManager.newContractManager Examples.quietDependencies
              Examples.soundDisk "dir").1.1 as [c|] eqn:Hc.
  - apply (Close_after_startup Examples.quietDependencies Examples.soundDisk
             "dir" c Hc).
  - vm_compute in Hc. discriminate Hc.
Defined.

(** ** Revisions and pieces *)

Section RevisionFacts.

Import Revision RevisionNotions.

Variable T : Type.
Variable ReadSegments : T -> list Byte.byte -> error * T.
Variable Root : T -> Hash.
Variable Sub : Currency -> Currency -> option Currency.
Variable SigHash : Transaction -> Z -> Hash.
Variable SignHash : Hash -> N -> string + N.
Variable TransactionID : Transaction -> Hash.
Variable StandaloneValid : Transaction -> Z -> error.
Variable deriveKey : N -> Z -> Z -> N.
Variable EncryptBytes : N -> list Byte.byte -> string + list Byte.byte.

#[local] Abbreviation revise :=
  (Revision.revise T ReadSegments Root Sub SigHash SignHash TransactionID
     StandaloneValid).
#[local] Abbreviation reviseBody :=
  (Revision.reviseBody T ReadSegments Root Sub SigHash SignHash TransactionID
     StandaloneValid).
#[local] Abbreviation addPiece :=
  (Revision.addPiece T ReadSegments Root Sub SigHash SignHash TransactionID
     StandaloneValid deriveKey EncryptBytes).
#[local] Abbreviation exchange :=
  (Revision.exchange T TransactionID StandaloneValid).
#[local] Abbreviation transfer := (Revision.transfer T Sub).

(** The facts that hold because a step leaves a field alone. *)
Ltac frame :=
  repeat match goal with
         | |- _ /\ _ => split
         | |- _ = _ => reflexivity
         end.

(** The exchange with the host never panics and touches neither the
    renter nor the arrays of outputs; it writes the transaction, then the
    piece once the host has accepted, and sets [lastTxn] when it
    succeeds. *)
Lemma exchange_spec (w : world) (txn : Transaction) (piece : list Byte.byte)
    (height : Z) (st : state T) :
  exists res st',
    exchange w txn piece height st = Some (res, st') /\
    st_renter T st' = st_renter T st /\
    st_store T st' = st_store T st /\
    sameKeys (st_hu T st) (st_hu T st') /\
    contract T (st_hu T st') = contract T (st_hu T st) /\
    tree T (st_hu T st') = tree T (st_hu T st) /\
    exists mid,
      st_events T st' = st_events T st ++ EvWriteObject txn :: mid /\
      ((exists msg, res = inl msg /\
          lastTxn T (st_hu T st') = lastTxn T (st_hu T st) /\
          (mid = [] \/
           mid = [EvWrite piece] /\
           readResponse w = inr Renter.AcceptResponse /\
           writeObject w txn = None)) \/
       (res = inr tt /\ mid = [EvWrite piece] /\
        writeObject w txn = None /\
        readResponse w = inr Renter.AcceptResponse /\
        connWrite w piece = None /\
        readSignedHostTxn w = inr (lastTxn T (st_hu T st')) /\
        TransactionID (lastTxn T (st_hu T st')) = TransactionID txn /\
        StandaloneValid (lastTxn T (st_hu T st')) height = None)).
Proof.
  unfold Revision.exchange, bind, emit, check, fail, ret, modify_hu, sameKeys.
  simpl.
  destruct (writeObject w txn) as [e1|] eqn:Hw; simpl.
  { eexists _, _. split; [reflexivity|]. simpl.
    frame. exists [].
    split; [reflexivity|]. left. eauto. }
  destruct (readResponse w) as [e2|response] eqn:Hr; simpl.
  { eexists _, _. split; [reflexivity|]. simpl.
    frame. exists [].
    split; [reflexivity|]. left. eauto. }
  destruct (String.eqb response Renter.AcceptResponse) eqn:Hacc; simpl.
  2: { eexists _, _. split; [reflexivity|]. simpl.
       frame. exists [].
       split; [reflexivity|]. left. eauto. }
  apply String.eqb_eq in Hacc. subst response.
  destruct (connWrite w piece) as [e3|] eqn:Hc; simpl.
  { eexists _, _. split; [reflexivity|]. simpl.
    frame. exists [EvWrite piece].
    split; [rewrite <- app_assoc; reflexivity|]. left. eauto 10. }
  destruct (readSignedHostTxn w) as [e4|signedHostTxn] eqn:Hh; simpl.
  { eexists _, _. split; [reflexivity|]. simpl.
    frame. exists [EvWrite piece].
    split; [rewrite <- app_assoc; reflexivity|]. left. eauto 10. }
  case_decide as Hid; simpl.
  { eexists _, _. split; [reflexivity|]. simpl.
    frame. exists [EvWrite piece].
    split; [rewrite <- app_assoc; reflexivity|]. left. eauto 10. }
  destruct (StandaloneValid signedHostTxn height) as [e5|] eqn:Hv; simpl.
  { eexists _, _. split; [reflexivity|]. simpl.
    frame. exists [EvWrite piece].
    split; [rewrite <- app_assoc; reflexivity|]. left. eauto 10. }
  eexists _, _. split; [reflexivity|]. simpl.
  frame. exists [EvWrite piece].
  split; [rewrite <- app_assoc; reflexivity|]. right.
  repeat (split; [reflexivity|]).
  split; [|exact Hv].
  destruct (decide (TransactionID signedHostTxn = TransactionID txn));
    [assumption | contradiction].
Qed.

(** The steps of the transfer on arrays that are long enough. *)
Lemma subValue_ok (s : slice) (i : nat) (x : Currency) (st : state T)
    (outputs : list Renter.SiacoinOutput) (o : Renter.SiacoinOutput) :
  exactSub Sub ->
  st_store T st !! s = Some outputs ->
  outputs !! i = Some o ->
  (x <= Renter.Value o)%N ->
  subValue T Sub s i x st
  = Some (inr tt,
          withStore st
            (<[s := <[i := withValue o (Renter.Value o - x)%N]> outputs]>
               (st_store T st))).
Proof.
  intros Hsub Hs Hi Hx. unfold subValue, bind, index, setValue.
  rewrite Hs, Hi, (Hsub _ _ Hx), Hs, Hi. reflexivity.
Qed.

Lemma addValue_ok (s : slice) (i : nat) (x : Currency) (st : state T)
    (outputs : list Renter.SiacoinOutput) (o : Renter.SiacoinOutput) :
  st_store T st !! s = Some outputs ->
  outputs !! i = Some o ->
  addValue T s i x st
  = Some (inr tt,
          withStore st
            (<[s := <[i := withValue o (Renter.Value o + x)%N]> outputs]>
               (st_store T st))).
Proof.
  intros Hs Hi. unfold addValue, bind, index, setValue.
  rewrite Hs, Hi, Hs, Hi. reflexivity.
Qed.

Lemma transfer_ok (valid missed : slice) (p : Currency) (st : state T)
    (v0 v1 : Renter.SiacoinOutput) (vs : list Renter.SiacoinOutput)
    (m0 m1 : Renter.SiacoinOutput) (ms : list Renter.SiacoinOutput) :
  exactSub Sub ->
  valid <> missed ->
  st_store T st !! valid = Some (v0 :: v1 :: vs) ->
  st_store T st !! missed = Some (m0 :: m1 :: ms) ->
  (p <= Renter.Value v0)%N ->
  (p <= Renter.Value m0)%N ->
  transfer valid missed p st
  = Some (inr tt,
          withStore st (moved (st_store T st) valid missed p v0 v1 vs m0 m1 ms)).
Proof.
  intros Hsub Hne Hv Hm Hpv Hpm. unfold Revision.transfer, bind.
  rewrite (subValue_ok valid 0 p st _ v0 Hsub Hv eq_refl Hpv).
  erewrite addValue_ok;
    [| unfold withStore; simpl; apply lookup_insert_eq | reflexivity].
  erewrite subValue_ok;
    [| exact Hsub
     | unfold withStore, store, slice in *; simpl;
       rewrite !lookup_insert_ne by exact Hne; exact Hm
     | reflexivity | exact Hpm].
  erewrite addValue_ok;
    [| unfold withStore; simpl; apply lookup_insert_eq | reflexivity].
  unfold withStore, moved, store, slice in *. simpl.
  rewrite !insert_insert_eq. reflexivity.
Qed.

(** The transfer, when it does not panic, changes the arrays only. *)
Lemma transfer_frame (valid missed : slice) (p : Currency) (st : state T)
    (r : string + unit) (st' : state T) :
  transfer valid missed p st = Some (r, st') ->
  r = inr tt /\ exists outputs, st' = withStore st outputs.
Proof.
  unfold Revision.transfer, subValue, addValue, bind, index, setValue, panic.
  intros Hrun.
  repeat (case_match; simplify_eq/=; try discriminate).
  split; [reflexivity|]. eexists. reflexivity.
Qed.

(** The transfer writes to its two arrays only. *)
Lemma transfer_elsewhere (valid missed : slice) (p : Currency) (st : state T)
    (r : string + unit) (st' : state T) :
  transfer valid missed p st = Some (r, st') ->
  forall s : slice, s <> valid -> s <> missed ->
    st_store T st' !! s = st_store T st !! s.
Proof.
  unfold Revision.transfer, subValue, addValue, bind, index, setValue, panic.
  intros Hrun s Hv Hm.
  repeat (case_match; simplify_eq/=; try discriminate).
  unfold store, slice in *.
  rewrite !lookup_insert_ne by congruence. reflexivity.
Qed.

(** The transfer panics when the renter's missed output cannot pay: the
    first two steps succeed and the third calls [Sub] below zero. *)
Lemma transfer_panics (valid missed : slice) (p : Currency) (st : state T)
    (v0 v1 : Renter.SiacoinOutput) (vs : list Renter.SiacoinOutput)
    (m0 : Renter.SiacoinOutput) (ms : list Renter.SiacoinOutput) :
  exactSub Sub ->
  valid <> missed ->
  st_store T st !! valid = Some (v0 :: v1 :: vs) ->
  st_store T st !! missed = Some (m0 :: ms) ->
  (p <= Renter.Value v0)%N ->
  Sub (Renter.Value m0) p = None ->
  transfer valid missed p st = None.
Proof.
  intros Hsub Hne Hv Hm Hpv Hnone. unfold Revision.transfer, bind.
  rewrite (subValue_ok valid 0 p st _ v0 Hsub Hv eq_refl Hpv).
  erewrite addValue_ok;
    [| unfold withStore; simpl; apply lookup_insert_eq | reflexivity].
  unfold subValue, bind, index, withStore, store, slice in *. simpl.
  rewrite !lookup_insert_ne by exact Hne.
  rewrite Hm. simpl. rewrite Hnone. reflexivity.
Qed.

Lemma index_inv (s : slice) (i : nat) (st : state T)
    (r : string + Renter.SiacoinOutput) (st' : state T) :
  index T s i st = Some (r, st') ->
  st' = st /\ exists outputs o,
    r = inr o /\ st_store T st !! s = Some outputs /\ outputs !! i = Some o.
Proof.
  unfold index. intros Hrun.
  repeat (case_match; simplify_eq/=; try discriminate). eauto 6.
Qed.

Lemma outputsOf_inv (s : slice) (st : state T)
    (r : string + list Renter.SiacoinOutput) (st' : state T) :
  outputsOf T s st = Some (r, st') ->
  st' = st /\ exists outputs, r = inr outputs /\ st_store T st !! s = Some outputs.
Proof.
  unfold outputsOf. intros Hrun.
  repeat (case_match; simplify_eq/=; try discriminate). eauto.
Qed.

(** Every run of [revise] that returns. *)
Lemma revise_spec (w : world) (fc : FileContract) (piece : list Byte.byte)
    (height : Z) (st : state T) (res : error) (st' : state T) :
  revise w fc piece height st = Some (res, st') ->
  st_renter T st' = st_renter T st /\
  sameKeys (st_hu T st) (st_hu T st') /\
  contract T (st_hu T st') = contract T (st_hu T st) /\
  tree T (st_hu T st') = (ReadSegments (tree T (st_hu T st)) piece).2 /\
  exists mid,
    st_events T st' =
      st_events T st ++ EvSetDeadline FiveMinutes :: mid
                     ++ [EvSetDeadline NoDeadline] /\
    ((res <> None /\
      lastTxn T (st_hu T st') = lastTxn T (st_hu T st) /\
      (mid = [] \/
       exists t, mid = [EvWriteObject t] \/
                 mid = [EvWriteObject t; EvWrite piece] /\
                 readResponse w = inr Renter.AcceptResponse /\
                 writeObject w t = None)) \/
     (res = None /\
      exists newValid newMissed sig,
        mid = [EvWriteObject
                 (revisionTxn T (st_hu T st')
                    (newRevision T Root (st_hu T st') fc piece newValid
                       newMissed) sig);
               EvWrite piece] /\
        st_store T st' !! ValidProofOutputs fc = Some newValid /\
        st_store T st' !! MissedProofOutputs fc = Some newMissed /\
        writeObject w
          (revisionTxn T (st_hu T st')
             (newRevision T Root (st_hu T st') fc piece newValid newMissed)
             sig) = None /\
        readResponse w = inr Renter.AcceptResponse /\
        readSignedHostTxn w = inr (lastTxn T (st_hu T st')) /\
        TransactionID (lastTxn T (st_hu T st'))
        = TransactionID
            (revisionTxn T (st_hu T st')
               (newRevision T Root (st_hu T st') fc piece newValid newMissed)
               sig) /\
        StandaloneValid (lastTxn T (st_hu T st')) height = None)).
Proof.
  unfold Revision.revise, Revision.reviseBody.
  unfold bind at 1 2 3 4 5. unfold emit, get, modify_hu. simpl.
  destruct (ReadSegments (tree T (st_hu T st)) piece) as [readErr tree'] eqn:Hread.
  simpl. destruct readErr as [e|]; simpl.
  { intros [= <- <-]. simpl. unfold sameKeys. frame.
    exists []. split; [rewrite <- app_assoc; reflexivity|].
    left. split; [discriminate|]. auto. }
  match goal with
  | |- context [bind T (index T ?s ?i) ?k ?st0] =>
      set (st1 := st0); unfold bind at 1;
      destruct (index T s i st1) as [[r1 st2]|] eqn:Hidx; [|discriminate]
  end.
  destruct (index_inv _ _ _ _ _ Hidx) as (-> & outputs0 & v0 & -> & Hv & Hv0).
  unfold bind at 1.
  match goal with
  | |- context [Revision.transfer T Sub ?a ?b ?p st1] =>
      destruct (Revision.transfer T Sub a b p st1) as [[r2 st3]|] eqn:Htr;
        [|discriminate]
  end.
  destruct (transfer_frame _ _ _ _ _ _ Htr) as (-> & outputs1 & ->).
  unfold bind at 1.
  match goal with
  | |- context [outputsOf T ?s ?st3] =>
      destruct (outputsOf T s st3) as [[r3 st4]|] eqn:Hvalid; [|discriminate]
  end.
  destruct (outputsOf_inv _ _ _ _ Hvalid) as (-> & newValid & -> & HnewValid).
  unfold bind at 1.
  match goal with
  | |- context [outputsOf T ?s ?st3] =>
      destruct (outputsOf T s st3) as [[r4 st5]|] eqn:Hmissed; [|discriminate]
  end.
  destruct (outputsOf_inv _ _ _ _ Hmissed) as (-> & newMissed & -> & HnewMissed).
  match goal with
  | |- context [SignHash ?h ?k] =>
      destruct (SignHash h k) as [e|sig] eqn:Hsig
  end.
  { unfold fail. intros [= <- <-]. subst st1. simpl. unfold sameKeys. frame.
    exists []. split; [rewrite <- app_assoc; reflexivity|].
    left. split; [discriminate|]. auto. }
  match goal with
  | |- context [Revision.exchange T TransactionID StandaloneValid w ?txn piece
                  height ?st5] =>
      destruct (exchange_spec w txn piece height st5)
        as (res5 & st6 & Hex & Hr & Hs & Hk & Hc & Ht & mid & Hev & Hcases);
      rewrite Hex
  end.
  intros [= <- <-]. subst st1. simpl in *.
  destruct Hk as (Hk1 & Hk2 & Hk3 & Hk4).
  split; [exact Hr|]. split; [unfold sameKeys; auto|].
  split; [exact Hc|]. split; [exact Ht|].
  exists (EvWriteObject
            (revisionTxn T
               {| settings := settings T (st_hu T st);
                  masterKey := masterKey T (st_hu T st);
                  unlockConditions := unlockConditions T (st_hu T st);
                  secretKey := secretKey T (st_hu T st);
                  contract := contract T (st_hu T st);
                  tree := tree';
                  lastTxn := lastTxn T (st_hu T st) |}
               (newRevision T Root
                  {| settings := settings T (st_hu T st);
                     masterKey := masterKey T (st_hu T st);
                     unlockConditions := unlockConditions T (st_hu T st);
                     secretKey := secretKey T (st_hu T st);
                     contract := contract T (st_hu T st);
                     tree := tree';
                     lastTxn := lastTxn T (st_hu T st) |}
                  fc piece newValid newMissed) sig) :: mid).
  split; [rewrite Hev, <- !app_assoc; reflexivity|].
  destruct Hcases as [(msg & -> & Hlast & Hmid)|(-> & -> & Hw & Hacc & Hcw & Hread' & Hid & Hvalid')].
  - left. split; [discriminate|]. split; [exact Hlast|]. right.
    eexists. destruct Hmid as [->|(-> & Hacc & Hw)]; [left; reflexivity|].
    right. auto.
  - right. split; [reflexivity|]. exists newValid, newMissed, sig.
    assert (Hrev : forall nv nm,
               newRevision T Root (st_hu T st6) fc piece nv nm
               = newRevision T Root
                   {| settings := settings T (st_hu T st);
                      masterKey := masterKey T (st_hu T st);
                      unlockConditions := unlockConditions T (st_hu T st);
                      secretKey := secretKey T (st_hu T st);
                      contract := contract T (st_hu T st);
                      tree := tree';
                      lastTxn := lastTxn T (st_hu T st) |} fc piece nv nm).
    { intros nv nm. unfold newRevision. simpl. rewrite Hc, Hk3, Ht. reflexivity. }
    assert (Htxn : forall rev s0,
               revisionTxn T (st_hu T st6) rev s0
               = revisionTxn T
                   {| settings := settings T (st_hu T st);
                      masterKey := masterKey T (st_hu T st);
                      unlockConditions := unlockConditions T (st_hu T st);
                      secretKey := secretKey T (st_hu T st);
                      contract := contract T (st_hu T st);
                      tree := tree';
                      lastTxn := lastTxn T (st_hu T st) |} rev s0).
    { intros rev s0. unfold revisionTxn. simpl. rewrite Hc. reflexivity. }
    rewrite Hrev, Htxn, Hs.
    split; [reflexivity|]. split; [exact HnewValid|]. split; [exact HnewMissed|].
    split; [exact Hw|].
    split; [exact Hacc|]. split; [exact Hread'|]. split; [exact Hid | exact Hvalid'].
Qed.


Lemma cappedPrice_le (price : Currency) (v0 : Renter.SiacoinOutput) :
  (cappedPrice price v0 <= Renter.Value v0)%N /\
  (cappedPrice price v0 <= price)%N.
Proof.
  unfold cappedPrice, Wallet.Cmp.
  destruct (N.compare_spec price (Renter.Value v0)); case_decide; lia.
Qed.

(** Of the arrays of outputs, [revise] writes to the two of the contract
    it revises only. *)
Lemma revise_elsewhere (w : world) (fc : FileContract) (piece : list Byte.byte)
    (height : Z) (st : state T) (res : error) (st' : state T) :
  revise w fc piece height st = Some (res, st') ->
  sameElsewhere fc (st_store T st) (st_store T st').
Proof.
  unfold Revision.revise, Revision.reviseBody, sameElsewhere.
  unfold bind at 1 2 3 4 5. unfold emit, get, modify_hu. simpl.
  destruct (ReadSegments (tree T (st_hu T st)) piece) as [readErr tree'].
  simpl. destruct readErr as [e|]; simpl.
  { intros [= <- <-]. reflexivity. }
  match goal with
  | |- context [bind T (index T ?s ?i) ?k ?st0] =>
      set (st1 := st0); unfold bind at 1;
      destruct (index T s i st1) as [[r1 st2]|] eqn:Hidx; [|discriminate]
  end.
  destruct (index_inv _ _ _ _ _ Hidx) as (-> & outputs0 & v0 & -> & Hv & Hv0).
  unfold bind at 1.
  match goal with
  | |- context [Revision.transfer T Sub ?a ?b ?p st1] =>
      destruct (Revision.transfer T Sub a b p st1) as [[r2 st3]|] eqn:Htr;
        [|discriminate]
  end.
  pose proof (transfer_elsewhere _ _ _ _ _ _ Htr) as Helse.
  destruct (transfer_frame _ _ _ _ _ _ Htr) as (-> & outputs1 & ->).
  unfold bind at 1.
  match goal with
  | |- context [outputsOf T ?s ?st3] =>
      destruct (outputsOf T s st3) as [[r3 st4]|] eqn:Hvalid; [|discriminate]
  end.
  destruct (outputsOf_inv _ _ _ _ Hvalid) as (-> & newValid & -> & HnewValid).
  unfold bind at 1.
  match goal with
  | |- context [outputsOf T ?s ?st3] =>
      destruct (outputsOf T s st3) as [[r4 st5]|] eqn:Hmissed; [|discriminate]
  end.
  destruct (outputsOf_inv _ _ _ _ Hmissed) as (-> & newMissed & -> & HnewMissed).
  match goal with
  | |- context [SignHash ?h ?k] =>
      destruct (SignHash h k) as [e|sig] eqn:Hsig
  end.
  { unfold fail. intros [= <- <-]. exact Helse. }
  match goal with
  | |- context [Revision.exchange T TransactionID StandaloneValid w ?txn piece
                  height ?st5] =>
      destruct (exchange_spec w txn piece height st5)
        as (res5 & st6 & Hex & _ & Hs & _);
      rewrite Hex
  end.
  intros [= <- <-]. simpl. rewrite Hs. exact Helse.
Qed.

(** X26.  [revise] moves the price of the piece before the host is asked
    anything and never moves it back.  Take a contract whose two arrays of
    outputs are distinct and hold two outputs each, and a piece whose
    segments are read.  The price is the full price capped at the
    renter's valid output, and at that output only, so the sum of the two
    valid outputs is kept.  When the renter's missed output holds at
    least the price, [revise] does not panic and, whatever the host then
    answers (acceptance, rejection, a failed read or write), the arrays of
    the contract on file show the price taken from output 0 and added to
    output 1, in the valid and in the missed outputs.  When the renter's
    missed output holds less than the price, [revise] panics in [Sub]. *)
Theorem revise_moves_price (w : world) (fc : FileContract)
    (piece : list Byte.byte) (height : Z) (st : state T)
    (v0 v1 : Renter.SiacoinOutput) (vs : list Renter.SiacoinOutput)
    (m0 m1 : Renter.SiacoinOutput) (ms : list Renter.SiacoinOutput) :
  exactSub Sub ->
  (ReadSegments (tree T (st_hu T st)) piece).1 = None ->
  ValidProofOutputs fc <> MissedProofOutputs fc ->
  st_store T st !! ValidProofOutputs fc = Some (v0 :: v1 :: vs) ->
  st_store T st !! MissedProofOutputs fc = Some (m0 :: m1 :: ms) ->
  let p := cappedPrice (fullPrice T (st_hu T st) fc piece height) v0 in
  (p <= Renter.Value v0)%N /\
  (Renter.Value v0 - p + (Renter.Value v1 + p)
   = Renter.Value v0 + Renter.Value v1)%N /\
  ((p <= Renter.Value m0)%N ->
   exists res st',
     revise w fc piece height st = Some (res, st') /\
     st_renter T st' = st_renter T st /\
     st_store T st' =
       moved (st_store T st) (ValidProofOutputs fc) (MissedProofOutputs fc) p
         v0 v1 vs m0 m1 ms) /\
  ((Renter.Value m0 < p)%N -> panickingSub Sub ->
   revise w fc piece height st = None).
Proof.
  intros Hsub Hread Hne Hv Hm p.
  destruct (cappedPrice_le (fullPrice T (st_hu T st) fc piece height) v0)
    as [Hpv _]. fold p in Hpv.
  split; [exact Hpv|]. split; [lia|].
  split; [intros Hpm | intros Hless Hpanic].
  all: unfold Revision.revise, Revision.reviseBody.
  all: unfold bind at 1 2 3 4 5; unfold emit, get, modify_hu; simpl.
  all: destruct (ReadSegments (tree T (st_hu T st)) piece) as [readErr tree'].
  all: simpl in Hread; subst readErr; simpl.
  all: unfold bind at 1; unfold index at 1; simpl; rewrite Hv; simpl.
  all: unfold bind at 1.
  - match goal with
    | |- context [Revision.transfer T Sub _ _ ?q ?st1] =>
        change q with p;
        rewrite (transfer_ok _ _ p st1 v0 v1 vs m0 m1 ms Hsub Hne Hv Hm Hpv Hpm)
    end.
    unfold bind at 1. unfold outputsOf at 1.
    unfold withStore, moved, store, slice in *. simpl.
    rewrite lookup_insert_ne by (intros Heq; apply Hne; auto).
    rewrite lookup_insert_eq.
    unfold bind at 1. unfold outputsOf at 1. unfold store, slice in *. simpl.
    rewrite lookup_insert_eq.
    match goal with
    | |- context [SignHash ?h ?k] => destruct (SignHash h k) as [e|sig]
    end.
    { eexists _, _. split; [reflexivity|]. split; reflexivity. }
    match goal with
    | |- context [Revision.exchange T TransactionID StandaloneValid w ?txn piece
                    height ?st5] =>
        destruct (exchange_spec w txn piece height st5)
          as (res5 & st6 & Hex & Hr & Hs & _);
        rewrite Hex
    end.
    eexists _, _. split; [reflexivity|]. simpl. split; [exact Hr | exact Hs].
  - match goal with
    | |- context [Revision.transfer T Sub _ _ ?q ?st1] =>
        change q with p;
        rewrite (transfer_panics _ _ p st1 v0 v1 vs m0 (m1 :: ms) Hsub Hne Hv Hm
                   Hpv (Hpanic _ _ Hless))
    end.
    reflexivity.
Qed.

(** X27.  What [revise] leaves.  It assigns to no field of the renter:
    the block height and the map of contracts, with the slices that each
    contract on file holds, are as before; nor to the uploader's contract,
    settings and keys.  What it writes of the renter's data are the
    arrays of outputs behind the slices of the contract it revises, which
    the contract on file shares with the revision; every other array is
    as before.  When it returns an error, [lastTxn] is as before.  When
    it returns [nil], [lastTxn] is the transaction read from the host,
    which passed [StandaloneValid] and has the id of the transaction sent;
    the revision sent carries the next revision number, the file size
    grown by the piece, the root of the tree after the piece, and the
    outputs that the arrays of the contract now show. *)
Theorem revise_outcome (w : world) (fc : FileContract)
    (piece : list Byte.byte) (height : Z) (st : state T) (res : error)
    (st' : state T) :
  revise w fc piece height st = Some (res, st') ->
  st_renter T st' = st_renter T st /\
  sameElsewhere fc (st_store T st) (st_store T st') /\
  contract T (st_hu T st') = contract T (st_hu T st) /\
  sameKeys (st_hu T st) (st_hu T st') /\
  (res <> None -> lastTxn T (st_hu T st') = lastTxn T (st_hu T st)) /\
  (res = None ->
   readSignedHostTxn w = inr (lastTxn T (st_hu T st')) /\
   StandaloneValid (lastTxn T (st_hu T st')) height = None /\
   exists txn rev,
     EvWriteObject txn ∈ st_events T st' /\
     TransactionID (lastTxn T (st_hu T st')) = TransactionID txn /\
     FileContractRevisions txn = [rev] /\
     ParentID rev = ID (contract T (st_hu T st)) /\
     NewRevisionNumber rev = u64 (RevisionNumber fc + 1) /\
     NewFileSize rev = u64 (FileSize fc + Z.of_nat (length piece)) /\
     NewFileMerkleRoot rev = Root (tree T (st_hu T st')) /\
     st_store T st' !! ValidProofOutputs fc = Some (NewValidProofOutputs rev) /\
     st_store T st' !! MissedProofOutputs fc
     = Some (NewMissedProofOutputs rev)).
Proof.
  intros Hrun.
  destruct (revise_spec _ _ _ _ _ _ _ Hrun)
    as (Hr & Hk & Hc & Ht & mid & Hev & Hcases).
  split; [exact Hr|]. split; [exact (revise_elsewhere _ _ _ _ _ _ _ Hrun)|].
  split; [exact Hc|]. split; [exact Hk|].
  destruct Hcases as [(Hne & Hlast & _)
                     |(-> & nv & nm & sig & -> & Hnv & Hnm & _ & _ & Hread
                       & Hid & Hvalid)].
  - split; [intros _; exact Hlast | intros ->; contradiction].
  - split; [intros Hne; contradiction | intros _].
    split; [exact Hread|]. split; [exact Hvalid|].
    exists (revisionTxn T (st_hu T st')
              (newRevision T Root (st_hu T st') fc piece nv nm) sig),
           (newRevision T Root (st_hu T st') fc piece nv nm).
    split; [|split; [exact Hid|]].
    + rewrite Hev. simpl. apply elem_of_app. right.
      apply elem_of_cons. right. apply elem_of_cons. left. reflexivity.
    + simpl. rewrite Hc. frame; assumption.
Qed.

(** X28.  What [revise] does on the connection, in every run that
    returns: it sets the deadline of five minutes first and clears it
    last, and in between writes nothing, or one transaction, or one
    transaction and then the piece; the piece is written only after the
    transaction was written without error and the host has answered that
    it accepts. *)
Theorem revise_effects (w : world) (fc : FileContract)
    (piece : list Byte.byte) (height : Z) (st : state T) (res : error)
    (st' : state T) :
  revise w fc piece height st = Some (res, st') ->
  exists mid,
    st_events T st' =
      st_events T st ++ EvSetDeadline FiveMinutes :: mid
                     ++ [EvSetDeadline NoDeadline] /\
    (mid = [] \/
     exists t, mid = [EvWriteObject t] \/
               mid = [EvWriteObject t; EvWrite piece] /\
               writeObject w t = None /\
               readResponse w = inr Renter.AcceptResponse).
Proof.
  intros Hrun.
  destruct (revise_spec _ _ _ _ _ _ _ Hrun)
    as (_ & _ & _ & _ & mid & Hev & Hcases).
  exists mid. split; [exact Hev|].
  destruct Hcases as [(_ & _ & [->|(t & [->|(-> & Hacc & Hw)])])
                     |(_ & nv & nm & sig & -> & _ & _ & Hw & Hacc & _)].
  - left. reflexivity.
  - right. exists t. left. reflexivity.
  - right. exists t. right. auto.
  - right. eexists. right. split; [reflexivity|]. split; [exact Hw | exact Hacc].
Qed.

(** Every run of [addPiece] that returns. *)
Lemma addPiece_spec (w : world) (p : uploadPiece) (st : state T)
    (res : error) (st' : state T) :
  addPiece w p st = Some (res, st') ->
  let hu := st_hu T st in
  let id := ID (contract T hu) in
  (contracts (st_renter T st) !! id = None /\ res <> None /\ st' = st) \/
  (exists fc msg,
     contracts (st_renter T st) !! id = Some fc /\
     EncryptBytes (deriveKey (masterKey T hu) (chunkIndex p) (pieceIndex p))
       (data p) = inl msg /\
     res = Some msg /\ st' = st) \/
  (exists fc encPiece revErr st1,
     contracts (st_renter T st) !! id = Some fc /\
     EncryptBytes (deriveKey (masterKey T hu) (chunkIndex p) (pieceIndex p))
       (data p) = inr encPiece /\
     revise w fc encPiece (blockHeight (st_renter T st)) st
     = Some (revErr, st1) /\
     ((revErr <> None /\ res = revErr /\ st' = st1) \/
      (revErr = None /\ res = None /\
       st_store T st' = st_store T st1 /\
       st_events T st' = st_events T st1 ++ [EvSave] /\
       st_renter T st' =
         {| blockHeight := blockHeight (st_renter T st1);
            contracts := <[id := grown fc (length encPiece)]>
                           (contracts (st_renter T st1)) |} /\
       sameKeys (st_hu T st1) (st_hu T st') /\
       tree T (st_hu T st') = tree T (st_hu T st1) /\
       lastTxn T (st_hu T st') = lastTxn T (st_hu T st1) /\
       contract T (st_hu T st') =
         {| ID := id; IP := IP (contract T hu);
            contractWindowStart := contractWindowStart (contract T hu);
            Pieces := Pieces (contract T hu)
                      ++ [ {| Chunk := chunkIndex p; Piece := pieceIndex p;
                              Offset := FileSize fc |} ] |}))).
Proof.
  unfold Revision.addPiece. cbv zeta.
  unfold bind at 1. unfold get at 1. cbv beta iota.
  destruct (contracts (st_renter T st) !! ID (contract T (st_hu T st)))
    as [fc|] eqn:Hfc.
  2: { unfold fail. intros [= <- <-]. left. auto. }
  destruct (EncryptBytes
              (deriveKey (masterKey T (st_hu T st)) (chunkIndex p) (pieceIndex p))
              (data p)) as [msg|encPiece] eqn:Henc.
  { unfold fail. intros [= <- <-]. right. left. eauto 6. }
  unfold bind at 1.
  destruct (revise w fc encPiece (blockHeight (st_renter T st)) st)
    as [[revErr st1]|] eqn:Hrev; [|discriminate].
  destruct (revise_spec _ _ _ _ _ _ _ Hrev) as (Hr & Hk & Hc & _).
  intros Hrun.
  right. right. exists fc, encPiece, revErr, st1.
  split; [reflexivity|]. split; [reflexivity|]. split; [exact Hrev|].
  unfold bind, check, fail, ret, modify_hu, modify_renter, get, emit in Hrun.
  destruct revErr as [e|]; simpl in Hrun.
  - injection Hrun as <- <-. left. split; [discriminate|]. auto.
  - injection Hrun as <- <-. right. simpl. unfold sameKeys.
    rewrite Hc. frame.
Qed.

(** X29.  What a successful [addPiece] records.  The contract on file
    was found and the piece encrypted; the renter now files, under the
    same id, the contract with the next revision number and the file size
    grown by the encrypted piece; the uploader has one more piece, whose
    offset is the old file size.  The revision that was sent carries that
    revision number and that file size, and [lastTxn] has its id.  The
    effects are those of one [revise], and then one save of the renter. *)
Theorem addPiece_success (w : world) (p : uploadPiece) (st : state T)
    (st' : state T) :
  addPiece w p st = Some (None, st') ->
  let hu := st_hu T st in
  let id := ID (contract T hu) in
  exists fc encPiece txn rev,
    contracts (st_renter T st) !! id = Some fc /\
    EncryptBytes (deriveKey (masterKey T hu) (chunkIndex p) (pieceIndex p))
      (data p) = inr encPiece /\
    contracts (st_renter T st') =
      <[id := grown fc (length encPiece)]> (contracts (st_renter T st)) /\
    blockHeight (st_renter T st') = blockHeight (st_renter T st) /\
    ID (contract T (st_hu T st')) = id /\
    Pieces (contract T (st_hu T st')) =
      Pieces (contract T hu)
      ++ [ {| Chunk := chunkIndex p; Piece := pieceIndex p;
              Offset := FileSize fc |} ] /\
    st_events T st' =
      st_events T st
      ++ [EvSetDeadline FiveMinutes; EvWriteObject txn; EvWrite encPiece;
          EvSetDeadline NoDeadline; EvSave] /\
    FileContractRevisions txn = [rev] /\
    NewFileSize rev = FileSize (grown fc (length encPiece)) /\
    NewRevisionNumber rev = RevisionNumber (grown fc (length encPiece)) /\
    TransactionID (lastTxn T (st_hu T st')) = TransactionID txn.
Proof.
  intros Hrun. cbv zeta.
  destruct (addPiece_spec _ _ _ _ _ Hrun)
    as [(_ & Hne & _)
       |[(fc & msg & _ & _ & Hres & _)
        |(fc & encPiece & revErr & st1 & Hfc & Henc & Hrev & Hcases)]];
    [contradiction | discriminate |].
  destruct Hcases as [(Hne & <- & _)|(-> & _ & Hs & Hev & Hr & Hk & Ht & Hl & Hc)];
    [contradiction|].
  destruct (revise_spec _ _ _ _ _ _ _ Hrev)
    as (Hr1 & Hk1 & Hc1 & Ht1 & mid & Hev1 & Hcases).
  destruct Hcases as [(Hne & _)
                     |(_ & nv & nm & sig & -> & _ & _ & _ & _ & _ & Hid & _)];
    [contradiction|].
  exists fc, encPiece,
    (revisionTxn T (st_hu T st1)
       (newRevision T Root (st_hu T st1) fc encPiece nv nm) sig),
    (newRevision T Root (st_hu T st1) fc encPiece nv nm).
  split; [exact Hfc|]. split; [exact Henc|].
  rewrite Hr, Hc, Hl, Hev, Hev1, Hr1. simpl.
  rewrite <- !app_assoc. simpl. frame. exact Hid.
Qed.

(** X30.  An [addPiece] that returns an error assigns nothing: the
    fields of the renter (the block height and the map of contracts, with
    the slices that each contract on file holds), the uploader's contract
    with its pieces, its settings, its keys and [lastTxn] are as before,
    and the renter is not saved.  It does not undo what [revise] wrote,
    though: when the piece was encrypted, the state is the one the failed
    [revise] left, in which the arrays of outputs of the contract on file
    may show the price moved to the host; the other arrays are as before.
    Without a contract on file for the uploader's id, or when the
    encryption fails, nothing happens at all. *)
Theorem addPiece_failure (w : world) (p : uploadPiece) (st : state T)
    (msg : string) (st' : state T) :
  addPiece w p st = Some (Some msg, st') ->
  let hu := st_hu T st in
  let id := ID (contract T hu) in
  let encrypted :=
    EncryptBytes (deriveKey (masterKey T hu) (chunkIndex p) (pieceIndex p))
      (data p) in
  st_renter T st' = st_renter T st /\
  contract T (st_hu T st') = contract T hu /\
  lastTxn T (st_hu T st') = lastTxn T hu /\
  sameKeys hu (st_hu T st') /\
  (exists evs, st_events T st' = st_events T st ++ evs /\ EvSave ∉ evs) /\
  (contracts (st_renter T st) !! id = None -> st' = st) /\
  (forall e, encrypted = inl e -> st' = st) /\
  (forall fc encPiece,
     contracts (st_renter T st) !! id = Some fc ->
     encrypted = inr encPiece ->
     revise w fc encPiece (blockHeight (st_renter T st)) st
       = Some (Some msg, st') /\
     sameElsewhere fc (st_store T st) (st_store T st')).
Proof.
  intros Hrun. cbv zeta.
  destruct (addPiece_spec _ _ _ _ _ Hrun)
    as [(Hnone & _ & ->)
       |[(fc & msg' & Hfc & Henc & _ & ->)
        |(fc & encPiece & revErr & st1 & Hfc & Henc & Hrev & Hcases)]];
    cbv zeta in *.
  - unfold sameKeys. frame; try (intros; reflexivity).
    + exists []. rewrite app_nil_r.
      split; [reflexivity | apply not_elem_of_nil].
    + intros fc encPiece Hfc. congruence.
  - unfold sameKeys. frame; try (intros; reflexivity).
    + exists []. rewrite app_nil_r.
      split; [reflexivity | apply not_elem_of_nil].
    + intros fc' encPiece _ Henc'. congruence.
  - destruct Hcases as [(Hne & <- & ->)|(_ & Hres & _)]; [|discriminate Hres].
    destruct (revise_spec _ _ _ _ _ _ _ Hrev)
      as (Hr1 & Hk1 & Hc1 & Ht1 & mid & Hev1 & Hcases).
    destruct Hcases as [(_ & Hlast & Hmid)|(Hnil & _)]; [|discriminate Hnil].
    split; [exact Hr1|]. split; [exact Hc1|]. split; [exact Hlast|].
    split; [exact Hk1|]. split; [|split; [congruence|split]].
    + eexists. split; [exact Hev1|].
      destruct Hmid as [->|(t & [->|(-> & _)])]; simpl;
        rewrite ?elem_of_cons, elem_of_nil; intuition discriminate.
    + intros e He. congruence.
    + intros fc' encPiece' Hfc' Henc'.
      assert (fc' = fc) as -> by congruence.
      assert (encPiece' = encPiece) as -> by congruence.
      split; [exact Hrev | exact (revise_elsewhere _ _ _ _ _ _ _ Hrev)].
Qed.

End RevisionFacts.

(** In front of [RevisionExamples.refusingHost], [revise] returns an
    error and the arrays of the contract on file have moved the price of
    the piece, 60, all the same; from [RevisionExamples.shortStart],
    where the renter's missed output holds 50, it panics. *)
Lemma revise_moves_price_witness :
  (exists res st',
     RevisionExamples.reviseWith RevisionExamples.refusingHost
       = Some (res, st') /\
     Revision.st_renter nat st'
       = Revision.st_renter nat RevisionExamples.start /\
     Revision.st_store nat st' =
       RevisionNotions.moved RevisionExamples.arrays 0%nat 1%nat 60%N
         {| Renter.Value := 100%N; Renter.UnlockHash := 33%N |}
         {| Renter.Value := 0%N; Renter.UnlockHash := 77%N |} []
         {| Renter.Value := 100%N; Renter.UnlockHash := 33%N |}
         {| Renter.Value := 0%N; Renter.UnlockHash := 0%N |} []) /\
  Revision.revise nat RevisionExamples.readSegments RevisionExamples.root
    RevisionExamples.sub RevisionExamples.sigHash RevisionExamples.signHash
    RevisionExamples.revisionID RevisionExamples.standaloneValid
    RevisionExamples.refusingHost RevisionExamples.onFile Examples.payload 100
    RevisionExamples.shortStart = None.
Proof.
  assert (Hsub : RevisionNotions.exactSub RevisionExamples.sub).
  { intros x y Hxy. unfold RevisionExamples.sub.
    case_decide; [reflexivity | contradiction]. }
  split.
  - destruct (revise_moves_price nat RevisionExamples.readSegments
                RevisionExamples.root RevisionExamples.sub
                RevisionExamples.sigHash RevisionExamples.signHash
                RevisionExamples.revisionID RevisionExamples.standaloneValid
                RevisionExamples.refusingHost RevisionExamples.onFile
                Examples.payload 100 RevisionExamples.start
                {| Renter.Value := 100%N; Renter.UnlockHash := 33%N |}
                {| Renter.Value := 0%N; Renter.UnlockHash := 77%N |} []
                {| Renter.Value := 100%N; Renter.UnlockHash := 33%N |}
                {| Renter.Value := 0%N; Renter.UnlockHash := 0%N |} [])
      as (_ & _ & Hmoves & _).
    + exact Hsub.
    + reflexivity.
    + simpl. lia.
    + reflexivity.
    + reflexivity.
    + apply Hmoves. vm_compute. discriminate.
  - destruct (revise_moves_price nat RevisionExamples.readSegments
                RevisionExamples.root RevisionExamples.sub
                RevisionExamples.sigHash RevisionExamples.signHash
                RevisionExamples.revisionID RevisionExamples.standaloneValid
                RevisionExamples.refusingHost RevisionExamples.onFile
                Examples.payload 100 RevisionExamples.shortStart
                {| Renter.Value := 100%N; Renter.UnlockHash := 33%N |}
                {| Renter.Value := 0%N; Renter.UnlockHash := 77%N |} []
                {| Renter.Value := 50%N; Renter.UnlockHash := 33%N |}
                {| Renter.Value := 0%N; Renter.UnlockHash := 0%N |} [])
      as (_ & _ & _ & Hpanics).
    + exact Hsub.
    + reflexivity.
    + simpl. lia.
    + reflexivity.
    + reflexivity.
    + apply Hpanics; [vm_compute; reflexivity|].
      intros x y Hxy. unfold RevisionExamples.sub.
      case_decide; [lia | reflexivity].
Defined.

(** In front of [RevisionExamples.signingHost], [revise] succeeds and
    keeps the transaction the host signed. *)
Lemma revise_outcome_witness :
  RevisionExamples.reviseWith RevisionExamples.signingHost
    = Some (None,
            (RevisionExamples.ranWith
               (RevisionExamples.reviseWith RevisionExamples.signingHost)).2) /\
  Revision.readSignedHostTxn RevisionExamples.signingHost
  = inr (Revision.lastTxn nat
           (Revision.st_hu nat
              (RevisionExamples.ranWith
                 (RevisionExamples.reviseWith
                    RevisionExamples.signingHost)).2)).
Proof.
  assert (Hrun :
    RevisionExamples.reviseWith RevisionExamples.signingHost
    = Some (None,
            (RevisionExamples.ranWith
               (RevisionExamples.reviseWith RevisionExamples.signingHost)).2))
    by (vm_compute; reflexivity).
  split; [exact Hrun|].
  destruct (revise_outcome nat RevisionExamples.readSegments
              RevisionExamples.root RevisionExamples.sub
              RevisionExamples.sigHash RevisionExamples.signHash
              RevisionExamples.revisionID RevisionExamples.standaloneValid
              RevisionExamples.signingHost RevisionExamples.onFile
              Examples.payload 100 RevisionExamples.start None _ Hrun)
    as (_ & _ & _ & _ & _ & Hok).
  destruct (Hok eq_refl) as (Hread & _). exact Hread.
Defined.

(** In front of the host that refuses, [revise] wrote one transaction and
    no piece between the setting and the clearing of the deadline. *)
Lemma revise_effects_witness :
  exists mid,
    Revision.st_events nat
      (RevisionExamples.ranWith
         (RevisionExamples.reviseWith RevisionExamples.refusingHost)).2
    = Revision.st_events nat RevisionExamples.start
      ++ Revision.EvSetDeadline Revision.FiveMinutes :: mid
      ++ [Revision.EvSetDeadline Revision.NoDeadline] /\
    (mid = [] \/
     exists t, mid = [Revision.EvWriteObject t] \/
               mid = [Revision.EvWriteObject t;
                      Revision.EvWrite Examples.payload] /\
               Revision.writeObject RevisionExamples.refusingHost t = None /\
               Revision.readResponse RevisionExamples.refusingHost
               = inr Renter.AcceptResponse).
Proof.
  apply (revise_effects nat RevisionExamples.readSegments
           RevisionExamples.root RevisionExamples.sub
           RevisionExamples.sigHash RevisionExamples.signHash
           RevisionExamples.revisionID RevisionExamples.standaloneValid
           RevisionExamples.refusingHost RevisionExamples.onFile
           Examples.payload 100 RevisionExamples.start
           (RevisionExamples.ranWith
              (RevisionExamples.reviseWith RevisionExamples.refusingHost)).1).
  vm_compute. reflexivity.
Defined.

(** In front of the host that signs, [addPiece] succeeds: the contract on
    file has revision number 1 and the size of the piece. *)
Lemma addPiece_success_witness :
  exists (fc : Revision.FileContract) (encPiece : list Byte.byte),
    Revision.contracts
      (Revision.st_renter nat
         (RevisionExamples.ranWith
            (RevisionExamples.addPieceWith RevisionExamples.signingHost)).2)
    = <[9%N := RevisionNotions.grown fc (length encPiece)]>
        (Revision.contracts (Revision.st_renter nat RevisionExamples.start)).
Proof.
  destruct (addPiece_success nat RevisionExamples.readSegments
              RevisionExamples.root RevisionExamples.sub
              RevisionExamples.sigHash RevisionExamples.signHash
              RevisionExamples.revisionID RevisionExamples.standaloneValid
              RevisionExamples.derive RevisionExamples.encrypt
              RevisionExamples.signingHost RevisionExamples.somePiece
              RevisionExamples.start
              (RevisionExamples.ranWith
                 (RevisionExamples.addPieceWith RevisionExamples.signingHost)).2)
    as (fc & encPiece & txn & rev & _ & _ & Hcontracts & _).
  - vm_compute. reflexivity.
  - exists fc, encPiece. exact Hcontracts.
Defined.

(** In front of the host that refuses, [addPiece] fails: the renter is
    as before, and the state is the one the failed [revise] left. *)
Lemma addPiece_failure_witness :
  Revision.st_renter nat
    (RevisionExamples.ranWith
       (RevisionExamples.addPieceWith RevisionExamples.refusingHost)).2
  = Revision.st_renter nat RevisionExamples.start /\
  RevisionExamples.reviseWith RevisionExamples.refusingHost
  = Some (Some "host rejected revision: no",
          (RevisionExamples.ranWith
             (RevisionExamples.addPieceWith RevisionExamples.refusingHost)).2).
Proof.
  destruct (addPiece_failure nat RevisionExamples.readSegments
              RevisionExamples.root RevisionExamples.sub
              RevisionExamples.sigHash RevisionExamples.signHash
              RevisionExamples.revisionID RevisionExamples.standaloneValid
              RevisionExamples.derive RevisionExamples.encrypt
              RevisionExamples.refusingHost RevisionExamples.somePiece
              RevisionExamples.start "host rejected revision: no"
              (RevisionExamples.ranWith
                 (RevisionExamples.addPieceWith RevisionExamples.refusingHost)).2)
    as (Hrenter & _ & _ & _ & _ & _ & _ & Hrevise).
  - vm_compute. reflexivity.
  - split; [exact Hrenter|].
    exact (proj1 (Hrevise RevisionExamples.onFile Examples.payload
                    eq_refl eq_refl)).
Defined.

(** The run of [addPiece] in front of the host that refuses: the renter
    still files the contract at revision 0 and size 0, and its array of
    valid outputs has lost 60 to the host. *)
Example addPiece_refused_example :
  match RevisionExamples.addPieceWith RevisionExamples.refusingHost with
  | Some (res, st') =>
      res = Some "host rejected revision: no" /\
      Revision.contracts (Revision.st_renter nat st') !! 9%N
        = Some RevisionExamples.onFile /\
      Revision.st_store nat st' !! 0%nat
        = Some [ {| Renter.Value := 40%N; Renter.UnlockHash := 33%N |};
                 {| Renter.Value := 60%N; Renter.UnlockHash := 77%N |} ]
  | None => False
  end.
Proof. vm_compute. repeat split; reflexivity. Qed.
